(** * A file-upload service with short access codes

    Shallow embedding of [src/index.ts] (request handlers, short-code
    generator, [formatBytes]) and of the [DatabaseManager] class that the
    handlers call, followed by the properties proved about them.

    Conventions of the embedding.
    - A JavaScript string is the [string] of its UTF-8 bytes, which is how
      SQLite and the file system see it. A number read from a query
      parameter is a [number]: an integer that is a double, an infinity or
      [NaN]; [parseInt] rounds to the nearest double. The integers of the
      table and of file sizes are [Z]. [Math.random()] returns a rational,
      as does SQL [AVG], whose result is the quotient rounded to a double.
      [formatBytes] computes its logarithm and its decimals exactly.
    - The process state that the handlers read and write is the record
      [World]: the [DatabaseManager.db] handle, the files on disk, the
      sequence of numbers [Math.random()] is going to return, and the clock.
    - A JavaScript computation is a function [World -> Outcome A * World]:
      it either returns or throws, and keeps the effects it had before it
      threw.
    - The SQL statements are given their SQLite meaning on the list of rows
      of the [urls] table, kept in rowid order: [ORDER BY uploadedAt] walks
      the index [idx_uploadedAt], [ORDER BY accessCount] sorts the table
      scan, a bound [LIMIT] or [OFFSET] has to be a 64-bit integer, and
      [LIKE] reads its operands as NUL-terminated UTF-8. Integers stored in
      the table are unbounded: their 64-bit range is not modelled.
    - What the program imports is modelled by its documented behaviour:
      [path.join], [path.resolve] and [path.extname] of the POSIX [path]
      module, [fs] on a map from absolute paths to the bytes of regular
      files, and the [Database] handle of [bun:sqlite].
    - A handler is a function of the values that the framework passes to
      it (path parameters after decoding, query parameters, form data) and
      returns the response body together with [set.status]. Logging is
      left out. *)

From Stdlib Require Import ZArith QArith Qround Qabs Lia List Ascii String Bool.
From Stdlib Require Import Sorting.Sorted Sorting.Permutation DecimalString.
From stdpp Require Import base gmap strings list.

Local Open Scope string_scope.
Local Open Scope list_scope.
Local Open Scope Z_scope.
Local Open Scope stdpp_scope.

(** ** Outcomes and the computation monad *)

Inductive Outcome (A : Type) : Type :=
| Return (a : A)
| Throw (message : string).
Arguments Return {A} a.
Arguments Throw {A} message.

(** ** The [urls] table *)

Module UrlRecord.
Record t : Type := mk {
  id : Z;
  shortCode : string;
  filename : string;
  originalName : string;
  uploadedAt : string;
  size : Z;
  mimetype : string;
  accessCount : Z;
  lastAccessedAt : option string
}.
End UrlRecord.
Abbreviation UrlRecord := UrlRecord.t.

(** The argument of [insertUrl]:
    [Omit<UrlRecord, 'id' | 'accessCount' | 'lastAccessedAt'>]. *)
Module NewUrl.
Record t : Type := mk {
  shortCode : string;
  filename : string;
  originalName : string;
  uploadedAt : string;
  size : Z;
  mimetype : string
}.
End NewUrl.

(** The open connection: the rows of [urls] in rowid order, the
    AUTOINCREMENT high-water mark kept in [sqlite_sequence], and SQLite's
    change counter of the connection (rows touched by the most recent
    INSERT, UPDATE or DELETE; SELECT leaves it alone). *)
Record Database : Type := mkDatabase {
  rows : list UrlRecord;
  seq : Z;
  changes : Z
}.

(** ** The world *)

Record World : Type := mkWorld {
  db : option Database;                 (* DatabaseManager.db, null = None *)
  files : gmap string (list Byte.byte); (* regular files by absolute path *)
  disk_full : bool;                     (* fs.writeFile rejects when set *)
  random : nat -> Q;                    (* values Math.random() will return *)
  drawn : nat;                          (* how many of them were consumed *)
  now_ms : Z;                           (* Date.now() *)
  now_iso : string;                     (* new Date().toISOString() *)
  cwd : string;                         (* process.cwd(), an absolute path *)
  env_PORT : option string;             (* process.env.PORT *)
  changes_property : bool               (* the handle has a property changes *)
}.

Definition M (A : Type) : Type := World -> Outcome A * World.

Definition ret {A} (a : A) : M A := fun w => (Return a, w).

Definition throw {A} (message : string) : M A := fun w => (Throw message, w).

Definition bind {A B} (m : M A) (f : A -> M B) : M B :=
  fun w =>
    match m w with
    | (Return a, w') => f a w'
    | (Throw e, w') => (Throw e, w')
    end.

(** [try { m } catch (error) { h error.message }] *)
Definition try_catch {A} (m : M A) (h : string -> M A) : M A :=
  fun w =>
    match m w with
    | (Return a, w') => (Return a, w')
    | (Throw e, w') => h e w'
    end.

Notation "x <- m ;; k" := (bind m (fun x => k))
  (at level 100, m at next level, right associativity).
Notation "m ;;; k" := (bind m (fun _ => k))
  (at level 100, right associativity).

Definition ask : M World := fun w => (Return w, w).

Definition set_db (d : option Database) (w : World) : World :=
  mkWorld d (files w) (disk_full w) (random w) (drawn w) (now_ms w)
    (now_iso w) (cwd w) (env_PORT w) (changes_property w).

Definition set_files (f : gmap string (list Byte.byte)) (w : World) : World :=
  mkWorld (db w) f (disk_full w) (random w) (drawn w) (now_ms w)
    (now_iso w) (cwd w) (env_PORT w) (changes_property w).

Definition set_drawn (n : nat) (w : World) : World :=
  mkWorld (db w) (files w) (disk_full w) (random w) n (now_ms w)
    (now_iso w) (cwd w) (env_PORT w) (changes_property w).

(** ** JavaScript primitives *)

(** [a || b] on strings and on numbers: the empty string, [0], [NaN],
    [null] and [undefined] are falsy. *)
Definition or_string (a : option string) (b : string) : string :=
  match a with
  | Some s => if String.eqb s "" then b else s
  | None => b
  end.

Definition or_Z (a : option Z) (b : Z) : Z :=
  match a with
  | Some n => if n =? 0 then b else n
  | None => b
  end.

(** A value that is a number or [undefined], and [a > b] on it:
    [undefined] becomes [NaN], which compares false. *)
Inductive JsValue : Type :=
| Undefined
| Number (n : Z).

Definition js_gt (a : JsValue) (b : Z) : bool :=
  match a with
  | Number n => n >? b
  | Undefined => false
  end.

(** *** Numbers

    The numbers that [parseInt] can return: [NaN], the infinities, and the
    integers that are doubles. *)
Inductive number : Type :=
| NaN
| Infinity (negative : bool)
| Int (z : Z).

(** The integer nearest to [p / q], for [q > 0]; of two nearest ones the
    even one. *)
Definition round_div (p q : Z) : Z :=
  let f := p / q in
  match 2 * (p mod q) ?= q with
  | Lt => f
  | Gt => f + 1
  | Eq => if Z.even f then f else f + 1
  end.

(** The double nearest to an integer, as an integer: 53 significant bits,
    halfway cases to the even significand. The exponent range is not
    looked at. *)
Definition round_to_double (z : Z) : Z :=
  let a := Z.abs z in
  if a <=? 2 ^ 53 then z
  else
    let e := Z.log2 a - 52 in
    Z.sgn z * (round_div a (2 ^ e) * 2 ^ e).

(** The Number value of an integer: beyond the largest double it is an
    infinity. *)
Definition double_of_Z (z : Z) : number :=
  let r := round_to_double z in
  if 2 ^ 1024 <=? Z.abs r then Infinity (z <? 0) else Int r.

(** [a || b] for a number [a]: [NaN] and zero are falsy. *)
Definition or_number (a : number) (b : Z) : number :=
  match a with
  | NaN => Int b
  | Int z => if z =? 0 then Int b else a
  | Infinity _ => a
  end.

(** [a + b] *)
Definition number_add (a b : number) : number :=
  match a, b with
  | Int x, Int y => double_of_Z (x + y)
  | NaN, _ => NaN
  | _, NaN => NaN
  | Infinity s, Infinity t => if Bool.eqb s t then Infinity s else NaN
  | Infinity s, Int _ => Infinity s
  | Int _, Infinity t => Infinity t
  end.

(** [a < b] for an integer [b] *)
Definition number_lt (a : number) (b : Z) : bool :=
  match a with
  | Int x => x <? b
  | Infinity negative => negative
  | NaN => false
  end.

Definition or_Q (a : option Q) (b : Q) : Q :=
  match a with
  | Some q => if Qeq_bool q 0 then b else q
  | None => b
  end.

(** [s.charAt(i)]: the one-character string at index [i], or the empty
    string when [i] is out of range. *)
Definition charAt (s : string) (i : Z) : string :=
  if i <? 0 then ""
  else match String.get (Z.to_nat i) s with
       | Some c => String c ""
       | None => ""
       end.

Definition Math_floor (x : Q) : Z := Qfloor x.

Definition Math_random : M Q :=
  fun w => (Return (random w (drawn w)), set_drawn (S (drawn w)) w).

(** [String(n)] for an integer [n]. *)
Definition Z_to_string (n : Z) : string :=
  NilZero.string_of_int (Z.to_int n).

Definition in_range (lo hi : nat) (c : ascii) : bool :=
  (lo <=? nat_of_ascii c)%nat && (nat_of_ascii c <=? hi)%nat.

Definition is_digit (c : ascii) : bool := in_range 48 57 c.
Definition is_upper (c : ascii) : bool := in_range 65 90 c.
Definition is_lower (c : ascii) : bool := in_range 97 122 c.
Definition is_alnum (c : ascii) : bool := is_upper c || is_lower c || is_digit c.

(** [/^[A-Za-z0-9]{6,8}$/.test(s)]. Without the [m] flag [$] matches at the
    end of the input only. *)
Definition shortCode_regex_test (s : string) : bool :=
  (6 <=? String.length s)%nat && (String.length s <=? 8)%nat
  && forallb is_alnum (list_ascii_of_string s).

(** *** [parseInt(s)], radix not given

    Leading white space, an optional sign, an optional [0x] prefix, then the
    longest prefix of digits; the result is the Number value of the integer
    they denote, or [NaN] when there is no digit. White space is the
    language's: its white space and line terminator characters. *)
Definition is_space (c : ascii) : bool :=
  in_range 9 13 c || (nat_of_ascii c =? 32)%nat.

Definition byte_is (n : nat) (c : ascii) : bool := (nat_of_ascii c =? n)%nat.

(** U+00A0 in UTF-8. *)
Definition is_space2 (c1 c2 : ascii) : bool := byte_is 194 c1 && byte_is 160 c2.

(** U+1680, U+2000 to U+200A, U+2028, U+2029, U+202F, U+205F, U+3000 and
    U+FEFF in UTF-8. *)
Definition is_space3 (c1 c2 c3 : ascii) : bool :=
  (byte_is 225 c1 && byte_is 154 c2 && byte_is 128 c3)
  || (byte_is 226 c1 && byte_is 128 c2
      && (in_range 128 138 c3 || byte_is 168 c3 || byte_is 169 c3
          || byte_is 175 c3))
  || (byte_is 226 c1 && byte_is 129 c2 && byte_is 159 c3)
  || (byte_is 227 c1 && byte_is 128 c2 && byte_is 128 c3)
  || (byte_is 239 c1 && byte_is 187 c2 && byte_is 191 c3).

Fixpoint skip_spaces (s : list ascii) : list ascii :=
  match s with
  | c1 :: s1 =>
      if is_space c1 then skip_spaces s1
      else
        match s1 with
        | c2 :: s2 =>
            if is_space2 c1 c2 then skip_spaces s2
            else
              match s2 with
              | c3 :: s3 => if is_space3 c1 c2 c3 then skip_spaces s3 else s
              | [] => s
              end
        | [] => s
        end
  | [] => []
  end.

Definition digit_value (radix : Z) (c : ascii) : option Z :=
  let n := Z.of_nat (nat_of_ascii c) in
  let v := if is_digit c then Some (n - 48)
           else if in_range 97 102 c then Some (n - 87)
           else if in_range 65 70 c then Some (n - 55)
           else None in
  match v with
  | Some d => if d <? radix then Some d else None
  | None => None
  end.

Fixpoint parse_digits (radix : Z) (s : list ascii) (acc : option Z) : option Z :=
  match s with
  | c :: s' =>
      match digit_value radix c with
      | Some d =>
          parse_digits radix s' (Some (radix * default 0 acc + d))
      | None => acc
      end
  | [] => acc
  end.

Definition ascii_x : ascii := "x"%char.
Definition ascii_X : ascii := "X"%char.
Definition ascii_0 : ascii := "0"%char.
Definition ascii_minus : ascii := "-"%char.
Definition ascii_plus : ascii := "+"%char.

Definition parse_unsigned (s : list ascii) : option Z :=
  match s with
  | z :: x :: s' =>
      if Ascii.eqb z ascii_0 && (Ascii.eqb x ascii_x || Ascii.eqb x ascii_X)
      then parse_digits 16 s' None
      else parse_digits 10 s None
  | _ => parse_digits 10 s None
  end.

(** The integer that the digits denote. *)
Definition parse_integer (arg : option string) : option Z :=
  let s := skip_spaces (list_ascii_of_string (default "undefined" arg)) in
  match s with
  | c :: s' =>
      if Ascii.eqb c ascii_minus then Z.opp <$> parse_unsigned s'
      else if Ascii.eqb c ascii_plus then parse_unsigned s'
      else parse_unsigned s
  | [] => None
  end.

Definition parseInt (arg : option string) : number :=
  match parse_integer arg with
  | Some z => double_of_Z z
  | None => NaN
  end.

(** ** [path] (POSIX) *)

Module path.

Definition slash : ascii := "/"%char.
Definition dot : ascii := "."%char.

(** The segments between the separators of a path. *)
Fixpoint split_go (s : list ascii) (cur : list ascii) : list (list ascii) :=
  match s with
  | [] => [rev cur]
  | c :: s' =>
      if Ascii.eqb c slash then rev cur :: split_go s' []
      else split_go s' (c :: cur)
  end.

Definition split (p : string) : list string :=
  List.map string_of_list_ascii (split_go (list_ascii_of_string p) []).

Fixpoint concat_with (sep : string) (l : list string) : string :=
  match l with
  | [] => ""
  | [s] => s
  | s :: l' => s +:+ sep +:+ concat_with sep l'
  end.

(** [normalizeString]: empty and [.] segments vanish, [..] removes the
    segment before it; at the top [..] is kept for a relative path and
    dropped for an absolute one. [res] is the output so far, last segment
    first. *)
Fixpoint normalizeString (segs : list string) (allowAboveRoot : bool)
    (res : list string) : list string :=
  match segs with
  | [] => rev res
  | s :: segs' =>
      if String.eqb s "" || String.eqb s "." then
        normalizeString segs' allowAboveRoot res
      else if String.eqb s ".." then
        match res with
        | top :: res' =>
            if String.eqb top ".." then
              normalizeString segs' allowAboveRoot
                (if allowAboveRoot then ".." :: res else res)
            else normalizeString segs' allowAboveRoot res'
        | [] =>
            normalizeString segs' allowAboveRoot
              (if allowAboveRoot then [".."] else [])
        end
      else normalizeString segs' allowAboveRoot (s :: res)
  end.

Definition isAbsolute (p : string) : bool := String.prefix "/" p.

Definition ends_with_slash (p : string) : bool :=
  match rev (list_ascii_of_string p) with
  | c :: _ => Ascii.eqb c slash
  | [] => false
  end.

Definition normalize (p : string) : string :=
  if String.eqb p "" then "."
  else
    let body := concat_with "/" (normalizeString (split p) (negb (isAbsolute p)) []) in
    if String.eqb body "" then
      if isAbsolute p then "/" else if ends_with_slash p then "./" else "."
    else
      let body := if ends_with_slash p then body +:+ "/" else body in
      if isAbsolute p then "/" +:+ body else body.

(** [path.join(a, b)] *)
Definition join (a b : string) : string :=
  if String.eqb a "" then (if String.eqb b "" then "." else normalize b)
  else if String.eqb b "" then normalize a
  else normalize (a +:+ "/" +:+ b).

(** [path.resolve(p)] in the working directory [cwd]: an absolute,
    normalised path without trailing separator. *)
Definition resolve (cwd p : string) : string :=
  let full := if isAbsolute p then p else cwd +:+ "/" +:+ p in
  "/" +:+ concat_with "/" (normalizeString (split full) false []).

Fixpoint strip_trailing_slashes (r : list ascii) : list ascii :=
  match r with
  | c :: r' => if Ascii.eqb c slash then strip_trailing_slashes r' else r
  | [] => []
  end.

(** The characters of the last segment, last character first, given the
    reversed path. *)
Fixpoint rev_basename (r : list ascii) : list ascii :=
  match r with
  | c :: r' => if Ascii.eqb c slash then [] else c :: rev_basename r'
  | [] => []
  end.

(** In a reversed name, the part up to and including the last dot of the
    name, and what is left of it. *)
Fixpoint rev_ext (r : list ascii) : option (list ascii * list ascii) :=
  match r with
  | c :: r' =>
      if Ascii.eqb c dot then Some ([c], r')
      else match rev_ext r' with
           | Some (e, rest) => Some (c :: e, rest)
           | None => None
           end
  | [] => None
  end.

(** [path.extname(p)]: from the last dot of the last segment to its end;
    empty when there is no dot, when the dot starts the segment, and for
    the segment [..]. *)
Definition extname (p : string) : string :=
  let base := rev_basename (strip_trailing_slashes (rev (list_ascii_of_string p))) in
  match rev_ext base with
  | Some (e, before) =>
      match before with
      | [] => ""
      | _ =>
          if String.eqb (string_of_list_ascii (rev base)) ".." then ""
          else string_of_list_ascii (rev e)
      end
  | None => ""
  end.

End path.

(** ** CONFIG *)

Module CONFIG.
Definition PORT (w : World) : string := or_string (env_PORT w) "8000".
Definition UPLOAD_DIR (w : World) : string := path.resolve (cwd w) "./public/file".
Definition MAX_FILE_SIZE : Z := 50 * 1024 * 1024.
Definition SHORT_URL_LENGTH : Z := 6.
Definition ALLOW_ALL_TYPES : bool := true.
End CONFIG.

(** ** SQLite: the statements of [DatabaseManager] on the rows of [urls] *)

Module Sql.

(** [WHERE shortCode = ?] (BINARY collation: equality of the bytes). *)
Definition shortCode_is (code : string) (r : UrlRecord) : bool :=
  String.eqb (UrlRecord.shortCode r) code.

(** A number bound to [LIMIT ?] or [OFFSET ?]. The driver binds a number
    as a 32-bit integer when it is one and as a double otherwise; SQLite
    takes a double for an integer when it is one strictly between -2^63
    and 2^63, and fails otherwise. [NaN] is bound as NULL. *)
Definition must_be_int (v : number) : Outcome Z :=
  match v with
  | Int z =>
      if (- 2 ^ 63 <? z) && (z <? 2 ^ 63) then Return z
      else Throw "datatype mismatch"
  | _ => Throw "datatype mismatch"
  end.

(** Sorting: a stable insertion sort; rows between which [leb] does not
    decide stay in the order of the list. *)
Fixpoint insert_by {A} (leb : A -> A -> bool) (x : A) (l : list A) : list A :=
  match l with
  | [] => [x]
  | y :: l' => if leb x y then x :: l else y :: insert_by leb x l'
  end.

Definition order_by {A} (leb : A -> A -> bool) (l : list A) : list A :=
  fold_right (insert_by leb) [] l.

(** [ORDER BY uploadedAt DESC]: [a] may come before [b]. The rows are
    read off the index [idx_uploadedAt] from its end; an index entry is
    the key followed by the rowid, so rows with the same [uploadedAt] come
    with the larger rowid first. *)
Definition uploadedAt_desc (a b : UrlRecord) : bool :=
  if String.eqb (UrlRecord.uploadedAt a) (UrlRecord.uploadedAt b)
  then UrlRecord.id b <=? UrlRecord.id a
  else String.leb (UrlRecord.uploadedAt b) (UrlRecord.uploadedAt a).

(** [ORDER BY accessCount DESC]: no index has this key, the rows of the
    table scan are sorted, and rows with the same count stay in rowid
    order. *)
Definition accessCount_desc (a b : UrlRecord) : bool :=
  UrlRecord.accessCount b <=? UrlRecord.accessCount a.

(** [LIMIT limit OFFSET offset] for integers: a negative limit is no
    limit, a negative offset is no offset. *)
Definition limit_offset {A} (limit offset : Z) (l : list A) : list A :=
  let l' := skipn (Z.to_nat offset) l in
  if limit <? 0 then l' else firstn (Z.to_nat limit) l'.

(** [LIKE] reads both operands as NUL-terminated UTF-8 text. *)
Definition nul : ascii := "000"%char.

Fixpoint c_string (s : list ascii) : list ascii :=
  match s with
  | c :: s' => if Ascii.eqb c nul then [] else c :: c_string s'
  | [] => []
  end.

(** One character is a byte and, when that byte is 0xC0 or above, the
    bytes 0x80 to 0xBF that follow it. [cur] holds the bytes of the
    character that is being read, last byte first. *)
Definition is_lead (c : ascii) : bool := (192 <=? nat_of_ascii c)%nat.
Definition is_continuation (c : ascii) : bool := in_range 128 191 c.

Fixpoint utf8_go (s : list ascii) (cur : list ascii) : list (list ascii) :=
  match s with
  | [] => match cur with [] => [] | _ => [rev cur] end
  | b :: s' =>
      match cur with
      | [] => if is_lead b then utf8_go s' [b] else [b] :: utf8_go s' []
      | _ =>
          if is_continuation b then utf8_go s' (b :: cur)
          else rev cur
               :: (if is_lead b then utf8_go s' [b] else [b] :: utf8_go s' [])
      end
  end.

Definition utf8_chars (s : list ascii) : list (list ascii) := utf8_go s [].

(** The characters of a text value. *)
Definition text (s : string) : list (list ascii) :=
  utf8_chars (c_string (list_ascii_of_string s)).

Definition to_lower (c : ascii) : ascii :=
  if is_upper c then ascii_of_nat (nat_of_ascii c + 32) else c.

Definition percent : ascii := "%"%char.
Definition underscore : ascii := "_"%char.

Fixpoint bytes_eqb (a b : list ascii) : bool :=
  match a, b with
  | [], [] => true
  | x :: a', y :: b' => Ascii.eqb x y && bytes_eqb a' b'
  | _, _ => false
  end.

(** Two characters are the same up to the case of the letters A-Z. *)
Definition same_nocase (p c : list ascii) : bool :=
  bytes_eqb (List.map to_lower p) (List.map to_lower c).

(** [LIKE] on characters: [%] matches any run of characters, [_] any one
    character, every other character itself, letters A-Z and a-z without
    regard to case. *)
Fixpoint like_chars (pattern text : list (list ascii)) : bool :=
  match pattern with
  | [] => match text with [] => true | _ => false end
  | p :: pattern' =>
      if bytes_eqb p [percent] then
        (fix any_suffix (t : list (list ascii)) : bool :=
           like_chars pattern' t
           || match t with
              | [] => false
              | _ :: t' => any_suffix t'
              end) text
      else
        match text with
        | [] => false
        | c :: text' =>
            (bytes_eqb p [underscore] || same_nocase p c)
            && like_chars pattern' text'
        end
  end.

Definition like (value pattern : string) : bool :=
  like_chars (text pattern) (text value).

(** The longest pattern that [LIKE] takes, in bytes. *)
Definition MAX_LIKE_PATTERN_LENGTH : Z := 50000.

(** [SELECT COUNT( * ) as count FROM urls WHERE shortCode = ?] *)
Definition count_where_shortCode (code : string) (d : Database) : Z :=
  Z.of_nat (length (List.filter (shortCode_is code) (rows d))).

(** [SELECT * FROM urls WHERE shortCode = ?], first row *)
Definition select_where_shortCode (code : string) (d : Database) : option UrlRecord :=
  List.find (shortCode_is code) (rows d).

(** The rowid an AUTOINCREMENT key gives to the next row: one more than
    the largest rowid the table ever held. *)
Definition next_rowid (d : Database) : Z :=
  Z.max (seq d) (fold_right Z.max 0 (List.map UrlRecord.id (rows d))) + 1.

(** [INSERT INTO urls (shortCode, filename, originalName, uploadedAt, size,
    mimetype) VALUES (?, ?, ?, ?, ?, ?)]; [shortCode] is UNIQUE,
    [accessCount] is DEFAULT 0 and [lastAccessedAt] is NULL. *)
Definition insert_into_urls (data : NewUrl.t) (d : Database)
  : Outcome unit * Database :=
  if existsb (shortCode_is (NewUrl.shortCode data)) (rows d) then
    (Throw "UNIQUE constraint failed: urls.shortCode", d)
  else
    let r := UrlRecord.mk (next_rowid d) (NewUrl.shortCode data)
               (NewUrl.filename data) (NewUrl.originalName data)
               (NewUrl.uploadedAt data) (NewUrl.size data)
               (NewUrl.mimetype data) 0 None in
    (Return tt, mkDatabase (rows d ++ [r]) (next_rowid d) 1).

(** [SET accessCount = accessCount + 1, lastAccessedAt = ?] on one row *)
Definition touch (now : string) (r : UrlRecord) : UrlRecord :=
  UrlRecord.mk (UrlRecord.id r) (UrlRecord.shortCode r) (UrlRecord.filename r)
    (UrlRecord.originalName r) (UrlRecord.uploadedAt r) (UrlRecord.size r)
    (UrlRecord.mimetype r) (UrlRecord.accessCount r + 1) (Some now).

(** [UPDATE urls SET ... WHERE shortCode = ?] *)
Definition update_access (now code : string) (d : Database) : Database :=
  mkDatabase
    (List.map (fun r => if shortCode_is code r then touch now r else r) (rows d))
    (seq d)
    (count_where_shortCode code d).

(** [DELETE FROM urls WHERE shortCode = ?] *)
Definition delete_where_shortCode (code : string) (d : Database) : Database :=
  mkDatabase
    (List.filter (fun r => negb (shortCode_is code r)) (rows d))
    (seq d)
    (count_where_shortCode code d).

(** [SELECT * FROM urls ORDER BY uploadedAt DESC LIMIT ? OFFSET ?] *)
Definition select_page (limit offset : number) (d : Database)
  : Outcome (list UrlRecord) :=
  match must_be_int limit with
  | Throw e => Throw e
  | Return l =>
      match must_be_int offset with
      | Throw e => Throw e
      | Return o => Return (limit_offset l o (order_by uploadedAt_desc (rows d)))
      end
  end.

(** [SELECT * FROM urls ORDER BY uploadedAt DESC LIMIT ?] *)
Definition select_recent (limit : number) (d : Database)
  : Outcome (list UrlRecord) :=
  match must_be_int limit with
  | Throw e => Throw e
  | Return l => Return (limit_offset l 0 (order_by uploadedAt_desc (rows d)))
  end.

(** [SELECT COUNT( * ) as count FROM urls] *)
Definition count_all (d : Database) : Z := Z.of_nat (length (rows d)).

(** [SELECT * FROM urls WHERE originalName LIKE ? ORDER BY uploadedAt DESC
    LIMIT ?]. The limit is looked at first; [LIKE] is then evaluated row
    by row, none with a limit of zero, and fails on a pattern that is too
    long. *)
Definition select_like (pattern : string) (limit : number) (d : Database)
  : Outcome (list UrlRecord) :=
  match must_be_int limit with
  | Throw e => Throw e
  | Return l =>
      match rows d with
      | [] => Return []
      | _ :: _ =>
          if l =? 0 then Return []
          else if MAX_LIKE_PATTERN_LENGTH <? Z.of_nat (String.length pattern)
          then Throw "LIKE or GLOB pattern too complex"
          else
            Return
              (limit_offset l 0
                 (order_by uploadedAt_desc
                    (List.filter
                       (fun r => like (UrlRecord.originalName r) pattern)
                       (rows d))))
      end
  end.

(** [SELECT * FROM urls WHERE accessCount > 0 ORDER BY accessCount DESC
    LIMIT ?] *)
Definition select_most_accessed (limit : number) (d : Database)
  : Outcome (list UrlRecord) :=
  match must_be_int limit with
  | Throw e => Throw e
  | Return l =>
      Return
        (limit_offset l 0
           (order_by accessCount_desc
              (List.filter (fun r => UrlRecord.accessCount r >? 0) (rows d))))
  end.

(** The aggregates of [getStats]: [SUM] and [AVG] over no rows are NULL.
    [AVG] divides the sum by the count in floating point. *)
Definition sum_Z (l : list Z) : Z := fold_right Z.add 0 l.

(** [2 ^ e] for any integer [e]. *)
Definition pow2 (e : Z) : Q :=
  if 0 <=? e then inject_Z (2 ^ e) else 1 # Z.to_pos (2 ^ (- e)).

(** The largest [b] such that [2 ^ b <= a / d], for [a > 0] and [d > 0]. *)
Definition binade (a d : Z) : Z :=
  let k := Z.log2 a - Z.log2 d in
  if (if 0 <=? k then 2 ^ k * d <=? a else d <=? a * 2 ^ (- k))
  then k else k - 1.

(** The double nearest to [n / d], for integers [n] and [d > 0], as a
    rational: the quotient is rounded to a multiple of [2 ^ (b - 52)],
    where [b] is its binade. Exponents beyond the range of a double are
    not looked at. *)
Definition double_div (n d : Z) : Q :=
  if n =? 0 then 0
  else
    let a := Z.abs n in
    let e := binade a d - 52 in
    let m := if 0 <=? e then round_div a (d * 2 ^ e)
             else round_div (a * 2 ^ (- e)) d in
    inject_Z (Z.sgn n * m) * pow2 e.

Definition SUM (l : list Z) : option Z :=
  match l with
  | [] => None
  | _ => Some (sum_Z l)
  end.

Definition AVG (l : list Z) : option Q :=
  match l with
  | [] => None
  | _ =>
      Some (double_div (round_to_double (sum_Z l))
              (round_to_double (Z.of_nat (length l))))
  end.

End Sql.

(** ** DatabaseManager *)

Module Stats.
Record t : Type := mk {
  totalUrls : Z;
  totalSize : Z;
  totalAccess : Z;
  avgFileSize : Q
}.
End Stats.

Module DatabaseManager.

(** [if (!this.db) throw new Error('Database not initialized')] *)
Definition the_db : M Database :=
  fun w =>
    match db w with
    | Some d => (Return d, w)
    | None => (Throw "Database not initialized", w)
    end.

Definition put_db (d : Database) : M unit :=
  fun w => (Return tt, set_db (Some d) w).

(** The result of a statement: its rows, or the error it raised. *)
Definition result {A} (o : Outcome A) : M A := fun w => (o, w).

(** [this.db.changes]. The class [Database] of [bun:sqlite] is not part of
    the sources. Its documented interface gives the number of changed rows
    in the object that [run] returns and lists no property [changes] on the
    handle; reading a property that an object does not have gives
    [undefined]. [changes_property] says which of the two the runtime
    does: with the property, it reads SQLite's change counter. *)
Definition db_changes : M JsValue :=
  d <- the_db ;;
  w <- ask ;;
  ret (if changes_property w then Number (changes d) else Undefined).

Definition insertUrl (data : NewUrl.t) : M unit :=
  d <- the_db ;;
  match Sql.insert_into_urls data d with
  | (Return _, d') => put_db d'
  | (Throw e, _) => throw e
  end.

Definition getUrlByShortCode (shortCode : string) : M (option UrlRecord) :=
  d <- the_db ;;
  ret (Sql.select_where_shortCode shortCode d).

Definition isShortCodeUsed (shortCode : string) : M bool :=
  d <- the_db ;;
  let count := Sql.count_where_shortCode shortCode d in
  ret (count >? 0).

Definition incrementAccessCount (shortCode : string) : M unit :=
  d <- the_db ;;
  w <- ask ;;
  put_db (Sql.update_access (now_iso w) shortCode d).

Definition getAllUrls (limit offset : number) : M (list UrlRecord) :=
  d <- the_db ;;
  result (Sql.select_page limit offset d).

Definition getTotalCount : M Z :=
  d <- the_db ;;
  ret (Sql.count_all d).

Definition getStats : M Stats.t :=
  d <- the_db ;;
  let totalUrls := Sql.count_all d in
  let totalSize := Sql.SUM (List.map UrlRecord.size (rows d)) in
  let totalAccess := Sql.SUM (List.map UrlRecord.accessCount (rows d)) in
  let avgFileSize := Sql.AVG (List.map UrlRecord.size (rows d)) in
  ret (Stats.mk (or_Z (Some totalUrls) 0) (or_Z totalSize 0)
         (or_Z totalAccess 0) (or_Q avgFileSize 0)).

Definition deleteUrl (shortCode : string) : M bool :=
  d <- the_db ;;
  put_db (Sql.delete_where_shortCode shortCode d) ;;;
  changes <- db_changes ;;
  ret (js_gt changes 0).

Definition searchUrls (query : string) (limit : number) : M (list UrlRecord) :=
  d <- the_db ;;
  result (Sql.select_like ("%" +:+ query +:+ "%") limit d).

Definition getMostAccessedUrls (limit : number) : M (list UrlRecord) :=
  d <- the_db ;;
  result (Sql.select_most_accessed limit d).

Definition getRecentUploads (limit : number) : M (list UrlRecord) :=
  d <- the_db ;;
  result (Sql.select_recent limit d).

End DatabaseManager.

(** ** Short-code generator *)

Definition chars : string :=
  "ABCDEFGHIJKLMNOPQRSTUVWXYZabcdefghijklmnopqrstuvwxyz0123456789".

Definition chars_length : Z := Z.of_nat (String.length chars).

(** The body of [for (let i = 0; i < length; i++)], run [n] more times. *)
Fixpoint generateShortCode_loop (n : nat) (result : string) : M string :=
  match n with
  | O => ret result
  | S n' =>
      r <- Math_random ;;
      generateShortCode_loop n'
        (result +:+ charAt chars (Math_floor (r * inject_Z chars_length)))
  end.

Definition generateShortCode (length : Z) : M string :=
  generateShortCode_loop (Z.to_nat length) "".

Definition maxAttempts : nat := 10.

(** [while (attempts < maxAttempts)], by recursion on the number
    [maxAttempts - attempts] of attempts that are left; the code after the
    loop is the base case. *)
Fixpoint generateUnique_while (remaining : nat) : M string :=
  match remaining with
  | O => generateShortCode (CONFIG.SHORT_URL_LENGTH + 2)
  | S remaining' =>
      code <- generateShortCode CONFIG.SHORT_URL_LENGTH ;;
      isUsed <- DatabaseManager.isShortCodeUsed code ;;
      if negb isUsed then ret code
      else generateUnique_while remaining'
  end.

Definition generateUniqueShortCode : M string :=
  generateUnique_while maxAttempts.

(** ** [formatBytes]

    The arithmetic is exact: [Math.log(bytes) / Math.log(k)] floored is the
    integer logarithm, and [toFixed] rounds the exact quotient. *)

Definition sizes : list string := ["Bytes"; "KB"; "MB"; "GB"; "TB"].

(** [Math.floor(Math.log(x) / Math.log(1024))] for [x > 0]. *)
Definition floor_log1024 (x : Q) : Z :=
  if Qle_bool 1 x then Z.log2 (Qfloor x) / 10
  else - ((Z.log2_up (Qceiling (/ x)) + 9) / 10).

Fixpoint strip_zeros (r : list ascii) : list ascii :=
  match r with
  | c :: r' => if Ascii.eqb c ascii_0 then strip_zeros r' else r
  | [] => []
  end.

(** [parseFloat(x.toFixed(dm))] printed: [x] rounded to [dm] decimals,
    half up, without trailing zeros. *)
Definition toFixed_parseFloat (x : Q) (dm : Z) : string :=
  let scale := 10 ^ dm in
  let n := Qfloor (x * inject_Z scale + (1 # 2)) in
  let whole := Z_to_string (n / scale) in
  let digits := list_ascii_of_string (Z_to_string (n mod scale)) in
  let padded := repeat ascii_0 (Z.to_nat dm - length digits) ++ digits in
  let frac := rev (strip_zeros (rev padded)) in
  match frac with
  | [] => whole
  | _ => whole +:+ "." +:+ string_of_list_ascii frac
  end.

(** [sizes[i]] inside a template: [undefined] out of range. *)
Definition sizes_at (i : Z) : string :=
  if i <? 0 then "undefined" else nth (Z.to_nat i) sizes "undefined".

Definition formatBytes (bytes : Q) (decimals : Z) : string :=
  if Qeq_bool bytes 0 then "0 Bytes"
  else if Qle_bool bytes 0 then "NaN undefined"
  else
    let k := 1024 in
    let dm := if decimals <? 0 then 0 else decimals in
    let i := floor_log1024 bytes in
    toFixed_parseFloat (bytes / Qpower (inject_Z k) i) dm +:+ " " +:+ sizes_at i.

Definition formatBytes_default (bytes : Q) : string := formatBytes bytes 2.

(** ** The file system and [FileManager]

    Only regular files are modelled: a path either names a file with its
    bytes or nothing. *)

Module fs.

Definition access (p : string) : M unit :=
  fun w =>
    match files w !! p with
    | Some _ => (Return tt, w)
    | None => (Throw "ENOENT: no such file or directory", w)
    end.

Definition writeFile (p : string) (data : list Byte.byte) : M unit :=
  fun w =>
    if disk_full w then (Throw "ENOSPC: no space left on device", w)
    else (Return tt, set_files (<[p := data]> (files w)) w).

Definition unlink (p : string) : M unit :=
  fun w =>
    match files w !! p with
    | Some _ => (Return tt, set_files (delete p (files w)) w)
    | None => (Throw "ENOENT: no such file or directory", w)
    end.

End fs.

Module FileManager.

(** [p] is an entry of the directory [dir]. *)
Definition entry_of (dir p : string) : bool :=
  let d := dir +:+ "/" in
  let name := String.substring (String.length d)
                (String.length p - String.length d) p in
  String.prefix d p
  && negb (String.eqb name "")
  && forallb (fun c => negb (Ascii.eqb c path.slash)) (list_ascii_of_string name).

(** [{ fileCount, totalSize }] over the files of the upload directory. *)
Definition getStorageStats : M (Z * Z) :=
  fun w =>
    (Return
       (map_fold
          (fun p data acc =>
             if entry_of (CONFIG.UPLOAD_DIR w) p
             then (fst acc + 1, snd acc + Z.of_nat (length data))
             else acc)
          (0, 0) (files w)),
     w).

End FileManager.

(** ** Requests and responses *)

Module File.
Record t : Type := mk {
  name : string;
  size : Z;
  type : string;
  content : list Byte.byte      (* arrayBuffer() *)
}.
End File.

Inductive FormDataEntryValue : Type :=
| StringValue (s : string)
| FileValue (f : File.t).

Definition FormData : Type := list (string * FormDataEntryValue).

(** [formData.get(name)]: the first value under that name, or null. *)
Definition FormData_get (fd : FormData) (name : string)
  : option FormDataEntryValue :=
  snd <$> List.find (fun e => String.eqb (fst e) name) fd.

Module Request.
Record t : Type := mk {
  formData : option FormData;          (* None: the body is no form data *)
  x_forwarded_proto : option string;
  host : option string
}.
End Request.

Module Query.
Record t : Type := mk {
  limit : option string;
  offset : option string;
  q : option string
}.
End Query.

Module UploadData.
Record t : Type := mk {
  shortCode : string;
  shortUrl : string;
  directUrl : string;
  filename : string;
  size : Z;
  sizeFormatted : string;
  mimetype : string
}.
End UploadData.

Module Pagination.
Record t : Type := mk {
  limit : number;
  offset : number;
  total : Z;
  hasMore : bool
}.
End Pagination.

Module StatsData.
Record t : Type := mk {
  totalUrls : Z;
  totalAccess : Z;
  avgFileSize : string;
  fileCount : Z;
  totalSize : string;
  totalSizeBytes : Z;
  maxFileSize : string;
  allowAllTypes : bool;
  shortUrlLength : Z
}.
End StatsData.

(** What a handler returns: an error object [{status: false, message,
    error}], a [Bun.file(filePath)], or one of the success objects. *)
Inductive Body : Type :=
| Failure (message error : string)
| BunFile (filePath : string)
| Uploaded (data : UploadData.t) (uploadedAt : string)
| Page (data : list UrlRecord) (pagination : Pagination.t)
| Listing (data : list UrlRecord)
| SearchResult (data : list UrlRecord) (query : string)
| Deleted (shortCode originalName : string)
| Statistics (data : StatsData.t) (timestamp : string).

(** The body with [set.status], which is 200 unless the handler sets it. *)
Record Response : Type := mkResponse {
  status : Z;
  body : Body
}.

(** The bytes sent for a response: those of the file a [Bun.file] names. *)
Definition served (r : Response) (w : World) : option (list Byte.byte) :=
  match body r with
  | BunFile filePath => files w !! filePath
  | _ => None
  end.

(** ** Handlers *)

(** [POST /upload] *)
Definition POST_upload (request : Request.t) : M Response :=
  try_catch
    (formData <- match Request.formData request with
                 | Some fd => ret fd
                 | None => throw "Can't decode form data from body"
                 end ;;
     match FormData_get formData "file" with
     | Some (FileValue file) =>
         if File.size file >? CONFIG.MAX_FILE_SIZE then
           ret (mkResponse 413
                  (Failure
                     ("File too large. Maximum size is "
                      +:+ formatBytes_default (inject_Z CONFIG.MAX_FILE_SIZE))
                     "FILE_TOO_LARGE"))
         else
           shortCode <- generateUniqueShortCode ;;
           w <- ask ;;
           let timestamp := now_ms w in
           let ext := path.extname (File.name file) in
           let filename := Z_to_string timestamp +:+ "-" +:+ shortCode +:+ ext in
           let filePath := path.join (CONFIG.UPLOAD_DIR w) filename in
           fs.writeFile filePath (File.content file) ;;;
           DatabaseManager.insertUrl
             (NewUrl.mk shortCode filename (File.name file) (now_iso w)
                (File.size file)
                (or_string (Some (File.type file)) "application/octet-stream")) ;;;
           let protocol := or_string (Request.x_forwarded_proto request) "http" in
           let host := or_string (Request.host request)
                         ("localhost:" +:+ CONFIG.PORT w) in
           let shortUrl := protocol +:+ "://" +:+ host +:+ "/" +:+ shortCode in
           let directUrl := protocol +:+ "://" +:+ host +:+ "/file/" +:+ filename in
           ret (mkResponse 201
                  (Uploaded
                     (UploadData.mk shortCode shortUrl directUrl (File.name file)
                        (File.size file)
                        (formatBytes_default (inject_Z (File.size file)))
                        (or_string (Some (File.type file))
                           "application/octet-stream"))
                     (now_iso w)))
     | _ =>
         ret (mkResponse 400 (Failure "No file uploaded" "MISSING_FILE"))
     end)
    (fun message => ret (mkResponse 500 (Failure "Upload failed" message))).

(** [GET /:shortCode] *)
Definition GET_shortCode (shortCode : string) : M Response :=
  try_catch
    (if negb (shortCode_regex_test shortCode) then
       ret (mkResponse 404
              (Failure "Invalid short code format" "INVALID_SHORT_CODE"))
     else
       urlRecord <- DatabaseManager.getUrlByShortCode shortCode ;;
       match urlRecord with
       | None =>
           ret (mkResponse 404 (Failure "Short URL not found" "NOT_FOUND"))
       | Some urlRecord =>
           w <- ask ;;
           let filePath :=
             path.join (CONFIG.UPLOAD_DIR w) (UrlRecord.filename urlRecord) in
           found <- try_catch (fs.access filePath ;;; ret true)
                      (fun _ => ret false) ;;
           if negb found then
             ret (mkResponse 404 (Failure "File not found" "FILE_NOT_FOUND"))
           else
             DatabaseManager.incrementAccessCount shortCode ;;;
             ret (mkResponse 200 (BunFile filePath))
       end)
    (fun message =>
       ret (mkResponse 500 (Failure "Internal server error" message))).

(** [GET /file/:filename] *)
Definition GET_file (filename : string) : M Response :=
  try_catch
    (w <- ask ;;
     let filePath := path.join (CONFIG.UPLOAD_DIR w) filename in
     found <- try_catch (fs.access filePath ;;; ret true)
                (fun _ => ret false) ;;
     if negb found then
       ret (mkResponse 404 (Failure "File not found" "FILE_NOT_FOUND"))
     else ret (mkResponse 200 (BunFile filePath)))
    (fun message =>
       ret (mkResponse 500 (Failure "Internal server error" message))).

(** [GET /urls] *)
Definition GET_urls (query : Query.t) : M Response :=
  let limit := or_number (parseInt (Query.limit query)) 100 in
  let offset := or_number (parseInt (Query.offset query)) 0 in
  urls <- DatabaseManager.getAllUrls limit offset ;;
  total <- DatabaseManager.getTotalCount ;;
  ret (mkResponse 200
         (Page urls
            (Pagination.mk limit offset total
               (number_lt (number_add offset limit) total)))).

(** [GET /urls/recent] *)
Definition GET_urls_recent (query : Query.t) : M Response :=
  let limit := or_number (parseInt (Query.limit query)) 10 in
  urls <- DatabaseManager.getRecentUploads limit ;;
  ret (mkResponse 200 (Listing urls)).

(** [GET /urls/popular] *)
Definition GET_urls_popular (query : Query.t) : M Response :=
  let limit := or_number (parseInt (Query.limit query)) 10 in
  urls <- DatabaseManager.getMostAccessedUrls limit ;;
  ret (mkResponse 200 (Listing urls)).

(** [GET /urls/search]; [searchUrls] is called with its default limit. *)
Definition GET_urls_search (query : Query.t) : M Response :=
  let searchQuery := or_string (Query.q query) "" in
  if String.eqb searchQuery "" then
    ret (mkResponse 400 (Failure "Search query is required" "MISSING_QUERY"))
  else
    urls <- DatabaseManager.searchUrls searchQuery (Int 50) ;;
    ret (mkResponse 200 (SearchResult urls searchQuery)).

(** [DELETE /urls/:shortCode]; the unlink is not awaited and its failure is
    ignored. *)
Definition DELETE_urls (shortCode : string) : M Response :=
  try_catch
    (urlRecord <- DatabaseManager.getUrlByShortCode shortCode ;;
     match urlRecord with
     | None =>
         ret (mkResponse 404 (Failure "Short URL not found" "NOT_FOUND"))
     | Some urlRecord =>
         deleted <- DatabaseManager.deleteUrl shortCode ;;
         if negb deleted then
           ret (mkResponse 500 (Failure "Failed to delete URL" "DELETE_FAILED"))
         else
           w <- ask ;;
           let filePath :=
             path.join (CONFIG.UPLOAD_DIR w) (UrlRecord.filename urlRecord) in
           try_catch (fs.unlink filePath) (fun _ => ret tt) ;;;
           ret (mkResponse 200
                  (Deleted shortCode (UrlRecord.originalName urlRecord)))
     end)
    (fun message => ret (mkResponse 500 (Failure "Delete failed" message))).

(** [GET /stats] *)
Definition GET_stats : M Response :=
  storageStats <- FileManager.getStorageStats ;;
  dbStats <- DatabaseManager.getStats ;;
  w <- ask ;;
  ret (mkResponse 200
         (Statistics
            (StatsData.mk (Stats.totalUrls dbStats) (Stats.totalAccess dbStats)
               (formatBytes_default (Stats.avgFileSize dbStats))
               (fst storageStats)
               (formatBytes_default (inject_Z (snd storageStats)))
               (snd storageStats)
               (formatBytes_default (inject_Z CONFIG.MAX_FILE_SIZE))
               CONFIG.ALLOW_ALL_TYPES CONFIG.SHORT_URL_LENGTH)
            (now_iso w))).

(** ** The store as a transition system

    The methods of [DatabaseManager], and the stores that calls to them can
    produce from the empty table that [init] creates. *)

Inductive Call : Type :=
| InsertUrl (data : NewUrl.t)
| GetUrlByShortCode (shortCode : string)
| IsShortCodeUsed (shortCode : string)
| IncrementAccessCount (shortCode : string)
| GetAllUrls (limit offset : number)
| GetTotalCount
| GetStats
| DeleteUrl (shortCode : string)
| SearchUrls (query : string) (limit : number)
| GetMostAccessedUrls (limit : number)
| GetRecentUploads (limit : number).

Definition discard {A} (m : M A) : M unit := m ;;; ret tt.

Definition run_call (c : Call) : M unit :=
  match c with
  | InsertUrl data => DatabaseManager.insertUrl data
  | GetUrlByShortCode code => discard (DatabaseManager.getUrlByShortCode code)
  | IsShortCodeUsed code => discard (DatabaseManager.isShortCodeUsed code)
  | IncrementAccessCount code => DatabaseManager.incrementAccessCount code
  | GetAllUrls limit offset => discard (DatabaseManager.getAllUrls limit offset)
  | GetTotalCount => discard DatabaseManager.getTotalCount
  | GetStats => discard DatabaseManager.getStats
  | DeleteUrl code => discard (DatabaseManager.deleteUrl code)
  | SearchUrls query limit => discard (DatabaseManager.searchUrls query limit)
  | GetMostAccessedUrls limit => discard (DatabaseManager.getMostAccessedUrls limit)
  | GetRecentUploads limit => discard (DatabaseManager.getRecentUploads limit)
  end.

(** The table right after [CREATE TABLE]. *)
Definition empty_urls : Database := mkDatabase [] 0 0.

(** Stores reachable by method calls; between calls anything but the store
    may change (time passes, files come and go). *)
Inductive reachable : World -> Prop :=
| reachable_init w :
    db w = Some empty_urls -> reachable w
| reachable_call w c :
    reachable w -> reachable (snd (run_call c w))
| reachable_env w w' :
    reachable w -> db w' = db w -> reachable w'.

(** ** Vocabulary of the statements *)

(** Every value [Math.random()] returns lies in [[0, 1)]. *)
Definition random_in_unit (w : World) : Prop :=
  forall i : nat, (0 <= random w i)%Q /\ (random w i < 1)%Q.

(** The character picked from a random number. *)
Definition pick (r : Q) : string :=
  charAt chars (Math_floor (r * inject_Z chars_length)).

(** The string made from the [n] random numbers at positions [start],
    [start + 1], ... *)
Fixpoint code_from (rnd : nat -> Q) (start n : nat) : string :=
  match n with
  | O => ""
  | S n' => pick (rnd start) +:+ code_from rnd (S start) n'
  end.

(** The code that the [k]-th call [generateShortCode()] of one run of
    [generateUniqueShortCode] draws, counting from 0. *)
Definition nth_draw (w : World) (k : nat) : string :=
  code_from (random w) (drawn w + 6 * k) 6.

(** The answer of the existence check for [code] in the world [w]. *)
Definition check_says (w : World) (code : string) (answer : bool) : Prop :=
  fst (DatabaseManager.isShortCodeUsed code w) = Return answer.

(** Some record of the store has the short code [code]. *)
Definition in_store (d : Database) (code : string) : Prop :=
  exists r, In r (rows d) /\ UrlRecord.shortCode r = code.

(** ** Sample data *)

Definition sample_record (id : Z) (code name uploadedAt : string) (count : Z)
  : UrlRecord :=
  UrlRecord.mk id code ("1700000000000-" +:+ code +:+ ".txt") name uploadedAt
    12 "text/plain" count None.

Definition sample_bytes : list Byte.byte := [Byte.x68; Byte.x69].

(** A server in [/srv/app] whose random numbers are [0, 0, 0, 0, 0, 0] and
    then [1/62] for ever: the first code drawn is [AAAAAA], all later
    characters are [B]. *)
Definition sample_world (d : option Database)
    (fs : gmap string (list Byte.byte)) : World :=
  mkWorld d fs false (fun i => if (i <? 6)%nat then 0%Q else (1 # 62)%Q) 0
    1700000000000 "2023-11-14T22:13:20.000Z" "/srv/app" None false.

(** The same server when every random number is [0]: every character
    drawn is [A]. *)
Definition stuck_world (d : option Database)
    (fs : gmap string (list Byte.byte)) : World :=
  mkWorld d fs false (fun _ => 0%Q) 0
    1700000000000 "2023-11-14T22:13:20.000Z" "/srv/app" None false.

Definition one_row : Database :=
  mkDatabase [sample_record 1 "AAAAAA" "notes.txt" "2023-11-14T22:13:20.000Z" 0] 1 1.

Definition one_file : gmap string (list Byte.byte) :=
  {[ "/srv/app/public/file/1700000000000-AAAAAA.txt" := sample_bytes ]}.

(** ** More vocabulary *)

(** The UNIQUE constraint on [shortCode] holds in the table. *)
Definition shortCode_unique (d : Database) : Prop :=
  List.NoDup (List.map UrlRecord.shortCode (rows d)).

(** Where the handlers look for the file of a record. *)
Definition file_path_of (w : World) (r : UrlRecord) : string :=
  path.join (CONFIG.UPLOAD_DIR w) (UrlRecord.filename r).

(** [p] lies inside the directory [dir]. *)
Definition inside (dir p : string) : bool := String.prefix (dir +:+ "/") p.

(** All fields that no statement ever assigns agree. *)
Definition same_immutable_fields (a b : UrlRecord) : Prop :=
  UrlRecord.id a = UrlRecord.id b
  /\ UrlRecord.shortCode a = UrlRecord.shortCode b
  /\ UrlRecord.filename a = UrlRecord.filename b
  /\ UrlRecord.originalName a = UrlRecord.originalName b
  /\ UrlRecord.uploadedAt a = UrlRecord.uploadedAt b
  /\ UrlRecord.size a = UrlRecord.size b
  /\ UrlRecord.mimetype a = UrlRecord.mimetype b.

(** The database file next to the upload directory, and a world in which
    it exists. *)
Definition database_file : gmap string (list Byte.byte) :=
  {[ "/srv/app/data/urls.db" := sample_bytes ]}.

(** ** Substring search, in the words of the specification *)

(** The characters [query] are a prefix of the characters [text], letters
    compared without regard to case. *)
Fixpoint prefix_nocase (query text : list (list ascii)) : bool :=
  match query, text with
  | [], _ => true
  | _ :: _, [] => false
  | c :: query', d :: text' =>
      Sql.same_nocase c d && prefix_nocase query' text'
  end.

Fixpoint contains_nocase_chars (query text : list (list ascii)) : bool :=
  prefix_nocase query text
  || match text with
     | [] => false
     | _ :: text' => contains_nocase_chars query text'
     end.

(** [name] contains [query] as a substring, case-insensitively: the
    characters of the query are consecutive characters of the name. Both
    are read as SQLite reads a text, up to a NUL character if there is
    one. *)
Definition contains_nocase (name query : string) : bool :=
  contains_nocase_chars (Sql.text query) (Sql.text name).


(** In a listing by upload time, [a] may stand before [b]: [b] was not
    uploaded later, and when both have the same [uploadedAt], [b] does not
    have the larger id. *)
Definition newest_first (a b : UrlRecord) : Prop :=
  String.leb (UrlRecord.uploadedAt b) (UrlRecord.uploadedAt a) = true
  /\ (UrlRecord.uploadedAt a = UrlRecord.uploadedAt b ->
      UrlRecord.id b <= UrlRecord.id a).



(** ** Store invariants *)

(** What a call does to the rows, when the clock reads [now]. *)
Definition effect (c : Call) (now : string) (d : Database) : Database :=
  match c with
  | InsertUrl data => snd (Sql.insert_into_urls data d)
  | IncrementAccessCount code => Sql.update_access now code d
  | DeleteUrl code => Sql.delete_where_shortCode code d
  | _ => d
  end.

(** Row ids and short codes are unique, no access count is negative, and
    no id exceeds the AUTOINCREMENT mark. *)
Definition store_ok (d : Database) : Prop :=
  List.NoDup (List.map UrlRecord.id (rows d))
  /\ shortCode_unique d
  /\ Forall (fun r => 0 <= UrlRecord.accessCount r) (rows d)
  /\ Forall (fun r => UrlRecord.id r <= seq d) (rows d).

(** The worlds that method calls, and changes outside the store, lead to. *)
Inductive later (w : World) : World -> Prop :=
| later_now : later w w
| later_call w' c : later w w' -> later w (snd (run_call c w'))
| later_env w' w'' : later w w' -> db w'' = db w' -> later w w''.

(** ** Uploads: the names and the row an upload produces *)

Definition upload_filename (w : World) (file : File.t) (code : string) : string :=
  Z_to_string (now_ms w) +:+ "-" +:+ code +:+ path.extname (File.name file).

Definition upload_path (w : World) (file : File.t) (code : string) : string :=
  path.join (CONFIG.UPLOAD_DIR w) (upload_filename w file code).

Definition upload_row (w : World) (d : Database) (file : File.t) (code : string)
  : UrlRecord :=
  UrlRecord.mk (Sql.next_rowid d) code (upload_filename w file code)
    (File.name file) (now_iso w) (File.size file)
    (or_string (Some (File.type file)) "application/octet-stream") 0 None.

Definition sample_file : File.t :=
  File.mk "notes.txt" 2 "text/plain" sample_bytes.

Definition sample_request : Request.t :=
  Request.mk (Some [("file", FileValue sample_file)]) None (Some "example.org").

(** A store that holds the code [AAAAAA] and the longer [AAAAAAAA]. *)
Definition two_rows : Database :=
  mkDatabase
    [sample_record 1 "AAAAAA" "notes.txt" "2023-11-14T22:13:20.000Z" 0;
     sample_record 2 "AAAAAAAA" "more.txt" "2023-11-14T22:13:21.000Z" 0]
    2 1.

Definition upload_data (w : World) (request : Request.t) (file : File.t)
    (code : string) : UploadData.t :=
  let protocol := or_string (Request.x_forwarded_proto request) "http" in
  let host := or_string (Request.host request) ("localhost:" +:+ CONFIG.PORT w) in
  UploadData.mk code
    (protocol +:+ "://" +:+ host +:+ "/" +:+ code)
    (protocol +:+ "://" +:+ host +:+ "/file/" +:+ upload_filename w file code)
    (File.name file) (File.size file)
    (formatBytes_default (inject_Z (File.size file)))
    (or_string (Some (File.type file)) "application/octet-stream").

(** ** Plain file names *)

Definition no_slash (s : list ascii) : bool :=
  forallb (fun c => negb (Ascii.eqb c path.slash)) s.

(** A name that is one path segment: not empty, not [.] or [..], and
    without a separator. *)
Definition plain_name (s : string) : bool :=
  negb (String.eqb s "") && negb (String.eqb s ".") && negb (String.eqb s "..")
  && no_slash (list_ascii_of_string s).

(** ** Repetition *)

(** The computation [m] run [n] times in a row. *)
Fixpoint times {A} (n : nat) (m : M A) : M unit :=
  match n with
  | O => ret tt
  | S n' => m ;;; times n' m
  end.

(* ================================================================== *)
(** * Properties *)
(* ================================================================== *)

(** ** The monad *)

Lemma set_drawn_set_drawn (a b : nat) (w : World) :
  set_drawn a (set_drawn b w) = set_drawn a w.
Proof. reflexivity. Qed.

Lemma set_drawn_same (w : World) : set_drawn (drawn w) w = w.
Proof. destruct w; reflexivity. Qed.

Lemma string_app_cons (x : ascii) (a b : string) :
  String x a +:+ b = String x (a +:+ b).
Proof. reflexivity. Qed.

Lemma string_app_nil_l (a : string) : "" +:+ a = a.
Proof. reflexivity. Qed.

Lemma string_app_assoc (a b c : string) : (a +:+ b) +:+ c = a +:+ (b +:+ c).
Proof.
  induction a as [|x a' IH]; [reflexivity|].
  rewrite !string_app_cons. now f_equal.
Qed.

Lemma string_app_nil_r (a : string) : a +:+ "" = a.
Proof.
  induction a as [|x a' IH]; [reflexivity|].
  rewrite string_app_cons. now f_equal.
Qed.

Lemma string_length_app (a b : string) :
  String.length (a +:+ b) = (String.length a + String.length b)%nat.
Proof.
  induction a as [|x a' IH]; [reflexivity|].
  rewrite string_app_cons. simpl. now f_equal.
Qed.

Lemma list_ascii_of_string_app (a b : string) :
  list_ascii_of_string (a +:+ b)
  = list_ascii_of_string a ++ list_ascii_of_string b.
Proof.
  induction a as [|x a' IH]; [reflexivity|].
  rewrite string_app_cons. simpl. now f_equal.
Qed.

(** ** The generator *)

Lemma random_index (r : Q) :
  (0 <= r)%Q -> (r < 1)%Q ->
  0 <= Math_floor (r * inject_Z chars_length) < 62.
Proof.
  intros H0 H1. unfold Math_floor.
  change (inject_Z chars_length) with (inject_Z 62).
  split.
  - change 0 with (Qfloor (inject_Z 0)). apply Qfloor_resp_le.
    apply Qmult_le_0_compat; [exact H0 | discriminate].
  - rewrite Zlt_Qlt.
    apply Qle_lt_trans with (r * inject_Z 62)%Q; [apply Qfloor_le |].
    apply Qlt_le_trans with (1 * inject_Z 62)%Q.
    + apply Qmult_lt_compat_r; [reflexivity | exact H1].
    + discriminate.
Qed.

Lemma chars_get (i : nat) :
  (i < 62)%nat ->
  exists c, String.get i chars = Some c /\ is_alnum c = true.
Proof.
  intros Hi.
  do 62 (destruct i as [|i]; [eexists; split; reflexivity |]).
  lia.
Qed.

Lemma pick_one_alnum (r : Q) :
  (0 <= r)%Q -> (r < 1)%Q ->
  exists c, pick r = String c "" /\ is_alnum c = true.
Proof.
  intros H0 H1. unfold pick, charAt.
  destruct (random_index r H0 H1) as [Hlo Hhi].
  destruct (Z.ltb_spec (Math_floor (r * inject_Z chars_length)) 0) as [?|_]; [lia|].
  destruct (chars_get (Z.to_nat (Math_floor (r * inject_Z chars_length))))
    as (c & -> & Hc); [lia|].
  exists c. split; [reflexivity | exact Hc].
Qed.

Lemma code_from_shape (rnd : nat -> Q) (start n : nat) :
  (forall i, (0 <= rnd i)%Q /\ (rnd i < 1)%Q) ->
  String.length (code_from rnd start n) = n
  /\ forallb is_alnum (list_ascii_of_string (code_from rnd start n)) = true.
Proof.
  intros Hr. revert start. induction n as [|n IH]; intros start; simpl.
  - split; reflexivity.
  - destruct (Hr start) as [H0 H1].
    destruct (pick_one_alnum _ H0 H1) as (c & -> & Hc).
    destruct (IH (S start)) as [Hl Ha].
    rewrite string_app_cons, string_app_nil_l. simpl.
    rewrite Hl, Hc, Ha. split; reflexivity.
Qed.

Lemma generateShortCode_loop_eq (n : nat) (result : string) (w : World) :
  generateShortCode_loop n result w
  = (Return (result +:+ code_from (random w) (drawn w) n),
     set_drawn (drawn w + n) w).
Proof.
  revert result w. induction n as [|n IH]; intros result w; simpl.
  - unfold ret. rewrite string_app_nil_r, Nat.add_0_r, set_drawn_same.
    reflexivity.
  - unfold bind at 1, Math_random. rewrite IH. simpl.
    fold (pick (random w (drawn w))). rewrite string_app_assoc.
    rewrite <- Nat.add_succ_comm. reflexivity.
Qed.

Lemma generateShortCode_eq (len : nat) (w : World) :
  generateShortCode (Z.of_nat len) w
  = (Return (code_from (random w) (drawn w) len), set_drawn (drawn w + len) w).
Proof.
  unfold generateShortCode. rewrite Nat2Z.id. apply generateShortCode_loop_eq.
Qed.

Lemma isShortCodeUsed_eq (code : string) (w : World) (d : Database) :
  db w = Some d ->
  DatabaseManager.isShortCodeUsed code w
  = (Return (Sql.count_where_shortCode code d >? 0), w).
Proof.
  intros Hd. unfold DatabaseManager.isShortCodeUsed, bind, DatabaseManager.the_db.
  rewrite Hd. reflexivity.
Qed.

Lemma check_says_drawn (w : World) (n : nat) (code : string) (b : bool) :
  check_says (set_drawn n w) code b <-> check_says w code b.
Proof.
  unfold check_says, DatabaseManager.isShortCodeUsed, bind, DatabaseManager.the_db.
  simpl. destruct (db w); simpl; tauto.
Qed.

Lemma generateUnique_while_spec (remaining : nat) (w : World) (d : Database) :
  db w = Some d -> random_in_unit w ->
  exists code n,
    generateUnique_while remaining w = (Return code, set_drawn (drawn w + n) w)
    /\ ((exists k, (k < remaining)%nat
           /\ n = (6 * (k + 1))%nat
           /\ code = nth_draw w k
           /\ (forall j, (j < k)%nat -> check_says w (nth_draw w j) true)
           /\ check_says w code false)
        \/ (n = (6 * remaining + 8)%nat
            /\ code = code_from (random w) (drawn w + 6 * remaining) 8
            /\ (forall j, (j < remaining)%nat -> check_says w (nth_draw w j) true))).
Proof.
  revert w. induction remaining as [|rem IH]; intros w Hd Hr.
  - simpl. change (CONFIG.SHORT_URL_LENGTH + 2) with (Z.of_nat 8).
    rewrite generateShortCode_eq.
    eexists _, 8%nat. split; [reflexivity|]. right.
    rewrite Nat.add_0_r. split; [reflexivity|]. split; [reflexivity|]. lia.
  - simpl. unfold bind at 1.
    change CONFIG.SHORT_URL_LENGTH with (Z.of_nat 6).
    rewrite generateShortCode_eq. unfold bind at 1.
    rewrite (isShortCodeUsed_eq _ _ d) by exact Hd.
    set (c0 := code_from (random w) (drawn w) 6).
    assert (Hc0 : c0 = nth_draw w 0).
    { unfold nth_draw. rewrite Nat.mul_0_r, Nat.add_0_r. reflexivity. }
    destruct (Sql.count_where_shortCode c0 d >? 0) eqn:Hused; simpl.
    + destruct (IH (set_drawn (drawn w + 6) w)) as (code & n & Heq & Hcase);
        [exact Hd | exact Hr |].
      exists code, (6 + n)%nat. split.
      { rewrite Heq. unfold set_drawn. simpl. do 2 f_equal. lia. }
      assert (Hshift : forall j, nth_draw (set_drawn (drawn w + 6) w) j
                                 = nth_draw w (S j)).
      { intros j. unfold nth_draw.
        replace (drawn (set_drawn (drawn w + 6) w) + 6 * j)%nat
          with (drawn w + 6 * S j)%nat by (unfold set_drawn; simpl; lia).
        reflexivity. }
      assert (Hpre : forall j,
                (forall i, (i < j)%nat ->
                   check_says w (nth_draw w (S i)) true) ->
                forall i, (i < S j)%nat -> check_says w (nth_draw w i) true).
      { intros j Hall [|i] Hi.
        - rewrite <- Hc0. unfold check_says.
          rewrite (isShortCodeUsed_eq _ _ d) by exact Hd. simpl. now rewrite Hused.
        - apply Hall. lia. }
      destruct Hcase as [(k & Hk & -> & -> & Hbefore & Hfree)
                        | (-> & -> & Hall)].
      * left. exists (S k). split; [lia|]. split; [lia|].
        split; [apply Hshift|]. split.
        -- apply (Hpre k). intros i Hi.
           rewrite <- Hshift. apply (check_says_drawn w (drawn w + 6)).
           apply Hbefore. exact Hi.
        -- apply (check_says_drawn w (drawn w + 6)). exact Hfree.
      * right. split; [lia|]. split.
        -- replace (drawn (set_drawn (drawn w + 6) w) + 6 * rem)%nat
             with (drawn w + 6 * S rem)%nat by (unfold set_drawn; simpl; lia).
           reflexivity.
        -- apply (Hpre rem). intros i Hi.
           rewrite <- Hshift. apply (check_says_drawn w (drawn w + 6)).
           apply Hall. exact Hi.
    + exists c0, 6%nat. split; [reflexivity|]. left.
      exists 0%nat. split; [lia|]. split; [reflexivity|]. split; [exact Hc0|].
      split; [intros j Hj; lia|].
      unfold check_says. rewrite (isShortCodeUsed_eq _ _ d) by exact Hd.
      simpl. now rewrite Hused.
Qed.

Lemma check_says_functional (w : World) (code : string) (a b : bool) :
  check_says w code a -> check_says w code b -> a = b.
Proof. unfold check_says. intros Ha Hb. rewrite Ha in Hb. congruence. Qed.

Lemma count_positive_iff (code : string) (d : Database) :
  (Sql.count_where_shortCode code d >? 0) = true
  <-> exists r, In r (rows d) /\ UrlRecord.shortCode r = code.
Proof.
  unfold Sql.count_where_shortCode. rewrite Z.gtb_lt. split.
  - intros H.
    destruct (List.filter (Sql.shortCode_is code) (rows d)) as [|r l] eqn:Hf;
      [simpl in H; lia|].
    assert (Hr : In r (List.filter (Sql.shortCode_is code) (rows d)))
      by (rewrite Hf; now left).
    apply List.filter_In in Hr. destruct Hr as [Hin Hc].
    exists r. split; [exact Hin | now apply String.eqb_eq].
  - intros (r & Hin & Hc).
    assert (Hr : In r (List.filter (Sql.shortCode_is code) (rows d))).
    { apply List.filter_In. split; [exact Hin | now apply String.eqb_eq]. }
    destruct (List.filter (Sql.shortCode_is code) (rows d)); [destruct Hr|].
    simpl. lia.
Qed.

Lemma check_says_in_store (w : World) (d : Database) (code : string)
    (answer : bool) :
  db w = Some d ->
  check_says w code answer <-> (answer = true <-> in_store d code).
Proof.
  intros Hd. unfold check_says, in_store.
  rewrite (isShortCodeUsed_eq code w d Hd). cbn [fst].
  pose proof (count_positive_iff code d) as Hc.
  destruct (Sql.count_where_shortCode code d >? 0); destruct answer; split.
  - intros _. split; [intros _; now apply Hc | reflexivity].
  - reflexivity.
  - discriminate.
  - intros [_ H]. exfalso. assert (true = true) as Ht by reflexivity.
    apply Hc in Ht. specialize (H Ht). discriminate.
  - discriminate.
  - intros [H _]. specialize (H eq_refl). apply Hc in H. discriminate.
  - intros _. split; [discriminate|]. intros H. apply Hc in H. discriminate.
  - reflexivity.
Qed.

(** C1. The existence check answers "present" exactly for the codes that
    a record of the store has. [generateUniqueShortCode] draws 6-character
    codes and checks each one right after drawing it; it returns the first
    draw that is absent from the store, within 10 attempts, all earlier
    draws being in the store; it never returns a draw that it found in the
    store; when all 10 draws are in the store it returns one further,
    8-character code that it does not check. The store and the files are
    left as they were. *)
Theorem generateUniqueShortCode_first_absent_or_fallback
    (w : World) (d : Database) :
  db w = Some d -> random_in_unit w ->
  (forall code answer,
     check_says w code answer <-> (answer = true <-> in_store d code))
  /\ exists code n,
       generateUniqueShortCode w = (Return code, set_drawn (drawn w + n) w)
       /\ ((exists k, (k < 10)%nat
              /\ n = (6 * (k + 1))%nat
              /\ code = nth_draw w k
              /\ String.length code = 6%nat
              /\ (forall j, (j < k)%nat -> in_store d (nth_draw w j))
              /\ ~ in_store d code)
           \/ (n = 68%nat
               /\ code = code_from (random w) (drawn w + 60) 8
               /\ String.length code = 8%nat
               /\ (forall j, (j < 10)%nat -> in_store d (nth_draw w j))))
       /\ (forall j, (j < 10)%nat -> (6 * j < n)%nat ->
             String.length (nth_draw w j) = 6%nat
             /\ (in_store d (nth_draw w j) -> code <> nth_draw w j)).
Proof.
  intros Hd Hr.
  assert (Hcheck : forall code answer,
            check_says w code answer <-> (answer = true <-> in_store d code))
    by (intros code answer; now apply check_says_in_store).
  split; [exact Hcheck|].
  assert (Hyes : forall c, check_says w c true -> in_store d c).
  { intros c Hc. now apply (Hcheck c true). }
  assert (Hno : forall c, check_says w c false -> ~ in_store d c).
  { intros c Hc Hin. apply (Hcheck c false) in Hc.
    destruct Hc as [_ Hc]. specialize (Hc Hin). discriminate. }
  destruct (generateUnique_while_spec maxAttempts w d Hd Hr)
    as (code & n & Heq & Hcase).
  assert (Hlen : forall s m, String.length (code_from (random w) s m) = m).
  { intros s m. apply code_from_shape. exact Hr. }
  exists code, n. split; [exact Heq|].
  destruct Hcase as [(k & Hk & -> & -> & Hbefore & Hfree) | (-> & -> & Hall)].
  - split.
    + left. exists k. unfold maxAttempts in Hk.
      split; [exact Hk|]. split; [reflexivity|]. split; [reflexivity|].
      split; [apply Hlen|]. split; [|now apply Hno].
      intros j Hj. apply Hyes, Hbefore, Hj.
    + intros j _ _. split; [apply Hlen|].
      intros Hused Heqc. apply (Hno _ Hfree). rewrite Heqc. exact Hused.
  - split.
    + right. split; [reflexivity|]. split; [reflexivity|].
      split; [apply Hlen|]. intros j Hj. apply Hyes, Hall, Hj.
    + intros j _ _. split; [apply Hlen|].
      intros _ Heqc. apply (f_equal String.length) in Heqc.
      unfold nth_draw in Heqc. rewrite !Hlen in Heqc. discriminate.
Qed.

Lemma sample_world_random_in_unit d fs : random_in_unit (sample_world d fs).
Proof.
  intros i. simpl. destruct (i <? 6)%nat; split; try discriminate; reflexivity.
Qed.

Lemma stuck_world_random_in_unit d fs : random_in_unit (stuck_world d fs).
Proof. intros i. simpl. split; [discriminate | reflexivity]. Qed.

Lemma generateUniqueShortCode_witness :
  exists code n,
    generateUniqueShortCode (sample_world (Some one_row) one_file)
    = (Return code,
       set_drawn (drawn (sample_world (Some one_row) one_file) + n)
         (sample_world (Some one_row) one_file))
    /\ ((exists k, (k < 10)%nat
           /\ n = (6 * (k + 1))%nat
           /\ code = nth_draw (sample_world (Some one_row) one_file) k
           /\ String.length code = 6%nat
           /\ (forall j, (j < k)%nat ->
                 in_store one_row
                   (nth_draw (sample_world (Some one_row) one_file) j))
           /\ ~ in_store one_row code)
        \/ (n = 68%nat
            /\ code = code_from (random (sample_world (Some one_row) one_file))
                        (drawn (sample_world (Some one_row) one_file) + 60) 8
            /\ String.length code = 8%nat
            /\ (forall j, (j < 10)%nat ->
                  in_store one_row
                    (nth_draw (sample_world (Some one_row) one_file) j)))).
Proof.
  destruct (generateUniqueShortCode_first_absent_or_fallback
              (sample_world (Some one_row) one_file) one_row eq_refl
              (sample_world_random_in_unit _ _))
    as (_ & code & n & Hrun & Hcase & _).
  exists code, n. split; [exact Hrun | exact Hcase].
Defined.

Example generateUniqueShortCode_second_draw :
  fst (generateUniqueShortCode (sample_world (Some one_row) one_file))
  = Return "BBBBBB".
Proof. vm_compute. reflexivity. Qed.

(** The code of the fallback is returned unchecked: here it is in the
    store. *)
Example generateUniqueShortCode_fallback :
  fst (generateUniqueShortCode (stuck_world (Some two_rows) one_file))
  = Return "AAAAAAAA"
  /\ check_says (stuck_world (Some two_rows) one_file) "AAAAAAAA" true.
Proof. split; vm_compute; reflexivity. Qed.

(** ** Retrieval by short code and by file name *)

Arguments path.join : simpl never.
Arguments CONFIG.UPLOAD_DIR : simpl never.
Arguments shortCode_regex_test : simpl never.

Lemma select_where_shortCode_In (code : string) (d : Database) (r : UrlRecord) :
  Sql.select_where_shortCode code d = Some r ->
  In r (rows d) /\ UrlRecord.shortCode r = code.
Proof.
  unfold Sql.select_where_shortCode. intros H.
  apply List.find_some in H. destruct H as [Hin Heq].
  split; [exact Hin | now apply String.eqb_eq].
Qed.

Lemma select_where_shortCode_None (code : string) (d : Database) :
  Sql.select_where_shortCode code d = None <->
  (forall r, In r (rows d) -> UrlRecord.shortCode r <> code).
Proof.
  unfold Sql.select_where_shortCode, Sql.shortCode_is. split.
  - intros H r Hin Heq. pose proof (List.find_none _ _ H r Hin) as Hn.
    simpl in Hn. apply String.eqb_neq in Hn. contradiction.
  - intros H. destruct (List.find _ (rows d)) as [r|] eqn:Hf; [|reflexivity].
    apply List.find_some in Hf. destruct Hf as [Hin Heq].
    apply String.eqb_eq in Heq. exfalso. exact (H r Hin Heq).
Qed.

Lemma unique_select (d : Database) (r : UrlRecord) :
  shortCode_unique d -> In r (rows d) ->
  Sql.select_where_shortCode (UrlRecord.shortCode r) d = Some r.
Proof.
  unfold shortCode_unique, Sql.select_where_shortCode. 
  induction (rows d) as [|x l IH]; intros Hu Hin; [destruct Hin|].
  simpl in *. inversion Hu as [|? ? Hnotin Hu']; subst.
  unfold Sql.shortCode_is at 1.
  destruct (String.eqb_spec (UrlRecord.shortCode x) (UrlRecord.shortCode r)) as [Heq|Hne].
  - destruct Hin as [->|Hin]; [reflexivity|].
    exfalso. apply Hnotin. rewrite Heq. now apply List.in_map.
  - destruct Hin as [->|Hin]; [congruence|]. now apply IH.
Qed.

Lemma unique_other_code (d : Database) (r x : UrlRecord) :
  shortCode_unique d -> In r (rows d) -> In x (rows d) -> x <> r ->
  UrlRecord.shortCode x <> UrlRecord.shortCode r.
Proof.
  intros Hu Hr Hx Hne Heq.
  pose proof (unique_select d r Hu Hr) as H1.
  pose proof (unique_select d x Hu Hx) as H2.
  rewrite Heq in H2. congruence.
Qed.

Lemma GET_shortCode_invalid (code : string) (w : World) :
  shortCode_regex_test code = false ->
  GET_shortCode code w
  = (Return (mkResponse 404
               (Failure "Invalid short code format" "INVALID_SHORT_CODE")), w).
Proof. intros H. unfold GET_shortCode, try_catch. now rewrite H. Qed.

Lemma GET_shortCode_unknown (code : string) (w : World) (d : Database) :
  db w = Some d ->
  shortCode_regex_test code = true ->
  Sql.select_where_shortCode code d = None ->
  GET_shortCode code w
  = (Return (mkResponse 404 (Failure "Short URL not found" "NOT_FOUND")), w).
Proof.
  intros Hd Hv Hs.
  unfold GET_shortCode, try_catch, bind, DatabaseManager.getUrlByShortCode,
    bind, DatabaseManager.the_db.
  rewrite Hv. simpl. rewrite Hd. simpl. now rewrite Hs.
Qed.


Lemma GET_shortCode_found (code : string) (w : World) (d : Database)
    (r : UrlRecord) (bytes : list Byte.byte) :
  db w = Some d ->
  shortCode_regex_test code = true ->
  Sql.select_where_shortCode code d = Some r ->
  files w !! file_path_of w r = Some bytes ->
  GET_shortCode code w
  = (Return (mkResponse 200 (BunFile (file_path_of w r))),
     set_db (Some (Sql.update_access (now_iso w) code d)) w).
Proof.
  intros Hd Hv Hs Hf.
  unfold GET_shortCode, try_catch, bind, DatabaseManager.getUrlByShortCode,
    DatabaseManager.incrementAccessCount, bind, DatabaseManager.the_db, ask,
    fs.access, DatabaseManager.put_db.
  rewrite Hv. simpl. rewrite Hd. simpl. rewrite Hs.
  fold (file_path_of w r). rewrite Hf. simpl. rewrite Hd. reflexivity.
Qed.

Lemma GET_file_eq (filename : string) (w : World) :
  GET_file filename w
  = (Return
       (match files w !! path.join (CONFIG.UPLOAD_DIR w) filename with
        | Some _ =>
            mkResponse 200 (BunFile (path.join (CONFIG.UPLOAD_DIR w) filename))
        | None => mkResponse 404 (Failure "File not found" "FILE_NOT_FOUND")
        end), w).
Proof.
  unfold GET_file, try_catch, bind, ask, fs.access.
  destruct (files w !! path.join (CONFIG.UPLOAD_DIR w) filename); reflexivity.
Qed.

Lemma Forall2_map_pointwise {A} (R : A -> A -> Prop) (f : A -> A) (l : list A) :
  (forall x, In x l -> R x (f x)) -> Forall2 R l (List.map f l).
Proof.
  induction l as [|x l IH]; intros H; simpl; constructor.
  - apply H. now left.
  - apply IH. intros y Hy. apply H. now right.
Qed.

Lemma touch_same_immutable (now : string) (r : UrlRecord) :
  same_immutable_fields r (Sql.touch now r).
Proof. repeat split. Qed.



(** C2. For a stored record with a valid short code whose file is on disk,
    [GET /:shortCode] sends the file and raises the access count of that
    record by exactly 1; its immutable fields and all the other records stay
    as they were. [GET /file/:filename] sends the same file and leaves the
    whole world, so every access count, untouched; this holds for every
    file name. The store is one in which the UNIQUE constraint on
    [shortCode] holds, as it does in every reachable store
    ([reachable_store_ok]). *)
Theorem GET_shortCode_counts_one_access
    (w : World) (d : Database) (r : UrlRecord) (bytes : list Byte.byte) :
  db w = Some d ->
  shortCode_unique d ->
  In r (rows d) ->
  shortCode_regex_test (UrlRecord.shortCode r) = true ->
  files w !! file_path_of w r = Some bytes ->
  (exists d',
     GET_shortCode (UrlRecord.shortCode r) w
     = (Return (mkResponse 200 (BunFile (file_path_of w r))), set_db (Some d') w)
     /\ served (mkResponse 200 (BunFile (file_path_of w r))) (set_db (Some d') w)
        = Some bytes
     /\ Forall2
          (fun x x' =>
             (x = r ->
              UrlRecord.accessCount x' = UrlRecord.accessCount x + 1
              /\ same_immutable_fields x x')
             /\ (x <> r -> x' = x))
          (rows d) (rows d'))
  /\ GET_file (UrlRecord.filename r) w
     = (Return (mkResponse 200 (BunFile (file_path_of w r))), w)
  /\ served (mkResponse 200 (BunFile (file_path_of w r))) w = Some bytes
  /\ (forall filename, snd (GET_file filename w) = w).
Proof.
  intros Hd Hu Hin Hv Hf.
  pose proof (unique_select d r Hu Hin) as Hs.
  split; [|split; [|split]].
  - exists (Sql.update_access (now_iso w) (UrlRecord.shortCode r) d).
    split; [exact (GET_shortCode_found _ w d r bytes Hd Hv Hs Hf)|].
    split; [unfold served; simpl; exact Hf|].
    unfold Sql.update_access. simpl.
    apply Forall2_map_pointwise. intros x Hx. split.
    + intros ->. unfold Sql.shortCode_is. rewrite String.eqb_refl.
      split; [reflexivity | apply touch_same_immutable].
    + intros Hne. unfold Sql.shortCode_is.
      pose proof (unique_other_code d r x Hu Hin Hx Hne) as Hc.
      apply String.eqb_neq in Hc. now rewrite Hc.
  - rewrite GET_file_eq. fold (file_path_of w r). now rewrite Hf.
  - unfold served. simpl. exact Hf.
  - intros filename. now rewrite GET_file_eq.
Qed.

Lemma GET_shortCode_counts_one_access_witness :
  exists d',
    GET_shortCode "AAAAAA" (sample_world (Some one_row) one_file)
    = (Return (mkResponse 200
                 (BunFile "/srv/app/public/file/1700000000000-AAAAAA.txt")),
       set_db (Some d') (sample_world (Some one_row) one_file))
    /\ List.map UrlRecord.accessCount (rows d') = [1].
Proof.
  destruct (GET_shortCode_counts_one_access
              (sample_world (Some one_row) one_file) one_row
              (sample_record 1 "AAAAAA" "notes.txt" "2023-11-14T22:13:20.000Z" 0)
              sample_bytes)
    as [(d' & Hrun & _ & Hrows) _].
  - reflexivity.
  - repeat constructor. simpl. tauto.
  - left. reflexivity.
  - reflexivity.
  - reflexivity.
  - exists d'. split; [exact Hrun|].
    inversion Hrows as [|x x' l l' [Hx _] Hrest Heq1 Heq2]; subst.
    inversion Hrest; subst. simpl.
    destruct (Hx eq_refl) as [-> _]. reflexivity.
Defined.

(** ** Deletion *)

Lemma deleteUrl_eq (code : string) (w : World) (d : Database) :
  db w = Some d ->
  DatabaseManager.deleteUrl code w
  = (Return (if changes_property w
             then Sql.count_where_shortCode code d >? 0 else false),
     set_db (Some (Sql.delete_where_shortCode code d)) w).
Proof.
  intros Hd.
  unfold DatabaseManager.deleteUrl, DatabaseManager.db_changes, bind,
    DatabaseManager.the_db, DatabaseManager.put_db, ask, ret.
  rewrite Hd. simpl. now destruct (changes_property w).
Qed.

Lemma delete_where_shortCode_In (code : string) (d : Database) (r : UrlRecord) :
  In r (rows (Sql.delete_where_shortCode code d))
  <-> In r (rows d) /\ UrlRecord.shortCode r <> code.
Proof.
  unfold Sql.delete_where_shortCode. simpl. rewrite List.filter_In.
  unfold Sql.shortCode_is. rewrite negb_true_iff, String.eqb_neq. reflexivity.
Qed.

Lemma delete_where_shortCode_length (code : string) (d : Database) :
  (Z.of_nat (length (rows (Sql.delete_where_shortCode code d)))
   + Sql.count_where_shortCode code d
   = Z.of_nat (length (rows d))).
Proof.
  unfold Sql.delete_where_shortCode, Sql.count_where_shortCode. simpl.
  pose proof (List.filter_length (Sql.shortCode_is code) (rows d)). lia.
Qed.

(** If the handle has the property [changes], [deleteUrl] returns true
    exactly when it removed a row, and [DELETE /urls/:shortCode], for a
    code that has a record, removes the row and answers 200 with the code
    and the original name of the record it deleted; the file of the record
    is removed too. *)
Lemma deleteUrl_with_changes_property (w : World) (d : Database) (code : string) :
  db w = Some d -> changes_property w = true ->
  exists deleted d',
    DatabaseManager.deleteUrl code w = (Return deleted, set_db (Some d') w)
    /\ (forall r, In r (rows d')
                  <-> In r (rows d) /\ UrlRecord.shortCode r <> code)
    /\ (deleted = true <-> (length (rows d') < length (rows d))%nat)
    /\ (deleted = true
        <-> exists r, In r (rows d) /\ UrlRecord.shortCode r = code)
    /\ (forall r,
          Sql.select_where_shortCode code d = Some r ->
          exists w',
            DELETE_urls code w
            = (Return (mkResponse 200
                         (Deleted (UrlRecord.shortCode r)
                            (UrlRecord.originalName r))), w')
            /\ db w' = Some d'
            /\ ~ In r (rows d')
            /\ files w' = delete (file_path_of w r) (files w)).
Proof.
  intros Hd Hprop.
  exists (Sql.count_where_shortCode code d >? 0),
         (Sql.delete_where_shortCode code d).
  split; [rewrite (deleteUrl_eq code w d Hd), Hprop; reflexivity|].
  split; [intros r; apply delete_where_shortCode_In|].
  split.
  { pose proof (delete_where_shortCode_length code d). rewrite Z.gtb_lt. lia. }
  split; [apply count_positive_iff|].
  intros r Hs.
  destruct (select_where_shortCode_In code d r Hs) as [Hin Hc].
  assert (Hdel : (Sql.count_where_shortCode code d >? 0) = true).
  { apply count_positive_iff. now exists r. }
  unfold DELETE_urls, try_catch.
  unfold bind at 1. unfold DatabaseManager.getUrlByShortCode at 1.
  unfold bind at 1. unfold DatabaseManager.the_db at 1. rewrite Hd.
  unfold ret at 1. rewrite Hs.
  unfold bind at 1. rewrite (deleteUrl_eq code w d Hd), Hprop, Hdel.
  unfold bind, ask, ret, fs.unlink. simpl.
  change (CONFIG.UPLOAD_DIR (set_db (Some (Sql.delete_where_shortCode code d)) w))
    with (CONFIG.UPLOAD_DIR w).
  fold (file_path_of w r). rewrite Hc.
  destruct (files w !! file_path_of w r) eqn:Hf; simpl.
  - eexists. split; [reflexivity|]. split; [reflexivity|]. split.
    + intros Hin'.
      apply (proj1 (delete_where_shortCode_In code d r)) in Hin'. tauto.
    + reflexivity.
  - eexists. split; [reflexivity|]. split; [reflexivity|]. split.
    + intros Hin'.
      apply (proj1 (delete_where_shortCode_In code d r)) in Hin'. tauto.
    + simpl. now rewrite delete_id.
Qed.

(** If the handle has no property [changes], [deleteUrl] removes the rows
    with the given code all the same and returns false; the handler then
    answers 500 DELETE_FAILED for a record that it has just deleted, and
    leaves the file of the record on disk. *)
Lemma deleteUrl_without_changes_property (w : World) (d : Database)
    (code : string) (r : UrlRecord) :
  db w = Some d -> changes_property w = false ->
  Sql.select_where_shortCode code d = Some r ->
  DatabaseManager.deleteUrl code w
  = (Return false, set_db (Some (Sql.delete_where_shortCode code d)) w)
  /\ DELETE_urls code w
     = (Return (mkResponse 500 (Failure "Failed to delete URL" "DELETE_FAILED")),
        set_db (Some (Sql.delete_where_shortCode code d)) w)
  /\ ~ In r (rows (Sql.delete_where_shortCode code d)).
Proof.
  intros Hd Hprop Hs.
  destruct (select_where_shortCode_In code d r Hs) as [Hin Hc].
  split; [rewrite (deleteUrl_eq code w d Hd), Hprop; reflexivity|].
  split.
  - unfold DELETE_urls, try_catch.
    unfold bind at 1. unfold DatabaseManager.getUrlByShortCode at 1.
    unfold bind at 1. unfold DatabaseManager.the_db at 1. rewrite Hd.
    unfold ret at 1. rewrite Hs.
    unfold bind at 1. rewrite (deleteUrl_eq code w d Hd), Hprop.
    reflexivity.
  - rewrite delete_where_shortCode_In. tauto.
Qed.

(** C3 (fails). [deleteUrl] takes its answer from [this.db.changes], a
    property that the handle does not have. For the code of a stored record
    it removes the row and returns false, so that [DELETE /urls/:shortCode]
    answers 500 DELETE_FAILED instead of the code and original name of the
    deleted record, and keeps the file. *)
Theorem deleteUrl_false_for_removed_row :
  Sql.select_where_shortCode "AAAAAA" one_row
  = Some (sample_record 1 "AAAAAA" "notes.txt" "2023-11-14T22:13:20.000Z" 0)
  /\ DatabaseManager.deleteUrl "AAAAAA" (sample_world (Some one_row) one_file)
     = (Return false, sample_world (Some (mkDatabase [] 1 1)) one_file)
  /\ DELETE_urls "AAAAAA" (sample_world (Some one_row) one_file)
     = (Return (mkResponse 500 (Failure "Failed to delete URL" "DELETE_FAILED")),
        sample_world (Some (mkDatabase [] 1 1)) one_file).
Proof. repeat split; vm_compute; reflexivity. Qed.

(** ** Direct file access *)

(** C10 (fails). A file name with parent-directory segments makes
    [GET /file/:filename] send a file that is outside the upload directory:
    here the database file, two levels up. *)
Theorem GET_file_parent_segments_escape :
  CONFIG.UPLOAD_DIR (sample_world None database_file) = "/srv/app/public/file"
  /\ GET_file "../../data/urls.db" (sample_world None database_file)
     = (Return (mkResponse 200 (BunFile "/srv/app/data/urls.db")),
        sample_world None database_file)
  /\ served (mkResponse 200 (BunFile "/srv/app/data/urls.db"))
       (sample_world None database_file) = Some sample_bytes
  /\ inside (CONFIG.UPLOAD_DIR (sample_world None database_file))
       "/srv/app/data/urls.db" = false.
Proof. repeat split; vm_compute; reflexivity. Qed.

(** *** Names without parent-directory segments stay inside *)

Lemma split_go_app (s1 s2 cur : list ascii) :
  path.split_go (s1 ++ path.slash :: s2) cur
  = path.split_go s1 cur ++ path.split_go s2 [].
Proof.
  revert cur. induction s1 as [|c s1 IH]; intros cur; simpl.
  - reflexivity.
  - destruct (Ascii.eqb c path.slash); simpl; now rewrite IH.
Qed.

Lemma split_go_no_slash (s cur : list ascii) :
  no_slash s = true -> path.split_go s cur = [rev cur ++ s].
Proof.
  revert cur. induction s as [|c s IH]; intros cur H; simpl.
  - now rewrite List.app_nil_r.
  - simpl in H. apply andb_true_iff in H. destruct H as [Hc Hs].
    apply negb_true_iff in Hc. rewrite Hc, (IH _ Hs). simpl.
    now rewrite <- List.app_assoc.
Qed.

Lemma split_app (a b : string) :
  path.split (a +:+ "/" +:+ b) = path.split a ++ path.split b.
Proof.
  unfold path.split. rewrite !list_ascii_of_string_app. simpl.
  rewrite split_go_app. apply List.map_app.
Qed.

Lemma split_plain (s : string) :
  no_slash (list_ascii_of_string s) = true -> path.split s = [s].
Proof.
  intros H. unfold path.split. rewrite (split_go_no_slash _ [] H). simpl.
  now rewrite string_of_list_ascii_of_string.
Qed.

Lemma split_go_segments (s cur : list ascii) :
  no_slash cur = true -> Forall (fun x => no_slash x = true) (path.split_go s cur).
Proof.
  revert cur. induction s as [|c s IH]; intros cur Hcur; simpl.
  - constructor; [|constructor]. unfold no_slash in *.
    rewrite List.forallb_forall in *. intros x Hx. apply Hcur.
    now apply List.in_rev.
  - destruct (Ascii.eqb c path.slash) eqn:Hc.
    + constructor; [|now apply IH]. unfold no_slash in *.
      rewrite List.forallb_forall in *. intros x Hx. apply Hcur.
      now apply List.in_rev.
    + apply IH. simpl. now rewrite Hc.
Qed.

Lemma plain_name_inv (s : string) :
  plain_name s = true ->
  String.eqb s "" = false /\ String.eqb s "." = false
  /\ String.eqb s ".." = false /\ no_slash (list_ascii_of_string s) = true.
Proof.
  unfold plain_name. rewrite !andb_true_iff, !negb_true_iff. tauto.
Qed.

Lemma normalizeString_app (l1 l2 : list string) (allow : bool) (res : list string) :
  path.normalizeString (l1 ++ l2) allow res
  = path.normalizeString l2 allow (rev (path.normalizeString l1 allow res)).
Proof.
  revert res. induction l1 as [|s l1 IH]; intros res; simpl.
  - now rewrite List.rev_involutive.
  - destruct (String.eqb s "" || String.eqb s "."); [apply IH|].
    destruct (String.eqb s ".."); [|apply IH].
    destruct res as [|top res]; [apply IH|].
    destruct (String.eqb top ".."); apply IH.
Qed.

Lemma normalizeString_plain (l res : list string) :
  Forall (fun s => plain_name s = true) l ->
  path.normalizeString l false res = rev res ++ l.
Proof.
  intros Hl. revert res. induction Hl as [|s l Hs Hl IH]; intros res; simpl.
  - now rewrite List.app_nil_r.
  - destruct (plain_name_inv s Hs) as (H0 & H1 & H2 & _).
    rewrite H0, H1, H2. simpl. rewrite IH. simpl.
    now rewrite <- List.app_assoc.
Qed.

Lemma normalizeString_output (l res : list string) :
  Forall (fun s => no_slash (list_ascii_of_string s) = true) l ->
  Forall (fun s => plain_name s = true) res ->
  Forall (fun s => plain_name s = true) (path.normalizeString l false res).
Proof.
  intros Hl. revert res. induction Hl as [|s l Hs Hl IH]; intros res Hres; simpl.
  - now apply List.Forall_rev.
  - destruct (String.eqb s "") eqn:H0; [now apply IH|].
    destruct (String.eqb s ".") eqn:H1; [now apply IH|]. simpl.
    destruct (String.eqb s "..") eqn:H2.
    + destruct res as [|top res]; [now apply IH|].
      inversion Hres; subst.
      destruct (String.eqb top ".."); now apply IH.
    + apply IH. constructor; [|exact Hres].
      unfold plain_name. now rewrite H0, H1, H2, Hs.
Qed.

Lemma split_segments (p : string) :
  Forall (fun s => no_slash (list_ascii_of_string s) = true) (path.split p).
Proof.
  unfold path.split. apply List.Forall_map.
  eapply List.Forall_impl; [|apply (split_go_segments _ []); reflexivity].
  intros x Hx. cbv beta. now rewrite list_ascii_of_string_of_list_ascii.
Qed.

Lemma concat_with_snoc (l : list string) (s : string) :
  l <> [] ->
  path.concat_with "/" (l ++ [s]) = path.concat_with "/" l +:+ "/" +:+ s.
Proof.
  induction l as [|x l IH]; intros Hne; [congruence|].
  destruct l as [|y l]; [reflexivity|].
  change (path.concat_with "/" ((x :: y :: l) ++ [s]))
    with (x +:+ "/" +:+ path.concat_with "/" ((y :: l) ++ [s])).
  rewrite IH by discriminate.
  change (path.concat_with "/" (x :: y :: l))
    with (x +:+ "/" +:+ path.concat_with "/" (y :: l)).
  now rewrite !string_app_assoc.
Qed.

Lemma split_concat_with (l : list string) :
  l <> [] -> Forall (fun s => plain_name s = true) l ->
  path.split (path.concat_with "/" l) = l.
Proof.
  intros Hne Hl. induction Hl as [|x l Hx Hl IH]; [congruence|].
  destruct (plain_name_inv x Hx) as (_ & _ & _ & Hs).
  destruct l as [|y l]; [now apply split_plain|].
  change (path.concat_with "/" (x :: y :: l))
    with (x +:+ "/" +:+ path.concat_with "/" (y :: l)).
  rewrite split_app, (split_plain x Hs), IH by discriminate. reflexivity.
Qed.

Lemma prefix_app (a b : string) : String.prefix a (a +:+ b) = true.
Proof.
  induction a as [|c a IH]; [now destruct b|].
  rewrite string_app_cons. simpl. destruct (ascii_dec c c); [exact IH | congruence].
Qed.

Lemma isAbsolute_slash (x : string) : path.isAbsolute (String path.slash x) = true.
Proof. now destruct x. Qed.

Lemma ends_with_slash_plain (a s : string) :
  plain_name s = true -> path.ends_with_slash (a +:+ "/" +:+ s) = false.
Proof.
  intros Hs. destruct (plain_name_inv s Hs) as (H0 & _ & _ & Hn).
  unfold path.ends_with_slash. rewrite !list_ascii_of_string_app, !List.rev_app_distr.
  destruct s as [|c s]; [discriminate|]. simpl in Hn |- *.
  assert (Hin : forall x, In x (rev (list_ascii_of_string s) ++ [c]) ->
                  Ascii.eqb x path.slash = false).
  { intros x Hx. apply List.in_app_iff in Hx.
    apply andb_true_iff in Hn. destruct Hn as [Hc Hrest].
    destruct Hx as [Hx | [<- | []]]; [|now apply negb_true_iff].
    unfold no_slash in Hrest. rewrite List.forallb_forall in Hrest.
    apply negb_true_iff, Hrest. now apply List.in_rev. }
  destruct (rev (list_ascii_of_string s) ++ [c]) as [|x l] eqn:Hl.
  - now destruct (rev (list_ascii_of_string s)).
  - simpl. apply Hin. now left.
Qed.

(** The upload directory is an absolute path of plain segments that ends
    with [public/file]. *)
Lemma UPLOAD_DIR_shape (w : World) :
  exists segs,
    Forall (fun s => plain_name s = true) segs
    /\ segs <> []
    /\ CONFIG.UPLOAD_DIR w = "/" +:+ path.concat_with "/" segs.
Proof.
  unfold CONFIG.UPLOAD_DIR, path.resolve.
  change (path.isAbsolute "./public/file") with false. cbv iota.
  rewrite split_app, normalizeString_app.
  set (r1 := path.normalizeString (path.split (cwd w)) false []).
  assert (Hr1 : Forall (fun s => plain_name s = true) r1).
  { apply normalizeString_output; [apply split_segments | constructor]. }
  change (path.split "./public/file") with ["."; "public"; "file"].
  exists (r1 ++ ["public"; "file"]). split; [|split].
  - apply List.Forall_app. split; [exact Hr1 | repeat constructor].
  - now destruct r1.
  - f_equal. f_equal. simpl. rewrite List.rev_involutive.
    now rewrite <- List.app_assoc.
Qed.

(** For a plain name the handlers look at the file of that name in the
    upload directory. *)
Lemma join_UPLOAD_DIR_plain (w : World) (name : string) :
  plain_name name = true ->
  path.join (CONFIG.UPLOAD_DIR w) name = CONFIG.UPLOAD_DIR w +:+ "/" +:+ name
  /\ inside (CONFIG.UPLOAD_DIR w) (path.join (CONFIG.UPLOAD_DIR w) name) = true.
Proof.
  intros Hname.
  destruct (UPLOAD_DIR_shape w) as (segs & Hsegs & Hne & Hdir).
  destruct (plain_name_inv name Hname) as (H0 & _ & _ & Hns).
  assert (Hjoin : path.join (CONFIG.UPLOAD_DIR w) name
                  = CONFIG.UPLOAD_DIR w +:+ "/" +:+ name).
  { unfold path.join. rewrite H0.
    assert (Hd0 : String.eqb (CONFIG.UPLOAD_DIR w) "" = false)
      by (rewrite Hdir; reflexivity).
    rewrite Hd0.
    set (p := CONFIG.UPLOAD_DIR w +:+ "/" +:+ name).
    assert (Hp : p = String path.slash
                       (path.concat_with "/" segs +:+ "/" +:+ name)).
    { unfold p. rewrite Hdir, string_app_assoc. reflexivity. }
    assert (Hp0 : String.eqb p "" = false) by (rewrite Hp; reflexivity).
    assert (Habs : path.isAbsolute p = true)
      by (rewrite Hp; apply isAbsolute_slash).
    assert (Hend : path.ends_with_slash p = false)
      by (unfold p; now apply ends_with_slash_plain).
    assert (Hsplit : path.split p = "" :: (segs ++ [name])).
    { unfold p. rewrite split_app, (split_plain name Hns), Hdir.
      change ("/" +:+ path.concat_with "/" segs)
        with ("" +:+ "/" +:+ path.concat_with "/" segs).
      rewrite split_app, (split_concat_with segs Hne Hsegs). reflexivity. }
    unfold path.normalize. rewrite Hp0, Habs, Hend, Hsplit.
    change (path.normalizeString ("" :: (segs ++ [name])) (negb true) [])
      with (path.normalizeString (segs ++ [name]) false []).
    rewrite normalizeString_plain
      by (apply List.Forall_app; split; [exact Hsegs | now repeat constructor]).
    simpl rev. rewrite List.app_nil_l, (concat_with_snoc segs name Hne).
    destruct (path.concat_with "/" segs +:+ "/" +:+ name) eqn:Hbody.
    - destruct (path.concat_with "/" segs); discriminate Hbody.
    - cbn [String.eqb]. rewrite Hp. reflexivity. }
  split; [exact Hjoin|].
  rewrite Hjoin. unfold inside. rewrite <- string_app_assoc. apply prefix_app.
Qed.

(** So [GET /file/:filename] with a plain name sends a file of the upload
    directory or answers 404. *)
Lemma GET_file_plain_name (w : World) (name : string) :
  plain_name name = true ->
  exists resp,
    GET_file name w = (Return resp, w)
    /\ (body resp = BunFile (CONFIG.UPLOAD_DIR w +:+ "/" +:+ name)
        \/ resp = mkResponse 404 (Failure "File not found" "FILE_NOT_FOUND")).
Proof.
  intros Hname. destruct (join_UPLOAD_DIR_plain w name Hname) as [Hjoin _].
  rewrite GET_file_eq, Hjoin.
  destruct (files w !! (CONFIG.UPLOAD_DIR w +:+ "/" +:+ name)).
  - eexists. split; [reflexivity|]. now left.
  - eexists. split; [reflexivity|]. now right.
Qed.

(** *** The file name of an upload is a plain name *)

Lemma no_slash_app (a b : list ascii) :
  no_slash (a ++ b) = no_slash a && no_slash b.
Proof. apply List.forallb_app. Qed.

Lemma no_slash_rev (a : list ascii) : no_slash (rev a) = no_slash a.
Proof.
  induction a as [|c a IH]; [reflexivity|].
  simpl. rewrite no_slash_app, IH. simpl.
  rewrite andb_true_r. apply andb_comm.
Qed.

Lemma uint_no_slash (d : Decimal.uint) :
  no_slash (list_ascii_of_string (NilEmpty.string_of_uint d)) = true.
Proof. induction d; simpl; auto. Qed.

Lemma Z_to_string_no_slash (n : Z) :
  no_slash (list_ascii_of_string (Z_to_string n)) = true.
Proof.
  unfold Z_to_string, NilZero.string_of_int, NilZero.string_of_uint.
  destruct (Z.to_int n) as [d|d]; destruct d; try reflexivity;
    simpl; apply uint_no_slash.
Qed.

Lemma alnum_no_slash (l : list ascii) :
  forallb is_alnum l = true -> no_slash l = true.
Proof.
  unfold no_slash. rewrite !List.forallb_forall. intros H c Hc.
  specialize (H c Hc). apply negb_true_iff.
  destruct (Ascii.eqb_spec c path.slash) as [->|]; [discriminate H | reflexivity].
Qed.

Lemma rev_basename_no_slash (r : list ascii) :
  no_slash (path.rev_basename r) = true.
Proof.
  induction r as [|c r IH]; [reflexivity|].
  simpl. destruct (Ascii.eqb c path.slash) eqn:Hc; [reflexivity|].
  simpl. now rewrite Hc, IH.
Qed.

Lemma rev_ext_no_slash (r e rest : list ascii) :
  path.rev_ext r = Some (e, rest) -> no_slash r = true -> no_slash e = true.
Proof.
  revert e rest. induction r as [|c r IH]; intros e rest H Hr; [discriminate|].
  simpl in H, Hr. apply andb_true_iff in Hr. destruct Hr as [Hc Hr].
  destruct (Ascii.eqb c path.dot).
  - injection H as <- <-. simpl. now rewrite Hc.
  - destruct (path.rev_ext r) as [[e0 rest0]|]; [|discriminate].
    injection H as <- <-. simpl. rewrite Hc. now apply (IH e0 rest0).
Qed.

Lemma extname_no_slash (p : string) :
  no_slash (list_ascii_of_string (path.extname p)) = true.
Proof.
  unfold path.extname.
  set (base := path.rev_basename _).
  destruct (path.rev_ext base) as [[e before]|] eqn:He; [|reflexivity].
  destruct before; [reflexivity|].
  destruct (String.eqb _ ".."); [reflexivity|].
  rewrite list_ascii_of_string_of_list_ascii, no_slash_rev.
  apply (rev_ext_no_slash base e _ He). apply rev_basename_no_slash.
Qed.

Lemma upload_filename_plain (w : World) (file : File.t) (code : string) :
  forallb is_alnum (list_ascii_of_string code) = true ->
  plain_name (upload_filename w file code) = true.
Proof.
  intros Hcode. unfold plain_name, upload_filename.
  set (name := Z_to_string (now_ms w) +:+ "-" +:+ code +:+ path.extname (File.name file)).
  assert (Hin : In "-"%char (list_ascii_of_string name)).
  { unfold name. rewrite !list_ascii_of_string_app.
    apply List.in_or_app. right. now left. }
  assert (Hns : no_slash (list_ascii_of_string name) = true).
  { unfold name. rewrite !list_ascii_of_string_app, !no_slash_app.
    rewrite Z_to_string_no_slash, (alnum_no_slash _ Hcode), extname_no_slash.
    reflexivity. }
  rewrite Hns.
  destruct name as [|c1 [|c2 [|c3 rest]]]; simpl in Hin.
  - destruct Hin.
  - destruct Hin as [->|[]]. reflexivity.
  - destruct Hin as [->|[->|[]]].
    + reflexivity.
    + cbn. destruct (Ascii.eqb c1 "."); reflexivity.
  - cbn. destruct (Ascii.eqb c1 "."); [|reflexivity].
    destruct (Ascii.eqb c2 "."); reflexivity.
Qed.

(** The file that an upload writes, and that the record of the upload
    names, lies in the upload directory. *)
Lemma upload_path_inside (w : World) (file : File.t) (code : string) :
  forallb is_alnum (list_ascii_of_string code) = true ->
  upload_path w file code
  = CONFIG.UPLOAD_DIR w +:+ "/" +:+ upload_filename w file code
  /\ inside (CONFIG.UPLOAD_DIR w) (upload_path w file code) = true.
Proof.
  intros Hcode. unfold upload_path.
  apply join_UPLOAD_DIR_plain. now apply upload_filename_plain.
Qed.

(** ** Ordering and paging *)

Section OrderBy.
Context {A : Type} (leb : A -> A -> bool).
Hypothesis leb_total : forall a b, leb a b = true \/ leb b a = true.
Hypothesis leb_trans : forall a b c, leb a b = true -> leb b c = true -> leb a c = true.

Let R (a b : A) : Prop := leb a b = true.

Lemma insert_by_perm (x : A) (l : list A) :
  Permutation (x :: l) (Sql.insert_by leb x l).
Proof.
  induction l as [|y l IH]; simpl; [reflexivity|].
  destruct (leb x y); [reflexivity|].
  rewrite perm_swap. now constructor.
Qed.

Lemma order_by_perm (l : list A) : Permutation l (Sql.order_by leb l).
Proof.
  induction l as [|x l IH]; simpl; [constructor|].
  rewrite <- insert_by_perm. now constructor.
Qed.

Lemma insert_by_sorted (x : A) (l : list A) :
  StronglySorted R l -> StronglySorted R (Sql.insert_by leb x l).
Proof.
  induction l as [|y l IH]; intros Hs; simpl.
  - repeat constructor.
  - inversion Hs as [|? ? Hs' Hall]; subst.
    destruct (leb x y) eqn:Hxy.
    + constructor; [exact Hs|]. constructor; [exact Hxy|].
      eapply List.Forall_impl; [|exact Hall].
      intros z Hz. exact (leb_trans x y z Hxy Hz).
    + constructor; [now apply IH|].
      assert (Hyx : R y x).
      { destruct (leb_total x y) as [H|H]; [congruence | exact H]. }
      apply List.Forall_forall. intros z Hz.
      apply (Permutation_in z (Permutation_sym (insert_by_perm x l))) in Hz.
      destruct Hz as [<-|Hz]; [exact Hyx|].
      rewrite List.Forall_forall in Hall. now apply Hall.
Qed.

Lemma order_by_sorted (l : list A) : StronglySorted R (Sql.order_by leb l).
Proof.
  induction l as [|x l IH]; simpl; [constructor | now apply insert_by_sorted].
Qed.

End OrderBy.

Lemma StronglySorted_app_inv {A} (R : A -> A -> Prop) (l1 l2 : list A) :
  StronglySorted R (l1 ++ l2) -> StronglySorted R l1 /\ StronglySorted R l2.
Proof.
  induction l1 as [|x l1 IH]; simpl; intros H.
  - split; [constructor | exact H].
  - inversion H as [|? ? Hs Hall]; subst. destruct (IH Hs) as [H1 H2].
    split; [|exact H2]. constructor; [exact H1|].
    apply List.Forall_app in Hall. tauto.
Qed.

Lemma limit_offset_sorted {A} (R : A -> A -> Prop) (limit offset : Z) (l : list A) :
  StronglySorted R l -> StronglySorted R (Sql.limit_offset limit offset l).
Proof.
  intros Hs. unfold Sql.limit_offset.
  assert (Hskip : StronglySorted R (skipn (Z.to_nat offset) l)).
  { rewrite <- (List.firstn_skipn (Z.to_nat offset) l) in Hs.
    now apply StronglySorted_app_inv in Hs. }
  destruct (limit <? 0); [exact Hskip|].
  rewrite <- (List.firstn_skipn (Z.to_nat limit) (skipn (Z.to_nat offset) l)) in Hskip.
  now apply StronglySorted_app_inv in Hskip.
Qed.

Lemma limit_offset_length {A} (limit offset : Z) (l : list A) :
  0 <= limit ->
  Z.of_nat (length (Sql.limit_offset limit offset l))
  = Z.min limit (Z.max 0 (Z.of_nat (length l) - Z.max 0 offset)).
Proof.
  intros Hl. unfold Sql.limit_offset.
  destruct (Z.ltb_spec limit 0) as [?|_]; [lia|].
  rewrite List.length_firstn, List.length_skipn. lia.
Qed.

Lemma In_firstn {A} (n : nat) (l : list A) (x : A) :
  In x (firstn n l) -> In x l.
Proof.
  intros H. rewrite <- (List.firstn_skipn n l). apply List.in_or_app. now left.
Qed.

Lemma In_skipn {A} (n : nat) (l : list A) (x : A) :
  In x (skipn n l) -> In x l.
Proof.
  intros H. rewrite <- (List.firstn_skipn n l). apply List.in_or_app. now right.
Qed.

Lemma limit_offset_In {A} (limit offset : Z) (l : list A) (x : A) :
  In x (Sql.limit_offset limit offset l) -> In x l.
Proof.
  unfold Sql.limit_offset. intros H.
  apply (In_skipn (Z.to_nat offset)).
  destruct (limit <? 0); [exact H | now apply In_firstn in H].
Qed.

Lemma uploadedAt_desc_total (a b : UrlRecord) :
  Sql.uploadedAt_desc a b = true \/ Sql.uploadedAt_desc b a = true.
Proof.
  unfold Sql.uploadedAt_desc.
  rewrite (String.eqb_sym (UrlRecord.uploadedAt b) (UrlRecord.uploadedAt a)).
  destruct (String.eqb (UrlRecord.uploadedAt a) (UrlRecord.uploadedAt b)).
  - rewrite !Z.leb_le. lia.
  - destruct (String.leb_total (UrlRecord.uploadedAt b) (UrlRecord.uploadedAt a));
      tauto.
Qed.

Lemma uploadedAt_desc_newest_first (a b : UrlRecord) :
  Sql.uploadedAt_desc a b = true <-> newest_first a b.
Proof.
  unfold Sql.uploadedAt_desc, newest_first.
  destruct (String.eqb_spec (UrlRecord.uploadedAt a) (UrlRecord.uploadedAt b))
    as [Heq|Hne].
  - rewrite Z.leb_le, Heq. split.
    + intros H. split; [|intros _; exact H].
      apply Is_true_true. exact (reflexivity (R := String.le) _).
    + intros [_ H]. now apply H.
  - split; [intros H; split; [exact H | intros Heq; contradiction] | tauto].
Qed.

Lemma uploadedAt_desc_trans (a b c : UrlRecord) :
  Sql.uploadedAt_desc a b = true -> Sql.uploadedAt_desc b c = true ->
  Sql.uploadedAt_desc a c = true.
Proof.
  rewrite !uploadedAt_desc_newest_first. unfold newest_first.
  intros [H1 I1] [H2 I2].
  apply Is_true_true in H1, H2.
  assert (H3 : String.le (UrlRecord.uploadedAt c) (UrlRecord.uploadedAt a))
    by exact (transitivity (R := String.le) H2 H1).
  split; [now apply Is_true_true|].
  intros Heq. rewrite Heq in H1.
  assert (Hbc : UrlRecord.uploadedAt b = UrlRecord.uploadedAt c)
    by exact (anti_symm String.le _ _ H1 H2).
  specialize (I2 Hbc). rewrite <- Hbc in Heq. specialize (I1 Heq). lia.
Qed.

Lemma order_by_uploadedAt_sorted (l : list UrlRecord) :
  StronglySorted newest_first (Sql.order_by Sql.uploadedAt_desc l).
Proof.
  pose proof (order_by_sorted Sql.uploadedAt_desc uploadedAt_desc_total
                uploadedAt_desc_trans l) as Hs.
  induction Hs as [|x l' Hs IH Hall]; constructor; [exact IH|].
  eapply List.Forall_impl; [|exact Hall].
  intros y Hy. now apply uploadedAt_desc_newest_first.
Qed.

(** *** Numbers *)

Lemma pow2_53 : 2 ^ 53 = 9007199254740992.
Proof. reflexivity. Qed.

Lemma pow2_63 : 2 ^ 63 = 9223372036854775808.
Proof. reflexivity. Qed.

Lemma round_to_double_small (z : Z) :
  Z.abs z <= 2 ^ 53 -> round_to_double z = z.
Proof.
  intros H. unfold round_to_double.
  destruct (Z.leb_spec (Z.abs z) (2 ^ 53)); [reflexivity | lia].
Qed.

Lemma double_of_Z_small (z : Z) : Z.abs z <= 2 ^ 53 -> double_of_Z z = Int z.
Proof.
  intros H. unfold double_of_Z. rewrite round_to_double_small by exact H.
  destruct (Z.leb_spec (2 ^ 1024) (Z.abs z)) as [Hbig|_]; [|reflexivity].
  exfalso. assert (2 ^ 53 < 2 ^ 1024) by (apply Z.pow_lt_mono_r; lia). lia.
Qed.

Lemma round_div_bounds (p q : Z) :
  0 < q -> p / q <= round_div p q <= p / q + 1.
Proof.
  intros Hq. unfold round_div.
  destruct (2 * (p mod q) ?= q); [destruct (Z.even (p / q))| |]; lia.
Qed.

Lemma round_to_double_large (z : Z) :
  2 ^ 53 < Z.abs z ->
  2 ^ 53 <= Z.abs (round_to_double z)
  /\ Z.sgn (round_to_double z) = Z.sgn z.
Proof.
  intros H. unfold round_to_double.
  destruct (Z.leb_spec (Z.abs z) (2 ^ 53)) as [?|_]; [lia|].
  set (a := Z.abs z) in *.
  assert (Ha : 0 < a) by (rewrite pow2_53 in H; lia).
  destruct (Z.log2_spec a Ha) as [Hlo _].
  assert (Hlog : 53 <= Z.log2 a).
  { apply Z.log2_le_pow2; [exact Ha | lia]. }
  set (e := Z.log2 a - 52) in *.
  assert (He : 1 <= e) by (unfold e; lia).
  assert (Hsplit : 2 ^ Z.log2 a = 2 ^ 52 * 2 ^ e).
  { rewrite <- Z.pow_add_r by lia. f_equal. unfold e. lia. }
  assert (Hpe : 2 <= 2 ^ e).
  { change 2 with (2 ^ 1) at 1. apply Z.pow_le_mono_r; lia. }
  assert (Hq : 2 ^ 52 <= a / 2 ^ e).
  { apply Z.div_le_lower_bound; [lia|]. rewrite Z.mul_comm, <- Hsplit. exact Hlo. }
  destruct (round_div_bounds a (2 ^ e) ltac:(lia)) as [Hr _].
  assert (Hprod : 2 ^ 53 <= round_div a (2 ^ e) * 2 ^ e).
  { change (2 ^ 53) with (2 ^ 52 * 2). change (2 ^ 52) with 4503599627370496 in *.
    nia. }
  rewrite pow2_53 in Hprod.
  rewrite pow2_53.
  destruct (Z.sgn_spec z) as [[Hz Hs]|[[Hz Hs]|[Hz Hs]]]; rewrite Hs.
  - split; [lia | apply Z.sgn_pos; lia].
  - subst z. unfold a in H. simpl in H. lia.
  - split; [lia | apply Z.sgn_neg; lia].
Qed.

Lemma number_lt_double (s t : Z) :
  0 <= t <= 2 ^ 53 -> number_lt (double_of_Z s) t = (s <? t).
Proof.
  intros Ht.
  destruct (Z.le_gt_cases (Z.abs s) (2 ^ 53)) as [Hs|Hs].
  { now rewrite double_of_Z_small. }
  destruct (round_to_double_large s Hs) as [Habs Hsgn].
  unfold double_of_Z. rewrite pow2_53 in *.
  destruct (Z.leb_spec (2 ^ 1024) (Z.abs (round_to_double s))) as [_|_];
    cbn [number_lt].
  - destruct (Z.ltb_spec s 0), (Z.ltb_spec s t); try reflexivity; lia.
  - destruct (Z.sgn_spec s) as [[Hz Hs']|[[Hz Hs']|[Hz Hs']]];
      rewrite Hs' in Hsgn.
    + apply Z.sgn_pos_iff in Hsgn.
      destruct (Z.ltb_spec (round_to_double s) t), (Z.ltb_spec s t);
        try reflexivity; lia.
    + lia.
    + apply Z.sgn_neg_iff in Hsgn.
      destruct (Z.ltb_spec (round_to_double s) t), (Z.ltb_spec s t);
        try reflexivity; lia.
Qed.

Lemma must_be_int_Return (v : number) (z : Z) :
  Sql.must_be_int v = Return z <-> v = Int z /\ - 2 ^ 63 < z < 2 ^ 63.
Proof.
  unfold Sql.must_be_int. destruct v as [| |x]; try (split; [discriminate|]).
  - intros [H _]. discriminate.
  - intros [H _]. discriminate.
  - destruct (Z.ltb_spec (- 2 ^ 63) x), (Z.ltb_spec x (2 ^ 63)); cbn [andb];
      split; try discriminate.
    + intros [= <-]. split; [reflexivity | lia].
    + intros [[= <-] _]. reflexivity.
    + intros [[= <-] ?]. lia.
    + intros [[= <-] ?]. lia.
    + intros [[= <-] ?]. lia.
Qed.

Lemma must_be_int_Throw (v : number) :
  (forall z, v = Int z -> z <= - 2 ^ 63 \/ 2 ^ 63 <= z) ->
  Sql.must_be_int v = Throw "datatype mismatch".
Proof.
  intros H. unfold Sql.must_be_int. destruct v as [| |x]; try reflexivity.
  destruct (H x eq_refl);
    destruct (Z.ltb_spec (- 2 ^ 63) x), (Z.ltb_spec x (2 ^ 63));
    try reflexivity; lia.
Qed.

Lemma must_be_int_cases (v : number) :
  (exists z, Sql.must_be_int v = Return z)
  \/ Sql.must_be_int v = Throw "datatype mismatch".
Proof.
  unfold Sql.must_be_int. destruct v as [| |x]; try (now right).
  destruct ((- 2 ^ 63 <? x) && (x <? 2 ^ 63)); [left; now exists x | now right].
Qed.

(** *** The listing *)

Lemma getAllUrls_eq (limit offset : number) (l o : Z) (w : World) (d : Database) :
  db w = Some d ->
  Sql.must_be_int limit = Return l -> Sql.must_be_int offset = Return o ->
  DatabaseManager.getAllUrls limit offset w
  = (Return (Sql.limit_offset l o (Sql.order_by Sql.uploadedAt_desc (rows d))), w).
Proof.
  intros Hd Hl Ho.
  unfold DatabaseManager.getAllUrls, bind, DatabaseManager.the_db,
    DatabaseManager.result, Sql.select_page.
  rewrite Hd, Hl, Ho. reflexivity.
Qed.

Lemma getAllUrls_mismatch (limit offset : number) (w : World) (d : Database) :
  db w = Some d ->
  Sql.must_be_int limit = Throw "datatype mismatch"
  \/ Sql.must_be_int offset = Throw "datatype mismatch" ->
  DatabaseManager.getAllUrls limit offset w = (Throw "datatype mismatch", w).
Proof.
  intros Hd H.
  unfold DatabaseManager.getAllUrls, bind, DatabaseManager.the_db,
    DatabaseManager.result, Sql.select_page.
  rewrite Hd. destruct H as [H|H].
  - now rewrite H.
  - rewrite H. destruct (must_be_int_cases limit) as [[l ->] | ->]; reflexivity.
Qed.

Lemma GET_urls_eq (query : Query.t) (w : World) (d : Database) (l o : Z) :
  db w = Some d ->
  or_number (parseInt (Query.limit query)) 100 = Int l -> - 2 ^ 63 < l < 2 ^ 63 ->
  or_number (parseInt (Query.offset query)) 0 = Int o -> - 2 ^ 63 < o < 2 ^ 63 ->
  GET_urls query w
  = (Return
       (mkResponse 200
          (Page
             (Sql.limit_offset l o (Sql.order_by Sql.uploadedAt_desc (rows d)))
             (Pagination.mk (Int l) (Int o) (Z.of_nat (length (rows d)))
                (number_lt (double_of_Z (o + l)) (Z.of_nat (length (rows d))))))),
     w).
Proof.
  intros Hd Hl Hlr Ho Hor.
  unfold GET_urls. rewrite Hl, Ho. unfold bind at 1.
  rewrite (getAllUrls_eq (Int l) (Int o) l o w d Hd)
    by (apply must_be_int_Return; split; [reflexivity | assumption]).
  unfold bind, DatabaseManager.getTotalCount, bind, DatabaseManager.the_db, ret.
  rewrite Hd. reflexivity.
Qed.

Lemma GET_urls_mismatch (query : Query.t) (w : World) (d : Database) :
  db w = Some d ->
  (forall l, or_number (parseInt (Query.limit query)) 100 = Int l ->
             l <= - 2 ^ 63 \/ 2 ^ 63 <= l)
  \/ (forall o, or_number (parseInt (Query.offset query)) 0 = Int o ->
                o <= - 2 ^ 63 \/ 2 ^ 63 <= o) ->
  GET_urls query w = (Throw "datatype mismatch", w).
Proof.
  intros Hd H. unfold GET_urls. unfold bind at 1.
  rewrite (getAllUrls_mismatch _ _ w d Hd); [reflexivity|].
  destruct H as [H|H]; [left | right]; now apply must_be_int_Throw.
Qed.

(** C7 (as stated, fails). With [limit=-1] the listing of a one-record
    store returns that record: more than [limit] records. *)
Lemma GET_urls_negative_limit_returns_all :
  exists data pg,
    GET_urls (Query.mk (Some "-1") None None) (sample_world (Some one_row) one_file)
    = (Return (mkResponse 200 (Page data pg)), sample_world (Some one_row) one_file)
    /\ Pagination.limit pg = Int (-1)
    /\ length data = 1%nat
    /\ ~ (Z.of_nat (length data) <= -1).
Proof.
  eexists _, _. split; [vm_compute; reflexivity|].
  split; [reflexivity|]. split; [reflexivity|]. simpl. lia.
Qed.

(** For a limit of 2^63 the statement is refused and the handler throws:
    no page is returned. *)
Example GET_urls_limit_out_of_range :
  GET_urls (Query.mk (Some "9223372036854775808") None None)
    (sample_world (Some one_row) one_file)
  = (Throw "datatype mismatch", sample_world (Some one_row) one_file).
Proof. vm_compute. reflexivity. Qed.

(** [parseInt] returns a double: 2^53 + 1 is read as 2^53. *)
Example parseInt_rounds :
  parseInt (Some "9007199254740993") = Int 9007199254740992.
Proof. vm_compute. reflexivity. Qed.

(** C7 (amended). [limit] and [offset] are the query values as [parseInt]
    reads them, 100 and 0 when absent, not a number, or zero. When both lie
    strictly between -2^63 and 2^63, [GET /urls] answers with the page and
    with [pagination = {limit, offset, total, hasMore}], where [total]
    counts all records and [hasMore] is [offset + limit < total], the sum
    taken in floating point, which makes no difference for a total of up
    to 2^53. The page is cut from the records ordered by [uploadedAt]
    descending, those with the same [uploadedAt] by id descending: it
    skips [offset] records (none for a negative offset) and, for a limit
    that is not negative, holds at most [limit] records; for a negative
    limit it holds all the remaining ones. With 5 records, [limit=2] and
    [offset=0] it holds exactly 2 records and [hasMore] is true. When the
    limit or the offset is not strictly between -2^63 and 2^63, the
    handler throws "datatype mismatch" and returns no page. *)
Theorem GET_urls_page (w : World) (d : Database) (query : Query.t) :
  db w = Some d ->
  (forall limit offset,
     or_number (parseInt (Query.limit query)) 100 = Int limit ->
     or_number (parseInt (Query.offset query)) 0 = Int offset ->
     - 2 ^ 63 < limit < 2 ^ 63 -> - 2 ^ 63 < offset < 2 ^ 63 ->
     exists data pg sorted,
       GET_urls query w = (Return (mkResponse 200 (Page data pg)), w)
       /\ Pagination.limit pg = Int limit
       /\ Pagination.offset pg = Int offset
       /\ Pagination.total pg = Z.of_nat (length (rows d))
       /\ Pagination.hasMore pg
          = number_lt (number_add (Int offset) (Int limit)) (Pagination.total pg)
       /\ (Pagination.total pg <= 2 ^ 53 ->
           Pagination.hasMore pg = (offset + limit <? Pagination.total pg))
       /\ Permutation (rows d) sorted
       /\ StronglySorted newest_first sorted
       /\ data = (if limit <? 0
                  then skipn (Z.to_nat offset) sorted
                  else firstn (Z.to_nat limit) (skipn (Z.to_nat offset) sorted))
       /\ StronglySorted newest_first data
       /\ (0 <= limit ->
           Z.of_nat (length data) <= limit
           /\ Z.of_nat (length data)
              = Z.min limit
                  (Z.max 0 (Pagination.total pg - Z.max 0 offset)))
       /\ (length (rows d) = 5%nat ->
           Query.limit query = Some "2" -> Query.offset query = Some "0" ->
           length data = 2%nat /\ Pagination.hasMore pg = true))
  /\ ((forall limit, or_number (parseInt (Query.limit query)) 100 = Int limit ->
                     limit <= - 2 ^ 63 \/ 2 ^ 63 <= limit)
      \/ (forall offset, or_number (parseInt (Query.offset query)) 0 = Int offset ->
                         offset <= - 2 ^ 63 \/ 2 ^ 63 <= offset) ->
      GET_urls query w = (Throw "datatype mismatch", w)).
Proof.
  intros Hd. split; [|now apply (GET_urls_mismatch query w d)].
  intros limit offset Hl Ho Hlr Hor.
  set (sorted := Sql.order_by Sql.uploadedAt_desc (rows d)).
  assert (Hsorted : StronglySorted newest_first sorted)
    by apply order_by_uploadedAt_sorted.
  assert (Hlen : length sorted = length (rows d)).
  { symmetry. apply Permutation_length, order_by_perm. }
  eexists _, _, sorted.
  split; [exact (GET_urls_eq query w d limit offset Hd Hl Hlr Ho Hor)|].
  cbn [Pagination.limit Pagination.offset Pagination.total Pagination.hasMore].
  split; [reflexivity|]. split; [reflexivity|]. split; [reflexivity|].
  split; [reflexivity|].
  split.
  { intros Ht. apply number_lt_double. lia. }
  split; [apply order_by_perm|].
  split; [exact Hsorted|].
  split; [reflexivity|].
  split; [now apply limit_offset_sorted|].
  split.
  - intros Hl0. fold sorted.
    rewrite (limit_offset_length _ _ _ Hl0), Hlen. lia.
  - intros H5 Hlim Hoff. rewrite Hlim in Hl. rewrite Hoff in Ho.
    assert (limit = 2) as -> by (vm_compute in Hl; congruence).
    assert (offset = 0) as -> by (vm_compute in Ho; congruence).
    rewrite H5. split; [|reflexivity].
    pose proof (limit_offset_length 2 0 sorted) as Hl2.
    rewrite Hlen, H5 in Hl2. specialize (Hl2 ltac:(lia)). fold sorted.
    simpl in Hl2. lia.
Qed.

Lemma GET_urls_page_witness :
  exists data pg sorted,
    GET_urls (Query.mk (Some "2") (Some "0") None)
      (sample_world (Some one_row) one_file)
    = (Return (mkResponse 200 (Page data pg)),
       sample_world (Some one_row) one_file)
    /\ Pagination.limit pg = Int 2
    /\ Permutation (rows one_row) sorted.
Proof.
  destruct (proj1 (GET_urls_page (sample_world (Some one_row) one_file) one_row
                     (Query.mk (Some "2") (Some "0") None) eq_refl)
              2 0 eq_refl eq_refl)
    as (data & pg & sorted & Hrun & Hl & _ & _ & _ & _ & Hp & _).
  - rewrite pow2_63. lia.
  - rewrite pow2_63. lia.
  - exists data, pg, sorted. split; [exact Hrun|]. split; [exact Hl | exact Hp].
Defined.

(** ** Statistics *)

Lemma formatBytes_zero (decimals : Z) : formatBytes 0 decimals = "0 Bytes".
Proof. reflexivity. Qed.

(** C9. On an empty store [getStats] returns zero for the count, the total
    size, the total access count and the average size; [GET /stats]
    returns normally and shows the average file size as "0 Bytes".
    [formatBytes] answers "0 Bytes" for zero before it takes a logarithm,
    and the average over no rows is NULL, not a quotient. *)
Theorem stats_of_empty_store (w : World) (d : Database) :
  db w = Some d -> rows d = [] ->
  DatabaseManager.getStats w = (Return (Stats.mk 0 0 0 0), w)
  /\ Sql.AVG (List.map UrlRecord.size (rows d)) = None
  /\ (forall decimals, formatBytes (Stats.avgFileSize (Stats.mk 0 0 0 0)) decimals
                       = "0 Bytes")
  /\ exists data,
       GET_stats w = (Return (mkResponse 200 (Statistics data (now_iso w))), w)
       /\ StatsData.totalUrls data = 0
       /\ StatsData.totalAccess data = 0
       /\ StatsData.avgFileSize data = "0 Bytes".
Proof.
  intros Hd Hrows.
  assert (Hstats : DatabaseManager.getStats w = (Return (Stats.mk 0 0 0 0), w)).
  { unfold DatabaseManager.getStats, bind, DatabaseManager.the_db, ret.
    rewrite Hd. cbv beta iota. unfold Sql.count_all. rewrite Hrows. reflexivity. }
  split; [exact Hstats|].
  split; [now rewrite Hrows|].
  split; [intros decimals; reflexivity|].
  unfold GET_stats. unfold bind at 1. unfold FileManager.getStorageStats at 1.
  unfold bind at 1. rewrite Hstats. unfold bind, ask, ret.
  eexists. split; [reflexivity|]. repeat split.
Qed.

Lemma stats_of_empty_store_witness :
  db (sample_world (Some empty_urls) ∅) = Some empty_urls
  /\ rows empty_urls = []
  /\ DatabaseManager.getStats (sample_world (Some empty_urls) ∅)
     = (Return (Stats.mk 0 0 0 0), sample_world (Some empty_urls) ∅).
Proof.
  split; [reflexivity|]. split; [reflexivity|].
  apply (stats_of_empty_store (sample_world (Some empty_urls) ∅) empty_urls);
    reflexivity.
Defined.

(** ** Search *)

Lemma bytes_eqb_eq (a b : list ascii) : Sql.bytes_eqb a b = true <-> a = b.
Proof.
  revert b. induction a as [|x a IH]; intros [|y b]; simpl;
    try (split; [discriminate | discriminate]); [tauto|].
  rewrite andb_true_iff, Ascii.eqb_eq, IH. split.
  - intros [-> ->]. reflexivity.
  - intros [= -> ->]. tauto.
Qed.

Lemma bytes_eqb_refl (a : list ascii) : Sql.bytes_eqb a a = true.
Proof. now apply bytes_eqb_eq. Qed.








(** *** The characters of a pattern *)









(** What [contains_nocase] computes: some run of characters of the name
    equals the query up to the case of letters. *)
Lemma prefix_nocase_spec (q t : list (list ascii)) :
  prefix_nocase q t = true
  <-> exists mid post,
        t = mid ++ post
        /\ List.map (List.map Sql.to_lower) mid
           = List.map (List.map Sql.to_lower) q.
Proof.
  revert t. induction q as [|c q IH]; intros t.
  - split; [intros _; now exists [], t|reflexivity].
  - destruct t as [|d t]; simpl.
    + split; [discriminate|]. intros (mid & post & Ht & Hm).
      destruct mid; [discriminate Hm | discriminate Ht].
    + unfold Sql.same_nocase. rewrite andb_true_iff, bytes_eqb_eq, IH. split.
      * intros (Hc & mid & post & -> & Hm). exists (d :: mid), post.
        split; [reflexivity|]. simpl. now rewrite Hc, Hm.
      * intros (mid & post & Ht & Hm). destruct mid as [|m mid]; [discriminate Hm|].
        simpl in Ht, Hm. injection Ht as -> ->. injection Hm as Hc Hm.
        split; [now symmetry|]. now exists mid, post.
Qed.

Lemma contains_nocase_spec (name query : string) :
  contains_nocase name query = true
  <-> exists pre mid post,
        Sql.text name = pre ++ mid ++ post
        /\ List.map (List.map Sql.to_lower) mid
           = List.map (List.map Sql.to_lower) (Sql.text query).
Proof.
  unfold contains_nocase.
  generalize (Sql.text query) as q.
  generalize (Sql.text name) as t.
  intros t q. induction t as [|d t IH]; simpl.
  - rewrite orb_false_r, prefix_nocase_spec. split.
    + intros (mid & post & Ht & Hm). now exists [], mid, post.
    + intros (pre & mid & post & Ht & Hm).
      destruct pre; [|discriminate Ht]. now exists mid, post.
  - rewrite orb_true_iff, prefix_nocase_spec, IH. split.
    + intros [(mid & post & Ht & Hm) | (pre & mid & post & Ht & Hm)].
      * now exists [], mid, post.
      * exists (d :: pre), mid, post. split; [simpl; now rewrite Ht | exact Hm].
    + intros (pre & mid & post & Ht & Hm). destruct pre as [|x pre].
      * left. now exists mid, post.
      * right. simpl in Ht. injection Ht as -> ->. now exists pre, mid, post.
Qed.

(** For a text of ASCII characters without NUL, every byte is a
    character. *)
Example text_ascii : Sql.text "a_b" = [["a"%char]; ["_"%char]; ["b"%char]].
Proof. reflexivity. Qed.

(** *** The handler *)


Lemma pattern_length (q : string) :
  Z.of_nat (String.length ("%" +:+ q +:+ "%")) = Z.of_nat (String.length q) + 2.
Proof. rewrite !string_length_app. simpl. lia. Qed.



(** A pattern of more than 50000 bytes is refused as soon as [LIKE] is
    evaluated on a row. *)
Lemma GET_urls_search_too_long (query : Query.t) (q : string) (w : World)
    (d : Database) :
  db w = Some d -> Query.q query = Some q -> rows d <> [] ->
  Sql.MAX_LIKE_PATTERN_LENGTH < Z.of_nat (String.length q) + 2 ->
  GET_urls_search query w = (Throw "LIKE or GLOB pattern too complex", w).
Proof.
  intros Hd Hq Hrows Hlen. unfold GET_urls_search. rewrite Hq.
  destruct q as [|c q']; [simpl in Hlen; unfold Sql.MAX_LIKE_PATTERN_LENGTH in Hlen; lia|].
  unfold or_string. cbn [String.eqb].
  unfold bind, DatabaseManager.searchUrls, bind,
    DatabaseManager.the_db, DatabaseManager.result, ret.
  rewrite Hd. cbv beta iota. unfold Sql.select_like.
  change (Sql.must_be_int (Int 50)) with (@Return Z 50). cbv iota.
  destruct (rows d) as [|r l]; [congruence|].
  change (50 =? 0) with false. cbv iota.
  rewrite <- pattern_length in Hlen.
  destruct (Z.ltb_spec Sql.MAX_LIKE_PATTERN_LENGTH
              (Z.of_nat (String.length ("%" +:+ String c q' +:+ "%"))))
    as [_|?]; [reflexivity | lia].
Qed.

Lemma select_like_In (pattern : string) (limit : number) (d : Database)
    (data : list UrlRecord) (r : UrlRecord) :
  Sql.select_like pattern limit d = Return data -> In r data ->
  In r (rows d) /\ Sql.like (UrlRecord.originalName r) pattern = true.
Proof.
  unfold Sql.select_like. intros Hrun Hin.
  destruct (Sql.must_be_int limit) as [l|e]; [|discriminate Hrun].
  rewrite <- (List.filter_In
                (fun r => Sql.like (UrlRecord.originalName r) pattern)).
  remember (List.filter
              (fun r => Sql.like (UrlRecord.originalName r) pattern) (rows d))
    as matched eqn:Hm. clear Hm.
  destruct (rows d) as [|x rest] eqn:Hrows.
  { injection Hrun as <-. destruct Hin. }
  destruct (l =? 0); [injection Hrun as <-; destruct Hin|].
  destruct (Sql.MAX_LIKE_PATTERN_LENGTH <? Z.of_nat (String.length pattern));
    [discriminate Hrun|].
  injection Hrun as <-.
  apply limit_offset_In in Hin.
  exact (Permutation_in r (Permutation_sym (order_by_perm _ _)) Hin).
Qed.



(** The characters [_] and [%] of a query are wildcards of [LIKE]: the
    query [_] finds a name that has no underscore in it. *)
Example GET_urls_search_underscore :
  GET_urls_search (Query.mk None None (Some "_")) (sample_world (Some one_row) ∅)
  = (Return (mkResponse 200 (SearchResult (rows one_row) "_")),
     sample_world (Some one_row) ∅)
  /\ contains_nocase "notes.txt" "_" = false.
Proof. split; vm_compute; reflexivity. Qed.



(** ** The access count over the life of the store *)

Lemma run_call_db (c : Call) (w : World) (d : Database) :
  db w = Some d ->
  db (snd (run_call c w)) = Some (effect c (now_iso w) d).
Proof.
  intros Hd.
  destruct c; unfold run_call, discard, DatabaseManager.insertUrl,
    DatabaseManager.getUrlByShortCode, DatabaseManager.isShortCodeUsed,
    DatabaseManager.incrementAccessCount, DatabaseManager.getAllUrls,
    DatabaseManager.getTotalCount, DatabaseManager.getStats,
    DatabaseManager.deleteUrl, DatabaseManager.searchUrls,
    DatabaseManager.getMostAccessedUrls, DatabaseManager.getRecentUploads,
    bind, ret, throw, ask, DatabaseManager.the_db, DatabaseManager.put_db,
    DatabaseManager.result;
    rewrite Hd; cbn [effect]; try (simpl; now rewrite ?Hd);
    try (match goal with
         | |- context [Sql.select_page ?a ?b ?c] => destruct (Sql.select_page a b c)
         | |- context [Sql.select_like ?a ?b ?c] => destruct (Sql.select_like a b c)
         | |- context [Sql.select_most_accessed ?a ?b] =>
             destruct (Sql.select_most_accessed a b)
         | |- context [Sql.select_recent ?a ?b] => destruct (Sql.select_recent a b)
         end; simpl; now rewrite ?Hd).
  unfold Sql.insert_into_urls.
  destruct (existsb _ (rows d)); simpl; now rewrite ?Hd.
Qed.

Lemma run_call_db_closed (c : Call) (w : World) :
  db w = None -> db (snd (run_call c w)) = None.
Proof.
  intros Hd.
  destruct c; unfold run_call, discard, DatabaseManager.insertUrl,
    DatabaseManager.getUrlByShortCode, DatabaseManager.isShortCodeUsed,
    DatabaseManager.incrementAccessCount, DatabaseManager.getAllUrls,
    DatabaseManager.getTotalCount, DatabaseManager.getStats,
    DatabaseManager.deleteUrl, DatabaseManager.searchUrls,
    DatabaseManager.getMostAccessedUrls, DatabaseManager.getRecentUploads,
    bind, ret, throw, ask, DatabaseManager.the_db, DatabaseManager.put_db,
    DatabaseManager.result;
    rewrite Hd; simpl; exact Hd.
Qed.

Lemma id_below_next_rowid (d : Database) (r : UrlRecord) :
  In r (rows d) -> UrlRecord.id r < Sql.next_rowid d.
Proof.
  unfold Sql.next_rowid. intros Hin.
  assert (UrlRecord.id r <= fold_right Z.max 0 (List.map UrlRecord.id (rows d))).
  { induction (rows d) as [|x l IH]; [destruct Hin|].
    simpl. destruct Hin as [->|Hin]; [lia|]. specialize (IH Hin). lia. }
  lia.
Qed.

Lemma NoDup_map_eq {A B} (f : A -> B) (l : list A) (a b : A) :
  List.NoDup (List.map f l) -> In a l -> In b l -> f a = f b -> a = b.
Proof.
  induction l as [|x l IH]; intros Hnd Ha Hb Hf; [destruct Ha|].
  simpl in Hnd. inversion Hnd as [|? ? Hnotin Hnd']; subst.
  destruct Ha as [->|Ha], Hb as [->|Hb]; try reflexivity.
  - exfalso. apply Hnotin. rewrite Hf. now apply List.in_map.
  - exfalso. apply Hnotin. rewrite <- Hf. now apply List.in_map.
  - now apply IH.
Qed.

Lemma NoDup_map_filter {A B} (f : A -> B) (p : A -> bool) (l : list A) :
  List.NoDup (List.map f l) -> List.NoDup (List.map f (List.filter p l)).
Proof.
  induction l as [|x l IH]; intros Hnd; simpl; [constructor|].
  simpl in Hnd. inversion Hnd as [|? ? Hnotin Hnd']; subst.
  destruct (p x); simpl; [|now apply IH].
  constructor; [|now apply IH].
  intros Hin. apply Hnotin. apply List.in_map_iff in Hin.
  destruct Hin as (y & Hy & Hin). apply List.filter_In in Hin.
  apply List.in_map_iff. exists y. tauto.
Qed.

Lemma NoDup_map_snoc {A B} (f : A -> B) (l : list A) (x : A) :
  List.NoDup (List.map f l) -> (forall y, In y l -> f y <> f x) ->
  List.NoDup (List.map f (l ++ [x])).
Proof.
  induction l as [|y l IH]; intros Hnd Hfresh; simpl.
  - repeat constructor. intros [].
  - simpl in Hnd. inversion Hnd as [|? ? Hnotin Hnd']; subst.
    constructor.
    + rewrite List.map_app, List.in_app_iff. intros [Hin | [Heq | []]].
      * exact (Hnotin Hin).
      * apply (Hfresh y); [now left | now symmetry].
    + apply IH; [exact Hnd'|]. intros z Hz. apply Hfresh. now right.
Qed.

Lemma update_access_fields (now code : string) (d : Database) :
  List.map UrlRecord.id (rows (Sql.update_access now code d))
  = List.map UrlRecord.id (rows d)
  /\ List.map UrlRecord.shortCode (rows (Sql.update_access now code d))
     = List.map UrlRecord.shortCode (rows d).
Proof.
  unfold Sql.update_access. simpl. rewrite !List.map_map.
  split; apply List.map_ext; intros r; now destruct (Sql.shortCode_is code r).
Qed.

Lemma existsb_shortCode_false (code : string) (l : list UrlRecord) :
  existsb (Sql.shortCode_is code) l = false ->
  forall y, In y l -> UrlRecord.shortCode y <> code.
Proof.
  intros H y Hy Heq.
  assert (existsb (Sql.shortCode_is code) l = true); [|congruence].
  apply List.existsb_exists. exists y. split; [exact Hy|].
  now apply String.eqb_eq.
Qed.

Lemma effect_store_ok (c : Call) (now : string) (d : Database) :
  store_ok d -> store_ok (effect c now d).
Proof.
  intros (Hid & Hcode & Hcount & Hseq). destruct c; try (now repeat split).
  - (* insert *)
    unfold effect, Sql.insert_into_urls.
    destruct (existsb _ (rows d)) eqn:Hex; [now repeat split|].
    simpl. split; [|split; [|split]].
    + simpl. apply NoDup_map_snoc; [exact Hid|]. intros y Hy. simpl.
      pose proof (id_below_next_rowid d y Hy). lia.
    + unfold shortCode_unique. simpl. apply NoDup_map_snoc; [exact Hcode|].
      simpl. now apply existsb_shortCode_false.
    + simpl. apply List.Forall_app. split; [exact Hcount|].
      repeat constructor. simpl. lia.
    + simpl. apply List.Forall_app. split.
      * apply List.Forall_forall. intros y Hy.
        pose proof (id_below_next_rowid d y Hy). lia.
      * repeat constructor. simpl. lia.
  - (* increment *)
    destruct (update_access_fields now shortCode d) as [Hi Hc].
    unfold effect. split; [|split; [|split]].
    + now rewrite Hi.
    + unfold shortCode_unique. now rewrite Hc.
    + unfold Sql.update_access. simpl. apply List.Forall_map.
      eapply List.Forall_impl; [|exact Hcount].
      intros r Hr. cbv beta in Hr |- *.
      destruct (Sql.shortCode_is shortCode r); simpl; lia.
    + unfold Sql.update_access. simpl. apply List.Forall_map.
      eapply List.Forall_impl; [|exact Hseq].
      intros r Hr. cbv beta in Hr |- *.
      destruct (Sql.shortCode_is shortCode r); simpl; lia.
  - (* delete *)
    unfold effect, Sql.delete_where_shortCode.
    split; [|split; [|split]]; simpl.
    + now apply NoDup_map_filter.
    + unfold shortCode_unique. simpl. now apply NoDup_map_filter.
    + apply List.Forall_forall. intros r Hr. apply List.filter_In in Hr.
      rewrite List.Forall_forall in Hcount. now apply Hcount.
    + apply List.Forall_forall. intros r Hr. apply List.filter_In in Hr.
      rewrite List.Forall_forall in Hseq. now apply Hseq.
Qed.

Lemma reachable_store_ok (w : World) :
  reachable w -> forall d, db w = Some d -> store_ok d.
Proof.
  induction 1 as [w H0 | w c Hr IH | w w' Hr IH Heq]; intros d Hd.
  - rewrite H0 in Hd. injection Hd as <-.
    repeat split; simpl; constructor.
  - destruct (db w) as [d0|] eqn:Hd0.
    + rewrite (run_call_db c w d0 Hd0) in Hd. injection Hd as <-.
      apply effect_store_ok. now apply IH.
    + rewrite (run_call_db_closed c w Hd0) in Hd. discriminate.
  - apply IH. now rewrite <- Heq.
Qed.

(** One call: the record with a given id has, after the call, a count at
    least as large as before, and a different one only after
    [incrementAccessCount] for its short code, which adds exactly 1; a
    record that was not there before the call was inserted by it, with
    count 0 and an id above the AUTOINCREMENT mark. *)
Lemma call_keeps_counts (w : World) (c : Call) (d : Database) :
  reachable w -> db w = Some d ->
  exists d',
    db (snd (run_call c w)) = Some d'
    /\ List.NoDup (List.map UrlRecord.id (rows d))
    /\ List.NoDup (List.map UrlRecord.id (rows d'))
    /\ (forall r r',
          In r (rows d) -> In r' (rows d') -> UrlRecord.id r = UrlRecord.id r' ->
          UrlRecord.accessCount r <= UrlRecord.accessCount r'
          /\ (UrlRecord.accessCount r' <> UrlRecord.accessCount r ->
              c = IncrementAccessCount (UrlRecord.shortCode r)
              /\ UrlRecord.accessCount r' = UrlRecord.accessCount r + 1))
    /\ (forall r',
          In r' (rows d') ->
          (forall r, In r (rows d) -> UrlRecord.id r <> UrlRecord.id r') ->
          UrlRecord.accessCount r' = 0
          /\ seq d < UrlRecord.id r'
          /\ exists data, c = InsertUrl data)
    /\ Forall (fun r' => 0 <= UrlRecord.accessCount r') (rows d')
    /\ seq d <= seq d'.
Proof.
  intros Hreach Hd.
  pose proof (reachable_store_ok w Hreach d Hd) as Hok.
  pose proof (effect_store_ok c (now_iso w) d Hok) as Hok'.
  destruct Hok as (Hid & Hcode & Hcount & Hseq).
  destruct Hok' as (Hid' & _ & Hcount' & _).
  exists (effect c (now_iso w) d).
  split; [exact (run_call_db c w d Hd)|].
  split; [exact Hid|]. split; [exact Hid'|].
  split; [|split; [|split; [exact Hcount'|]]].
  - (* records that were there before *)
    assert (Hsame : forall r r', In r (rows d) -> In r' (rows d) ->
              UrlRecord.id r = UrlRecord.id r' ->
              UrlRecord.accessCount r <= UrlRecord.accessCount r'
              /\ (UrlRecord.accessCount r' <> UrlRecord.accessCount r ->
                  c = IncrementAccessCount (UrlRecord.shortCode r)
                  /\ UrlRecord.accessCount r' = UrlRecord.accessCount r + 1)).
    { intros r r' Hr Hr' Heq.
      rewrite (NoDup_map_eq UrlRecord.id (rows d) r r' Hid Hr Hr' Heq).
      split; [lia | intros Hne; now contradiction Hne]. }
    intros r r' Hr Hr' Heq. destruct c; try (now apply Hsame).
    + (* insert *)
      unfold effect, Sql.insert_into_urls in Hr'.
      destruct (existsb _ (rows d)); [now apply Hsame|].
      simpl in Hr'. apply List.in_app_iff in Hr'.
      destruct Hr' as [Hr' | [<- | []]]; [now apply Hsame|].
      simpl in Heq. pose proof (id_below_next_rowid d r Hr). lia.
    + (* increment *)
      unfold effect, Sql.update_access in Hr'. simpl in Hr'.
      apply List.in_map_iff in Hr'. destruct Hr' as (x & <- & Hx).
      assert (x = r) as ->.
      { apply (NoDup_map_eq UrlRecord.id (rows d) x r Hid Hx Hr).
        rewrite Heq. now destruct (Sql.shortCode_is shortCode x). }
      unfold Sql.shortCode_is.
      destruct (String.eqb_spec (UrlRecord.shortCode r) shortCode) as [<-|Hne];
        simpl.
      * split; [lia|]. intros _. split; [reflexivity | lia].
      * split; [lia | intros H; now contradiction H].
    + (* delete *)
      apply Hsame; [exact Hr | | exact Heq].
      unfold effect, Sql.delete_where_shortCode in Hr'. simpl in Hr'.
      now apply List.filter_In in Hr'.
  - (* records that are new *)
    intros r' Hr' Hnew. destruct c;
      try (exfalso; now apply (Hnew r' Hr')).
    + unfold effect, Sql.insert_into_urls in Hr'.
      destruct (existsb _ (rows d)); [exfalso; now apply (Hnew r' Hr')|].
      simpl in Hr'. apply List.in_app_iff in Hr'.
      destruct Hr' as [Hr' | [<- | []]]; [exfalso; now apply (Hnew r' Hr')|].
      split; [reflexivity|]. split; [|now exists data].
      simpl. unfold Sql.next_rowid. lia.
    + unfold effect, Sql.update_access in Hr'. simpl in Hr'.
      apply List.in_map_iff in Hr'. destruct Hr' as (x & <- & Hx).
      exfalso. apply (Hnew x Hx). now destruct (Sql.shortCode_is shortCode x).
    + unfold effect, Sql.delete_where_shortCode in Hr'. simpl in Hr'.
      apply List.filter_In in Hr'. exfalso. now apply (Hnew r' (proj1 Hr')).
  - (* the AUTOINCREMENT mark *)
    destruct c; try (simpl; lia).
    unfold effect, Sql.insert_into_urls.
    destruct (existsb _ (rows d)); simpl; [lia|]. unfold Sql.next_rowid. lia.
Qed.


Lemma later_reachable (w w' : World) :
  reachable w -> later w w' -> reachable w'.
Proof.
  intros Hr Hl. induction Hl as [|w' c Hl IH|w' w'' Hl IH Heq].
  - exact Hr.
  - now apply reachable_call.
  - now apply (reachable_env w').
Qed.

Lemma later_counts (w w' : World) (d : Database) :
  reachable w -> db w = Some d -> later w w' ->
  exists d',
    db w' = Some d'
    /\ seq d <= seq d'
    /\ (forall r', In r' (rows d') ->
          (exists r, In r (rows d)
                     /\ UrlRecord.id r = UrlRecord.id r'
                     /\ UrlRecord.accessCount r <= UrlRecord.accessCount r')
          \/ seq d < UrlRecord.id r').
Proof.
  intros Hr Hd Hl. induction Hl as [|w' c Hl IH|w' w'' Hl IH Heq].
  - exists d. split; [exact Hd|]. split; [lia|].
    intros r' Hr'. left. exists r'. repeat split; [exact Hr' | lia].
  - destruct IH as (d1 & Hd1 & Hseq1 & Hold1).
    destruct (call_keeps_counts w' c d1 (later_reachable w w' Hr Hl) Hd1)
      as (d2 & Hd2 & Hid1 & _ & Hold & Hnew & _ & Hseq2).
    exists d2. split; [exact Hd2|]. split; [lia|].
    intros r2 Hr2.
    destruct (List.in_dec Z.eq_dec (UrlRecord.id r2)
                (List.map UrlRecord.id (rows d1))) as [Hin|Hnotin].
    + apply List.in_map_iff in Hin. destruct Hin as (r1 & Heq & Hr1).
      destruct (Hold r1 r2 Hr1 Hr2 Heq) as [Hle _].
      destruct (Hold1 r1 Hr1) as [(r & Hin & Hid & Hle0) | Hfresh].
      * left. exists r. split; [exact Hin|]. split; [congruence | lia].
      * right. lia.
    + right.
      assert (Hn : forall r, In r (rows d1) -> UrlRecord.id r <> UrlRecord.id r2).
      { intros r Hin Heq. apply Hnotin. rewrite <- Heq. now apply List.in_map. }
      destruct (Hnew r2 Hr2 Hn) as (_ & Hlt & _). lia.
  - destruct IH as (d1 & Hd1 & Hrest). exists d1.
    split; [now rewrite Heq | exact Hrest].
Qed.

(** C6. In a reachable store no record's access count ever decreases.
    Whatever method of [DatabaseManager] is called (insert, increment,
    delete or a query), the record with a given id has, after the call, a
    count at least as large as before, and a different one only after
    [incrementAccessCount] for its short code, which adds exactly 1; a
    record that was not there before the call was inserted by it with
    count 0. The same holds over any number of calls: a record found
    later under the same id has a count at least as large. Ids identify
    records: they are unique, and an id is not given out again. *)
Theorem accessCount_never_decreases (w : World) (d : Database) :
  reachable w -> db w = Some d ->
  (forall c : Call,
     exists d',
       db (snd (run_call c w)) = Some d'
       /\ List.NoDup (List.map UrlRecord.id (rows d))
       /\ List.NoDup (List.map UrlRecord.id (rows d'))
       /\ (forall r r',
             In r (rows d) -> In r' (rows d') ->
             UrlRecord.id r = UrlRecord.id r' ->
             UrlRecord.accessCount r <= UrlRecord.accessCount r'
             /\ (UrlRecord.accessCount r' <> UrlRecord.accessCount r ->
                 c = IncrementAccessCount (UrlRecord.shortCode r)
                 /\ UrlRecord.accessCount r' = UrlRecord.accessCount r + 1))
       /\ (forall r',
             In r' (rows d') ->
             (forall r, In r (rows d) -> UrlRecord.id r <> UrlRecord.id r') ->
             UrlRecord.accessCount r' = 0 /\ exists data, c = InsertUrl data))
  /\ (forall w' : World,
        later w w' ->
        exists d',
          db w' = Some d'
          /\ forall r r',
               In r (rows d) -> In r' (rows d') ->
               UrlRecord.id r = UrlRecord.id r' ->
               UrlRecord.accessCount r <= UrlRecord.accessCount r').
Proof.
  intros Hreach Hd. split.
  - intros c.
    destruct (call_keeps_counts w c d Hreach Hd)
      as (d' & Hd' & Hid & Hid' & Hold & Hnew & _).
    exists d'. split; [exact Hd'|]. split; [exact Hid|]. split; [exact Hid'|].
    split; [exact Hold|].
    intros r' Hr' Hfresh. destruct (Hnew r' Hr' Hfresh) as (H0 & _ & Hins).
    split; [exact H0 | exact Hins].
  - intros w' Hl.
    destruct (later_counts w w' d Hreach Hd Hl) as (d' & Hd' & _ & Hold).
    exists d'. split; [exact Hd'|]. intros r r' Hr Hr' Heq.
    destruct (reachable_store_ok w Hreach d Hd) as (Hid & _ & _ & Hseq).
    destruct (Hold r' Hr') as [(r0 & Hr0 & Hid0 & Hle) | Hfresh].
    + assert (r0 = r) as ->; [|exact Hle].
      apply (NoDup_map_eq UrlRecord.id (rows d) r0 r Hid Hr0 Hr). congruence.
    + rewrite List.Forall_forall in Hseq. specialize (Hseq r Hr).
      cbv beta in Hseq. lia.
Qed.

Lemma accessCount_never_decreases_witness :
  reachable (sample_world (Some empty_urls) ∅)
  /\ db (sample_world (Some empty_urls) ∅) = Some empty_urls
  /\ exists d',
       db (snd (run_call
                  (InsertUrl (NewUrl.mk "AAAAAA" "1700000000000-AAAAAA.txt"
                                "notes.txt" "2023-11-14T22:13:20.000Z" 12
                                "text/plain"))
                  (sample_world (Some empty_urls) ∅))) = Some d'
       /\ List.NoDup (List.map UrlRecord.id (rows d')).
Proof.
  assert (Hreach : reachable (sample_world (Some empty_urls) ∅))
    by (apply reachable_init; reflexivity).
  split; [exact Hreach|]. split; [reflexivity|].
  destruct (proj1 (accessCount_never_decreases
                     (sample_world (Some empty_urls) ∅) empty_urls Hreach eq_refl)
              (InsertUrl (NewUrl.mk "AAAAAA" "1700000000000-AAAAAA.txt"
                            "notes.txt" "2023-11-14T22:13:20.000Z" 12
                            "text/plain")))
    as (d' & Hrun & _ & Hnd & _).
  exists d'. split; [exact Hrun | exact Hnd].
Defined.

Example insert_then_two_accesses :
  db (snd ((DatabaseManager.insertUrl
              (NewUrl.mk "AAAAAA" "1700000000000-AAAAAA.txt" "notes.txt"
                 "2023-11-14T22:13:20.000Z" 12 "text/plain") ;;;
            DatabaseManager.incrementAccessCount "AAAAAA" ;;;
            DatabaseManager.incrementAccessCount "AAAAAA")
           (sample_world (Some empty_urls) ∅)))
  = Some (mkDatabase
            [UrlRecord.mk 1 "AAAAAA" "1700000000000-AAAAAA.txt" "notes.txt"
               "2023-11-14T22:13:20.000Z" 12 "text/plain" 2
               (Some "2023-11-14T22:13:20.000Z")]
            1 1).
Proof. vm_compute. reflexivity. Qed.

(** ** Uploads *)

Arguments path.extname : simpl never.
Arguments Z_to_string : simpl never.
Arguments formatBytes_default : simpl never.

Lemma POST_upload_missing (request : Request.t) (fd : FormData) (w : World) :
  Request.formData request = Some fd ->
  (FormData_get fd "file" = None
   \/ exists s, FormData_get fd "file" = Some (StringValue s)) ->
  POST_upload request w
  = (Return (mkResponse 400 (Failure "No file uploaded" "MISSING_FILE")), w).
Proof.
  intros Hfd Hget. unfold POST_upload, try_catch, bind. rewrite Hfd.
  unfold ret at 1. destruct Hget as [-> | [s ->]]; reflexivity.
Qed.

Lemma POST_upload_too_large (request : Request.t) (fd : FormData)
    (file : File.t) (w : World) :
  Request.formData request = Some fd ->
  FormData_get fd "file" = Some (FileValue file) ->
  File.size file > CONFIG.MAX_FILE_SIZE ->
  POST_upload request w
  = (Return (mkResponse 413
               (Failure "File too large. Maximum size is 50 MB"
                  "FILE_TOO_LARGE")), w).
Proof.
  intros Hfd Hget Hsize. unfold POST_upload, try_catch, bind. rewrite Hfd.
  unfold ret at 1. rewrite Hget.
  replace (File.size file >? CONFIG.MAX_FILE_SIZE) with true
    by (symmetry; apply Z.gtb_lt; lia).
  reflexivity.
Qed.

Lemma POST_upload_accepted (request : Request.t) (fd : FormData)
    (file : File.t) (w : World) (d : Database) (code : string) (n : nat) :
  Request.formData request = Some fd ->
  FormData_get fd "file" = Some (FileValue file) ->
  File.size file <= CONFIG.MAX_FILE_SIZE ->
  db w = Some d ->
  generateUniqueShortCode w = (Return code, set_drawn (drawn w + n) w) ->
  POST_upload request w
    = (if disk_full w then
         (Return (mkResponse 500
                    (Failure "Upload failed" "ENOSPC: no space left on device")),
          set_drawn (drawn w + n) w)
       else if existsb (Sql.shortCode_is code) (rows d) then
         (Return (mkResponse 500
                    (Failure "Upload failed"
                       "UNIQUE constraint failed: urls.shortCode")),
          set_files (<[upload_path w file code := File.content file]> (files w))
            (set_drawn (drawn w + n) w))
       else
         (Return (mkResponse 201
                    (Uploaded (upload_data w request file code) (now_iso w))),
          set_db (Some (mkDatabase (rows d ++ [upload_row w d file code])
                          (Sql.next_rowid d) 1))
            (set_files (<[upload_path w file code := File.content file]> (files w))
               (set_drawn (drawn w + n) w)))).
Proof.
  intros Hfd Hget Hsize Hd Hgen.
  unfold POST_upload, try_catch. unfold bind at 1. rewrite Hfd.
  unfold ret at 1. rewrite Hget.
  replace (File.size file >? CONFIG.MAX_FILE_SIZE) with false
    by (symmetry; rewrite Z.gtb_ltb; apply Z.ltb_ge; lia).
  unfold bind at 1. rewrite Hgen.
  unfold bind at 1. unfold ask at 1.
  unfold bind at 1. unfold fs.writeFile at 1.
  change (disk_full (set_drawn (drawn w + n) w)) with (disk_full w).
  destruct (disk_full w); [reflexivity|].
  unfold bind at 1. unfold DatabaseManager.insertUrl at 1.
  unfold bind at 1. unfold DatabaseManager.the_db at 1.
  cbn [db set_files set_drawn]. rewrite Hd.
  unfold Sql.insert_into_urls. cbn [NewUrl.shortCode].
  destruct (existsb (Sql.shortCode_is code) (rows d)); reflexivity.
Qed.

Lemma existsb_count (code : string) (d : Database) :
  existsb (Sql.shortCode_is code) (rows d)
  = (Sql.count_where_shortCode code d >? 0).
Proof.
  unfold Sql.count_where_shortCode.
  induction (rows d) as [|r l IH]; [reflexivity|].
  simpl. destruct (Sql.shortCode_is code r); simpl; [|exact IH].
  symmetry. apply Z.gtb_lt. lia.
Qed.

Lemma shape_regex (s : string) :
  (String.length s = 6%nat \/ String.length s = 8%nat) ->
  forallb is_alnum (list_ascii_of_string s) = true ->
  shortCode_regex_test s = true.
Proof.
  intros Hlen Hal. unfold shortCode_regex_test. rewrite Hal.
  destruct Hlen as [-> | ->]; reflexivity.
Qed.

Lemma generated_code (w : World) (d : Database) :
  db w = Some d -> random_in_unit w ->
  exists code n,
    generateUniqueShortCode w = (Return code, set_drawn (drawn w + n) w)
    /\ shortCode_regex_test code = true
    /\ ((exists k, (k < 10)%nat /\ check_says w (nth_draw w k) false) ->
        existsb (Sql.shortCode_is code) (rows d) = false).
Proof.
  intros Hd Hr.
  destruct (generateUnique_while_spec maxAttempts w d Hd Hr)
    as (code & n & Heq & Hcase).
  exists code, n. split; [exact Heq|].
  destruct Hcase as [(k & Hk & -> & -> & Hbefore & Hfree) | (-> & -> & Hall)].
  - split.
    + destruct (code_from_shape (random w) (drawn w + 6 * k) 6 Hr) as [Hl Ha].
      apply shape_regex; [left; exact Hl | exact Ha].
    + intros _. rewrite existsb_count. unfold check_says in Hfree.
      rewrite (isShortCodeUsed_eq _ w d Hd) in Hfree. simpl in Hfree.
      congruence.
  - split.
    + destruct (code_from_shape (random w) (drawn w + 6 * maxAttempts) 8 Hr)
        as [Hl Ha].
      apply shape_regex; [right; exact Hl | exact Ha].
    + intros (k & Hk & Hfree). specialize (Hall k Hk).
      pose proof (check_says_functional _ _ _ _ Hall Hfree). discriminate.
Qed.







Example POST_upload_sample :
  fst (POST_upload sample_request (sample_world (Some one_row) ∅))
  = Return
      (mkResponse 201
         (Uploaded
            (UploadData.mk "BBBBBB" "http://example.org/BBBBBB"
               "http://example.org/file/1700000000000-BBBBBB.txt"
               "notes.txt" 2 "2 Bytes" "text/plain")
            "2023-11-14T22:13:20.000Z")).
Proof. vm_compute. reflexivity. Qed.

(* ================================================================== *)
(** * Further properties of the code *)
(* ================================================================== *)

(** ** [generateShortCode] *)

(** X1. [generateShortCode(length)] consumes [length] random numbers and
    returns a string of exactly [length] characters, all of them letters or
    digits; a length of zero or less gives the empty string and consumes
    nothing. For a length of 6, 7 or 8 the result passes the format check of
    [GET /:shortCode]. *)
Theorem generateShortCode_length_and_alphabet (w : World) (length : Z) :
  random_in_unit w ->
  exists code,
    generateShortCode length w
    = (Return code, set_drawn (drawn w + Z.to_nat length) w)
    /\ String.length code = Z.to_nat length
    /\ forallb is_alnum (list_ascii_of_string code) = true
    /\ (length <= 0 -> code = "")
    /\ (6 <= length <= 8 -> shortCode_regex_test code = true).
Proof.
  intros Hr.
  exists (code_from (random w) (drawn w) (Z.to_nat length)).
  destruct (code_from_shape (random w) (drawn w) (Z.to_nat length) Hr) as [Hl Ha].
  split.
  { unfold generateShortCode. rewrite generateShortCode_loop_eq. reflexivity. }
  split; [exact Hl|]. split; [exact Ha|]. split.
  - intros Hneg. replace (Z.to_nat length) with 0%nat by lia. reflexivity.
  - intros Hrange. unfold shortCode_regex_test. rewrite Ha, Hl.
    rewrite andb_true_r. apply andb_true_iff. split; apply Nat.leb_le; lia.
Qed.

Lemma generateShortCode_length_and_alphabet_witness :
  exists code,
    generateShortCode 7 (sample_world None ∅)
    = (Return code, set_drawn (drawn (sample_world None ∅) + Z.to_nat 7)
                      (sample_world None ∅))
    /\ String.length code = Z.to_nat 7
    /\ forallb is_alnum (list_ascii_of_string code) = true
    /\ (7 <= 0 -> code = "")
    /\ (6 <= 7 <= 8 -> shortCode_regex_test code = true).
Proof.
  apply (generateShortCode_length_and_alphabet (sample_world None ∅) 7).
  intros i. simpl. destruct (i <? 6)%nat; split; try discriminate; reflexivity.
Defined.

(** ** Insert and lookup *)

Lemma find_snoc {A} (p : A -> bool) (l : list A) (x : A) :
  List.find p (l ++ [x])
  = match List.find p l with
    | Some y => Some y
    | None => if p x then Some x else None
    end.
Proof.
  induction l as [|y l IH]; simpl; [reflexivity|].
  destruct (p y); [reflexivity | exact IH].
Qed.

Lemma insertUrl_fresh_eq (data : NewUrl.t) (w : World) (d : Database) :
  db w = Some d ->
  existsb (Sql.shortCode_is (NewUrl.shortCode data)) (rows d) = false ->
  DatabaseManager.insertUrl data w
  = (Return tt,
     set_db (Some (mkDatabase
                     (rows d ++ [UrlRecord.mk (Sql.next_rowid d)
                                   (NewUrl.shortCode data) (NewUrl.filename data)
                                   (NewUrl.originalName data)
                                   (NewUrl.uploadedAt data) (NewUrl.size data)
                                   (NewUrl.mimetype data) 0 None])
                     (Sql.next_rowid d) 1)) w).
Proof.
  intros Hd Hex.
  unfold DatabaseManager.insertUrl, bind, DatabaseManager.the_db,
    DatabaseManager.put_db, Sql.insert_into_urls.
  rewrite Hd, Hex. reflexivity.
Qed.

Lemma shortCode_absent_existsb (code : string) (d : Database) :
  (forall r, In r (rows d) -> UrlRecord.shortCode r <> code) ->
  existsb (Sql.shortCode_is code) (rows d) = false.
Proof.
  intros H. destruct (existsb _ (rows d)) eqn:Hex; [|reflexivity].
  apply List.existsb_exists in Hex. destruct Hex as (r & Hin & Heq).
  apply String.eqb_eq in Heq. exfalso. exact (H r Hin Heq).
Qed.

(** X2. Inserting a mapping whose short code is not in the store succeeds,
    and the mapping can then be looked up: [getUrlByShortCode] returns a
    record with the inserted fields, an id above every id in the table, an
    access count of 0 and no access time; [isShortCodeUsed] answers true;
    the total count has grown by one; lookups of other codes answer as
    before. *)
Theorem insertUrl_then_lookup (w : World) (d : Database) (data : NewUrl.t) :
  db w = Some d ->
  (forall r, In r (rows d) -> UrlRecord.shortCode r <> NewUrl.shortCode data) ->
  exists w' r,
    DatabaseManager.insertUrl data w = (Return tt, w')
    /\ DatabaseManager.getUrlByShortCode (NewUrl.shortCode data) w'
       = (Return (Some r), w')
    /\ r = UrlRecord.mk (UrlRecord.id r) (NewUrl.shortCode data)
             (NewUrl.filename data) (NewUrl.originalName data)
             (NewUrl.uploadedAt data) (NewUrl.size data) (NewUrl.mimetype data)
             0 None
    /\ (forall r0, In r0 (rows d) -> UrlRecord.id r0 < UrlRecord.id r)
    /\ DatabaseManager.isShortCodeUsed (NewUrl.shortCode data) w'
       = (Return true, w')
    /\ fst (DatabaseManager.getTotalCount w')
       = Return (Z.of_nat (length (rows d)) + 1)
    /\ (forall code, code <> NewUrl.shortCode data ->
          fst (DatabaseManager.getUrlByShortCode code w')
          = fst (DatabaseManager.getUrlByShortCode code w)).
Proof.
  intros Hd Hfresh.
  pose proof (shortCode_absent_existsb _ d Hfresh) as Hex.
  eexists _, _. split; [exact (insertUrl_fresh_eq data w d Hd Hex)|].
  assert (Hfind : List.find (Sql.shortCode_is (NewUrl.shortCode data)) (rows d)
                  = None).
  { apply (proj2 (select_where_shortCode_None _ d)). exact Hfresh. }
  split.
  { unfold DatabaseManager.getUrlByShortCode, bind, DatabaseManager.the_db, ret,
      Sql.select_where_shortCode. simpl.
    rewrite find_snoc, Hfind. unfold Sql.shortCode_is at 1. simpl.
    rewrite String.eqb_refl. reflexivity. }
  split; [reflexivity|]. split.
  { intros r0 Hr0. simpl. now apply id_below_next_rowid. }
  split.
  { unfold DatabaseManager.isShortCodeUsed, bind, DatabaseManager.the_db, ret.
    simpl. f_equal. f_equal. unfold Sql.count_where_shortCode. simpl.
    rewrite List.filter_app, List.length_app. simpl.
    unfold Sql.shortCode_is at 2. simpl. rewrite String.eqb_refl. simpl.
    apply Z.gtb_lt. lia. }
  split.
  { unfold DatabaseManager.getTotalCount, bind, DatabaseManager.the_db, ret,
      Sql.count_all. simpl. rewrite List.length_app. simpl. f_equal. lia. }
  intros code Hne.
  unfold DatabaseManager.getUrlByShortCode, bind, DatabaseManager.the_db, ret,
    Sql.select_where_shortCode. simpl. rewrite Hd, find_snoc.
  destruct (List.find (Sql.shortCode_is code) (rows d)); [reflexivity|].
  unfold Sql.shortCode_is. simpl.
  assert (Hc : String.eqb (NewUrl.shortCode data) code = false)
    by (apply String.eqb_neq; congruence).
  now rewrite Hc.
Qed.

Lemma insertUrl_then_lookup_witness :
  db (sample_world (Some one_row) ∅) = Some one_row
  /\ exists w' r,
       DatabaseManager.insertUrl
         (NewUrl.mk "BBBBBB" "1700000000000-BBBBBB.txt" "b.txt"
            "2023-11-14T22:13:21.000Z" 3 "text/plain")
         (sample_world (Some one_row) ∅) = (Return tt, w')
       /\ DatabaseManager.getUrlByShortCode "BBBBBB" w' = (Return (Some r), w').
Proof.
  split; [reflexivity|].
  destruct (insertUrl_then_lookup (sample_world (Some one_row) ∅) one_row
              (NewUrl.mk "BBBBBB" "1700000000000-BBBBBB.txt" "b.txt"
                 "2023-11-14T22:13:21.000Z" 3 "text/plain") eq_refl)
    as (w' & r & Hins & Hget & _).
  - intros r [<-|[]]. discriminate.
  - exists w', r. split; [exact Hins | exact Hget].
Defined.

(** X3. Inserting a mapping whose short code is already in the store throws
    the UNIQUE-constraint error and changes nothing: the record that holds
    the code is not overwritten. *)
Theorem insertUrl_duplicate_rejected (w : World) (d : Database)
    (data : NewUrl.t) (r : UrlRecord) :
  db w = Some d ->
  In r (rows d) -> UrlRecord.shortCode r = NewUrl.shortCode data ->
  DatabaseManager.insertUrl data w
  = (Throw "UNIQUE constraint failed: urls.shortCode", w).
Proof.
  intros Hd Hin Heq.
  unfold DatabaseManager.insertUrl, bind, DatabaseManager.the_db, throw,
    Sql.insert_into_urls.
  rewrite Hd.
  replace (existsb (Sql.shortCode_is (NewUrl.shortCode data)) (rows d)) with true.
  - reflexivity.
  - symmetry. apply List.existsb_exists. exists r. split; [exact Hin|].
    now apply String.eqb_eq.
Qed.

Lemma insertUrl_duplicate_rejected_witness :
  DatabaseManager.insertUrl
    (NewUrl.mk "AAAAAA" "1700000000001-AAAAAA.txt" "other.txt"
       "2023-11-14T22:13:21.000Z" 3 "text/plain")
    (sample_world (Some one_row) ∅)
  = (Throw "UNIQUE constraint failed: urls.shortCode",
     sample_world (Some one_row) ∅).
Proof.
  apply (insertUrl_duplicate_rejected (sample_world (Some one_row) ∅) one_row
           (NewUrl.mk "AAAAAA" "1700000000001-AAAAAA.txt" "other.txt"
              "2023-11-14T22:13:21.000Z" 3 "text/plain")
           (sample_record 1 "AAAAAA" "notes.txt" "2023-11-14T22:13:20.000Z" 0)).
  - reflexivity.
  - left. reflexivity.
  - reflexivity.
Defined.

(** ** Access tracking and deletion at the store *)

Lemma find_map_stable {A} (p : A -> bool) (f : A -> A) (l : list A) :
  (forall x, p (f x) = p x) ->
  List.find p (List.map f l) = option_map f (List.find p l).
Proof.
  intros Hp. induction l as [|x l IH]; simpl; [reflexivity|].
  rewrite Hp. destruct (p x); [reflexivity | exact IH].
Qed.

Lemma find_filter_implied {A} (p q : A -> bool) (l : list A) :
  (forall x, p x = true -> q x = true) ->
  List.find p (List.filter q l) = List.find p l.
Proof.
  intros Hpq. induction l as [|x l IH]; simpl; [reflexivity|].
  destruct (q x) eqn:Hq; simpl.
  - destruct (p x); [reflexivity | exact IH].
  - destruct (p x) eqn:Hp; [|exact IH].
    rewrite (Hpq x Hp) in Hq. discriminate.
Qed.

Lemma select_after_update (now code c : string) (d : Database) :
  Sql.select_where_shortCode c (Sql.update_access now code d)
  = option_map (fun r => if Sql.shortCode_is code r then Sql.touch now r else r)
      (Sql.select_where_shortCode c d).
Proof.
  unfold Sql.select_where_shortCode, Sql.update_access. simpl.
  apply find_map_stable. intros x. now destruct (Sql.shortCode_is code x).
Qed.

Lemma select_after_delete_other (code c : string) (d : Database) :
  c <> code ->
  Sql.select_where_shortCode c (Sql.delete_where_shortCode code d)
  = Sql.select_where_shortCode c d.
Proof.
  intros Hne. unfold Sql.select_where_shortCode, Sql.delete_where_shortCode.
  simpl. apply find_filter_implied. intros x Hx. unfold Sql.shortCode_is in *.
  apply String.eqb_eq in Hx. apply negb_true_iff, String.eqb_neq. congruence.
Qed.

Lemma incrementAccessCount_eq (code : string) (w : World) (d : Database) :
  db w = Some d ->
  DatabaseManager.incrementAccessCount code w
  = (Return tt, set_db (Some (Sql.update_access (now_iso w) code d)) w).
Proof.
  intros Hd.
  unfold DatabaseManager.incrementAccessCount, bind, DatabaseManager.the_db,
    DatabaseManager.put_db, ask.
  rewrite Hd. reflexivity.
Qed.

(** X4. [incrementAccessCount] on a code that no record has leaves every
    row as it is. On a code that has a record, a later lookup of the code
    finds that record with its count raised by 1 and with the current time
    as [lastAccessedAt], all other fields kept; lookups of other codes
    answer as before. *)
Theorem incrementAccessCount_effect (w : World) (d : Database) (code : string) :
  db w = Some d ->
  exists d',
    DatabaseManager.incrementAccessCount code w
    = (Return tt, set_db (Some d') w)
    /\ ((forall r, In r (rows d) -> UrlRecord.shortCode r <> code) ->
        rows d' = rows d)
    /\ (forall r,
          Sql.select_where_shortCode code d = Some r ->
          exists r',
            Sql.select_where_shortCode code d' = Some r'
            /\ UrlRecord.accessCount r' = UrlRecord.accessCount r + 1
            /\ UrlRecord.lastAccessedAt r' = Some (now_iso w)
            /\ same_immutable_fields r r')
    /\ (forall c, c <> code ->
          Sql.select_where_shortCode c d' = Sql.select_where_shortCode c d).
Proof.
  intros Hd. exists (Sql.update_access (now_iso w) code d).
  split; [exact (incrementAccessCount_eq code w d Hd)|]. split; [|split].
  - intros Hnone. unfold Sql.update_access. simpl.
    rewrite <- (List.map_id (rows d)) at 2. apply List.map_ext_in.
    intros r Hr. unfold Sql.shortCode_is.
    pose proof (Hnone r Hr) as Hne. apply String.eqb_neq in Hne. now rewrite Hne.
  - intros r Hs. rewrite select_after_update, Hs. simpl.
    destruct (select_where_shortCode_In code d r Hs) as [_ Hc].
    unfold Sql.shortCode_is. rewrite Hc, String.eqb_refl.
    eexists. split; [reflexivity|]. split; [reflexivity|].
    split; [reflexivity | apply touch_same_immutable].
  - intros c Hne. rewrite select_after_update.
    destruct (Sql.select_where_shortCode c d) as [r|] eqn:Hs; [|reflexivity].
    destruct (select_where_shortCode_In c d r Hs) as [_ Hc]. simpl.
    unfold Sql.shortCode_is. rewrite Hc.
    apply String.eqb_neq in Hne. now rewrite Hne.
Qed.

Lemma incrementAccessCount_effect_witness :
  db (sample_world (Some one_row) ∅) = Some one_row
  /\ exists d',
       DatabaseManager.incrementAccessCount "ZZZZZZ" (sample_world (Some one_row) ∅)
       = (Return tt, set_db (Some d') (sample_world (Some one_row) ∅))
       /\ rows d' = rows one_row.
Proof.
  split; [reflexivity|].
  destruct (incrementAccessCount_effect (sample_world (Some one_row) ∅) one_row
              "ZZZZZZ" eq_refl) as (d' & Hrun & Hnone & _).
  exists d'. split; [exact Hrun|]. apply Hnone.
  intros r [<-|[]]. discriminate.
Defined.

(** X5. After [deleteUrl(code)] the code is gone from the store: the lookup
    finds nothing, [isShortCodeUsed] answers false, [GET /:shortCode] for the
    code answers 404, and no search result has the code; the records with
    other codes are found as before. This does not depend on what
    [deleteUrl] returned. *)
Theorem deleteUrl_then_lookup (w : World) (d : Database) (code : string) :
  db w = Some d ->
  exists w',
    snd (DatabaseManager.deleteUrl code w) = w'
    /\ files w' = files w
    /\ DatabaseManager.getUrlByShortCode code w' = (Return None, w')
    /\ DatabaseManager.isShortCodeUsed code w' = (Return false, w')
    /\ (exists resp, GET_shortCode code w' = (Return resp, w')
                     /\ status resp = 404)
    /\ (forall query limit data r,
          fst (DatabaseManager.searchUrls query limit w') = Return data ->
          In r data -> UrlRecord.shortCode r <> code)
    /\ (forall c, c <> code ->
          fst (DatabaseManager.getUrlByShortCode c w')
          = fst (DatabaseManager.getUrlByShortCode c w)).
Proof.
  intros Hd. exists (set_db (Some (Sql.delete_where_shortCode code d)) w).
  split; [rewrite (deleteUrl_eq code w d Hd); reflexivity|].
  set (d' := Sql.delete_where_shortCode code d).
  assert (Hd' : db (set_db (Some d') w) = Some d') by reflexivity.
  assert (Hnone : Sql.select_where_shortCode code d' = None).
  { apply select_where_shortCode_None. intros r Hr.
    now apply (proj1 (delete_where_shortCode_In code d r)) in Hr. }
  split; [reflexivity|]. split.
  { unfold DatabaseManager.getUrlByShortCode, bind, DatabaseManager.the_db, ret.
    simpl. now rewrite Hnone. }
  split.
  { rewrite (isShortCodeUsed_eq code _ d' Hd'), <- existsb_count.
    f_equal. f_equal. apply shortCode_absent_existsb.
    now apply select_where_shortCode_None. }
  split.
  { destruct (shortCode_regex_test code) eqn:Hv.
    - rewrite (GET_shortCode_unknown code _ d' Hd' Hv Hnone).
      eexists. split; reflexivity.
    - rewrite (GET_shortCode_invalid code _ Hv). eexists. split; reflexivity. }
  split.
  { intros query limit data r Hrun Hin.
    unfold DatabaseManager.searchUrls, bind, DatabaseManager.the_db,
      DatabaseManager.result in Hrun.
    cbn [db set_db fst] in Hrun.
    destruct (select_like_In _ _ _ _ r Hrun Hin) as [Hr _].
    now apply (proj1 (delete_where_shortCode_In code d r)) in Hr. }
  intros c Hne.
  unfold DatabaseManager.getUrlByShortCode, bind, DatabaseManager.the_db, ret.
  simpl. rewrite Hd. simpl. fold d'. unfold d'.
  now rewrite select_after_delete_other.
Qed.

Lemma deleteUrl_then_lookup_witness :
  db (sample_world (Some one_row) one_file) = Some one_row
  /\ exists w',
       snd (DatabaseManager.deleteUrl "AAAAAA" (sample_world (Some one_row) one_file))
       = w'
       /\ DatabaseManager.getUrlByShortCode "AAAAAA" w' = (Return None, w').
Proof.
  split; [reflexivity|].
  destruct (deleteUrl_then_lookup (sample_world (Some one_row) one_file) one_row
              "AAAAAA" eq_refl) as (w' & Hrun & _ & Hget & _).
  exists w'. split; [exact Hrun | exact Hget].
Defined.

(** X6. [DELETE /urls/:shortCode] for a code that no record has answers 404
    NOT_FOUND and changes neither the store nor the files; the code is not
    checked against the short-code format first. *)
Theorem DELETE_urls_unknown (w : World) (d : Database) (code : string) :
  db w = Some d ->
  (forall r, In r (rows d) -> UrlRecord.shortCode r <> code) ->
  DELETE_urls code w
  = (Return (mkResponse 404 (Failure "Short URL not found" "NOT_FOUND")), w).
Proof.
  intros Hd Hnone. apply select_where_shortCode_None in Hnone.
  unfold DELETE_urls, try_catch, bind, DatabaseManager.getUrlByShortCode, bind,
    DatabaseManager.the_db, ret.
  rewrite Hd. cbv beta iota. now rewrite Hnone.
Qed.

Lemma DELETE_urls_unknown_witness :
  DELETE_urls "no such code" (sample_world (Some one_row) one_file)
  = (Return (mkResponse 404 (Failure "Short URL not found" "NOT_FOUND")),
     sample_world (Some one_row) one_file).
Proof.
  apply (DELETE_urls_unknown (sample_world (Some one_row) one_file) one_row).
  - reflexivity.
  - intros r [<-|[]]. discriminate.
Defined.

(** ** Without an open database *)

(** X7. While [DatabaseManager.db] is null, every method of
    [DatabaseManager] throws "Database not initialized" and changes
    nothing. The handlers with a [try] block turn this into a 500 answer
    that carries the message; the listing, search and statistics handlers
    have no [try] block and pass the error on. Requests that are refused
    before the store is asked are answered as usual. *)
Theorem database_not_initialized (w : World) :
  db w = None ->
  (forall c, run_call c w = (Throw "Database not initialized", w))
  /\ (forall code,
        shortCode_regex_test code = true ->
        GET_shortCode code w
        = (Return (mkResponse 500
                     (Failure "Internal server error"
                        "Database not initialized")), w))
  /\ (forall code,
        shortCode_regex_test code = false ->
        GET_shortCode code w
        = (Return (mkResponse 404
                     (Failure "Invalid short code format"
                        "INVALID_SHORT_CODE")), w))
  /\ (forall code,
        DELETE_urls code w
        = (Return (mkResponse 500
                     (Failure "Delete failed" "Database not initialized")), w))
  /\ (forall query, GET_urls query w = (Throw "Database not initialized", w))
  /\ (forall query,
        GET_urls_recent query w = (Throw "Database not initialized", w))
  /\ (forall query,
        GET_urls_popular query w = (Throw "Database not initialized", w))
  /\ (forall query q,
        Query.q query = Some q -> q <> "" ->
        GET_urls_search query w = (Throw "Database not initialized", w))
  /\ GET_stats w = (Throw "Database not initialized", w).
Proof.
  intros Hd. repeat split.
  - intros c.
    destruct c; unfold run_call, discard, DatabaseManager.insertUrl,
      DatabaseManager.getUrlByShortCode, DatabaseManager.isShortCodeUsed,
      DatabaseManager.incrementAccessCount, DatabaseManager.getAllUrls,
      DatabaseManager.getTotalCount, DatabaseManager.getStats,
      DatabaseManager.deleteUrl, DatabaseManager.searchUrls,
      DatabaseManager.getMostAccessedUrls, DatabaseManager.getRecentUploads,
      bind, DatabaseManager.the_db; rewrite Hd; reflexivity.
  - intros code Hv.
    unfold GET_shortCode, try_catch, bind, DatabaseManager.getUrlByShortCode,
      bind, DatabaseManager.the_db.
    rewrite Hv. simpl. rewrite Hd. reflexivity.
  - intros code Hv. now apply GET_shortCode_invalid.
  - intros code.
    unfold DELETE_urls, try_catch, bind, DatabaseManager.getUrlByShortCode,
      bind, DatabaseManager.the_db.
    rewrite Hd. reflexivity.
  - intros query.
    unfold GET_urls, bind, DatabaseManager.getAllUrls, bind,
      DatabaseManager.the_db.
    rewrite Hd. reflexivity.
  - intros query.
    unfold GET_urls_recent, bind, DatabaseManager.getRecentUploads, bind,
      DatabaseManager.the_db.
    rewrite Hd. reflexivity.
  - intros query.
    unfold GET_urls_popular, bind, DatabaseManager.getMostAccessedUrls, bind,
      DatabaseManager.the_db.
    rewrite Hd. reflexivity.
  - intros query q Hq Hne. unfold GET_urls_search. rewrite Hq.
    destruct q as [|c q']; [congruence|].
    unfold or_string, bind, DatabaseManager.searchUrls, bind,
      DatabaseManager.the_db.
    cbn [String.eqb]. rewrite Hd. reflexivity.
  - unfold GET_stats, bind, FileManager.getStorageStats,
      DatabaseManager.getStats, bind, DatabaseManager.the_db.
    rewrite Hd. reflexivity.
Qed.

Lemma database_not_initialized_witness :
  db (sample_world None ∅) = None
  /\ GET_stats (sample_world None ∅)
     = (Throw "Database not initialized", sample_world None ∅).
Proof.
  split; [reflexivity|].
  apply (database_not_initialized (sample_world None ∅) eq_refl).
Defined.

(** ** Listings *)

Lemma accessCount_desc_total (a b : UrlRecord) :
  Sql.accessCount_desc a b = true \/ Sql.accessCount_desc b a = true.
Proof. unfold Sql.accessCount_desc. rewrite !Z.leb_le. lia. Qed.

Lemma accessCount_desc_trans (a b c : UrlRecord) :
  Sql.accessCount_desc a b = true -> Sql.accessCount_desc b c = true ->
  Sql.accessCount_desc a c = true.
Proof. unfold Sql.accessCount_desc. rewrite !Z.leb_le. lia. Qed.

Lemma limit_offset_all {A} (limit : Z) (l : list A) :
  limit < 0 \/ Z.of_nat (length l) <= limit ->
  Sql.limit_offset limit 0 l = l.
Proof.
  intros H. unfold Sql.limit_offset. simpl.
  destruct (Z.ltb_spec limit 0) as [Hneg|Hpos]; [reflexivity|].
  apply List.firstn_all2. lia.
Qed.

Lemma or_number_nonzero (v : number) (b l : Z) :
  b <> 0 -> or_number v b = Int l -> l <> 0.
Proof.
  intros Hb. unfold or_number. destruct v as [| |z]; try discriminate.
  - intros [= <-]. exact Hb.
  - destruct (Z.eqb_spec z 0); intros [= <-]; assumption.
Qed.

(** X8. [limit] is the query value as [parseInt] reads it, 10 when it is
    absent, not a number or zero. When it lies strictly between -2^63 and
    2^63, [GET /urls/popular] lists only records of the store that were
    accessed at least once, ordered by access count, largest first, and at
    most [limit] of them when the limit is not negative; when the limit is
    negative, or no smaller than the number of accessed records, it lists
    every accessed record. For any other limit the handler throws
    "datatype mismatch". *)
Theorem GET_urls_popular_accessed_only (w : World) (d : Database) (query : Query.t) :
  db w = Some d ->
  (forall limit,
     or_number (parseInt (Query.limit query)) 10 = Int limit ->
     - 2 ^ 63 < limit < 2 ^ 63 ->
     exists data,
       GET_urls_popular query w = (Return (mkResponse 200 (Listing data)), w)
       /\ (forall r, In r data -> In r (rows d) /\ 0 < UrlRecord.accessCount r)
       /\ StronglySorted
            (fun a b => UrlRecord.accessCount b <= UrlRecord.accessCount a) data
       /\ (0 <= limit -> Z.of_nat (length data) <= limit)
       /\ (limit < 0
           \/ Z.of_nat (length (List.filter
                                  (fun r => UrlRecord.accessCount r >? 0)
                                  (rows d)))
              <= limit ->
           forall r, In r (rows d) -> 0 < UrlRecord.accessCount r -> In r data))
  /\ ((forall limit, or_number (parseInt (Query.limit query)) 10 = Int limit ->
                     limit <= - 2 ^ 63 \/ 2 ^ 63 <= limit) ->
      GET_urls_popular query w = (Throw "datatype mismatch", w)).
Proof.
  intros Hd. split.
  2:{ intros Hout.
      unfold GET_urls_popular, bind, DatabaseManager.getMostAccessedUrls, bind,
        DatabaseManager.the_db, DatabaseManager.result, Sql.select_most_accessed.
      rewrite Hd. cbv beta iota.
      now rewrite (must_be_int_Throw _ Hout). }
  intros limit Hl Hlr.
  set (accessed := List.filter (fun r => UrlRecord.accessCount r >? 0) (rows d)).
  exists (Sql.limit_offset limit 0 (Sql.order_by Sql.accessCount_desc accessed)).
  assert (Hperm : Permutation accessed (Sql.order_by Sql.accessCount_desc accessed))
    by apply order_by_perm.
  split.
  { unfold GET_urls_popular, bind, DatabaseManager.getMostAccessedUrls, bind,
      DatabaseManager.the_db, DatabaseManager.result, Sql.select_most_accessed, ret.
    rewrite Hd, Hl. cbv beta iota.
    rewrite (proj2 (must_be_int_Return (Int limit) limit) (conj eq_refl Hlr)).
    reflexivity. }
  split.
  { intros r Hin. apply limit_offset_In in Hin.
    apply (Permutation_in r (Permutation_sym Hperm)) in Hin.
    apply List.filter_In in Hin. destruct Hin as [Hin Hc].
    split; [exact Hin | now apply Z.gtb_lt in Hc]. }
  split.
  { apply limit_offset_sorted.
    pose proof (order_by_sorted Sql.accessCount_desc accessCount_desc_total
                  accessCount_desc_trans accessed) as Hs.
    clear -Hs. induction Hs as [|x l Hs IH Hall]; constructor.
    - exact IH.
    - eapply List.Forall_impl; [|exact Hall].
      intros y Hy. now apply Z.leb_le. }
  split.
  { intros Hl0. rewrite (limit_offset_length limit 0 _ Hl0). lia. }
  intros Hall r Hin Hc.
  rewrite limit_offset_all
    by (rewrite <- (Permutation_length Hperm); exact Hall).
  apply (Permutation_in r Hperm). apply List.filter_In.
  split; [exact Hin | now apply Z.gtb_lt].
Qed.

Lemma GET_urls_popular_accessed_only_witness :
  GET_urls_popular (Query.mk None None None) (sample_world (Some one_row) ∅)
  = (Return (mkResponse 200 (Listing [])), sample_world (Some one_row) ∅).
Proof.
  destruct (proj1 (GET_urls_popular_accessed_only (sample_world (Some one_row) ∅)
                     one_row (Query.mk None None None) eq_refl) 10 eq_refl)
    as (data & Hrun & Hin & _).
  - rewrite pow2_63. lia.
  - rewrite Hrun. destruct data as [|r data]; [reflexivity|].
    exfalso. destruct (Hin r (or_introl eq_refl)) as [[<-|[]] Hc].
    discriminate Hc.
Defined.

(** X9. [limit] is the query value as [parseInt] reads it, 10 when it is
    absent, not a number or zero. When it lies strictly between -2^63 and
    2^63, [GET /urls/recent] on a store that is not empty lists at least
    one record, and the first one is the newest: no record of the store
    has a later [uploadedAt], and none with the same [uploadedAt] has a
    larger id. The list is ordered in this way throughout, holds records
    of the store only, and at most [limit] of them when the limit is not
    negative. For any other limit the handler throws "datatype
    mismatch". *)
Theorem GET_urls_recent_newest_first (w : World) (d : Database) (query : Query.t) :
  db w = Some d ->
  (forall limit,
     or_number (parseInt (Query.limit query)) 10 = Int limit ->
     - 2 ^ 63 < limit < 2 ^ 63 ->
     exists data,
       GET_urls_recent query w = (Return (mkResponse 200 (Listing data)), w)
       /\ (forall r, In r data -> In r (rows d))
       /\ StronglySorted newest_first data
       /\ (0 <= limit -> Z.of_nat (length data) <= limit)
       /\ (rows d <> [] ->
           exists first rest,
             data = first :: rest
             /\ forall r, In r (rows d) -> r = first \/ newest_first first r))
  /\ ((forall limit, or_number (parseInt (Query.limit query)) 10 = Int limit ->
                     limit <= - 2 ^ 63 \/ 2 ^ 63 <= limit) ->
      GET_urls_recent query w = (Throw "datatype mismatch", w)).
Proof.
  intros Hd. split.
  2:{ intros Hout.
      unfold GET_urls_recent, bind, DatabaseManager.getRecentUploads, bind,
        DatabaseManager.the_db, DatabaseManager.result, Sql.select_recent.
      rewrite Hd. cbv beta iota.
      now rewrite (must_be_int_Throw _ Hout). }
  intros limit Hl Hlr.
  set (sorted := Sql.order_by Sql.uploadedAt_desc (rows d)).
  exists (Sql.limit_offset limit 0 sorted).
  assert (Hperm : Permutation (rows d) sorted) by apply order_by_perm.
  assert (Hsorted : StronglySorted newest_first sorted)
    by apply order_by_uploadedAt_sorted.
  split.
  { unfold GET_urls_recent, bind, DatabaseManager.getRecentUploads, bind,
      DatabaseManager.the_db, DatabaseManager.result, Sql.select_recent, ret.
    rewrite Hd, Hl. cbv beta iota.
    rewrite (proj2 (must_be_int_Return (Int limit) limit) (conj eq_refl Hlr)).
    reflexivity. }
  split.
  { intros r Hin. apply limit_offset_In in Hin.
    exact (Permutation_in r (Permutation_sym Hperm) Hin). }
  split; [now apply limit_offset_sorted|].
  split.
  { intros Hl0. rewrite (limit_offset_length limit 0 _ Hl0). lia. }
  intros Hne.
  assert (Hlimit : limit <> 0).
  { apply (or_number_nonzero _ 10 limit ltac:(lia) Hl). }
  destruct sorted as [|x l] eqn:Hs.
  { apply Permutation_sym, Permutation_nil in Hperm. contradiction. }
  exists x, (Sql.limit_offset (limit - 1) 0 l). split.
  - unfold Sql.limit_offset. simpl.
    destruct (Z.ltb_spec limit 0) as [Hneg|Hpos].
    + replace (limit - 1 <? 0) with true by (symmetry; apply Z.ltb_lt; lia).
      reflexivity.
    + replace (limit - 1 <? 0) with false by (symmetry; apply Z.ltb_ge; lia).
      replace (Z.to_nat limit) with (S (Z.to_nat (limit - 1))) by lia.
      reflexivity.
  - intros r Hr. apply (Permutation_in r Hperm) in Hr.
    inversion Hsorted as [|? ? _ Hall]; subst.
    destruct Hr as [<-|Hr]; [now left | right].
    rewrite List.Forall_forall in Hall. exact (Hall r Hr).
Qed.

Lemma GET_urls_recent_newest_first_witness :
  exists data,
    GET_urls_recent (Query.mk (Some "1") None None)
      (sample_world (Some two_rows) ∅)
    = (Return (mkResponse 200 (Listing data)), sample_world (Some two_rows) ∅)
    /\ List.map UrlRecord.shortCode data = ["AAAAAAAA"].
Proof.
  destruct (proj1 (GET_urls_recent_newest_first (sample_world (Some two_rows) ∅)
                     two_rows (Query.mk (Some "1") None None) eq_refl)
              1 eq_refl)
    as (data & Hrun & _).
  - rewrite pow2_63. lia.
  - exists data. split; [exact Hrun|].
    vm_compute in Hrun. injection Hrun as <-. reflexivity.
Defined.

Lemma firstn_add_skipn {A} (a b : nat) (l : list A) :
  firstn a l ++ firstn b (skipn a l) = firstn (a + b) l.
Proof.
  revert l. induction a as [|a IH]; intros l; [reflexivity|].
  destruct l as [|x l]; simpl.
  - now rewrite List.firstn_nil.
  - now rewrite IH.
Qed.

(** X10. Consecutive pages fit together: with the store unchanged, the
    page of [l1] records at offset [o] followed by the page of [l2]
    records at offset [o + l1] is the page of [l1 + l2] records at offset
    [o], for numbers that are not negative and whose sum is at most 2^53,
    so that the sums are exact. No record is listed twice or left out
    between pages. *)
Theorem getAllUrls_pages_compose (w : World) (d : Database) (l1 l2 o : Z) :
  db w = Some d -> 0 <= l1 -> 0 <= l2 -> 0 <= o -> o + l1 + l2 <= 2 ^ 53 ->
  exists p1 p2,
    DatabaseManager.getAllUrls (Int l1) (Int o) w = (Return p1, w)
    /\ DatabaseManager.getAllUrls (Int l2) (Int (o + l1)) w = (Return p2, w)
    /\ DatabaseManager.getAllUrls (Int (l1 + l2)) (Int o) w
       = (Return (p1 ++ p2), w)
    /\ number_add (Int o) (Int l1) = Int (o + l1)
    /\ number_add (Int l1) (Int l2) = Int (l1 + l2).
Proof.
  intros Hd H1 H2 Ho Hsum. rewrite pow2_53 in Hsum.
  assert (Hrun : forall l o', 0 <= l <= 2 ^ 53 -> 0 <= o' <= 2 ^ 53 ->
            DatabaseManager.getAllUrls (Int l) (Int o') w
            = (Return (Sql.limit_offset l o'
                         (Sql.order_by Sql.uploadedAt_desc (rows d))), w)).
  { intros l o' Hl Ho'. rewrite pow2_53 in Hl, Ho'.
    apply (getAllUrls_eq _ _ l o' w d Hd);
      apply must_be_int_Return; (split; [reflexivity | rewrite pow2_63; lia]). }
  eexists _, _.
  split; [apply Hrun; rewrite pow2_53; lia|].
  split; [apply Hrun; rewrite pow2_53; lia|].
  split.
  - rewrite Hrun by (rewrite pow2_53; lia). f_equal. f_equal.
    unfold Sql.limit_offset.
    replace (l1 <? 0) with false by (symmetry; apply Z.ltb_ge; lia).
    replace (l2 <? 0) with false by (symmetry; apply Z.ltb_ge; lia).
    replace (l1 + l2 <? 0) with false by (symmetry; apply Z.ltb_ge; lia).
    replace (Z.to_nat (o + l1)) with (Z.to_nat l1 + Z.to_nat o)%nat by lia.
    replace (Z.to_nat (l1 + l2)) with (Z.to_nat l1 + Z.to_nat l2)%nat by lia.
    rewrite <- List.skipn_skipn. symmetry. apply firstn_add_skipn.
  - split; cbn [number_add]; apply double_of_Z_small; rewrite pow2_53; lia.
Qed.

Lemma getAllUrls_pages_compose_witness :
  exists p1 p2,
    DatabaseManager.getAllUrls (Int 1) (Int 0) (sample_world (Some two_rows) ∅)
    = (Return p1, sample_world (Some two_rows) ∅)
    /\ DatabaseManager.getAllUrls (Int 1) (Int (0 + 1))
         (sample_world (Some two_rows) ∅)
       = (Return p2, sample_world (Some two_rows) ∅)
    /\ DatabaseManager.getAllUrls (Int (1 + 1)) (Int 0)
         (sample_world (Some two_rows) ∅)
       = (Return (p1 ++ p2), sample_world (Some two_rows) ∅).
Proof.
  destruct (getAllUrls_pages_compose (sample_world (Some two_rows) ∅) two_rows
              1 1 0 eq_refl)
    as (p1 & p2 & H1 & H2 & H3 & _); [lia | lia | lia | rewrite pow2_53; lia |].
  exists p1, p2. split; [exact H1|]. split; [exact H2 | exact H3].
Defined.

(** ** Aggregate statistics *)


(** *** Division in floating point *)





Lemma to_pos_pow2 (x : Z) : 0 <= x -> Z.pos (Z.to_pos (2 ^ x)) = 2 ^ x.
Proof.
  intros Hx. apply Z2Pos.id. now apply Z.pow_pos_nonneg.
Qed.






(** The average of the sizes 1, 1 and 2 is a double next to 4/3, not 4/3:
    three times the average is not the total. *)
Example AVG_is_rounded :
  exists q, Sql.AVG [1; 1; 2] = Some q
            /\ (q == 6004799503160661 # 4503599627370496)%Q
            /\ ~ (q * 3 == 4)%Q.
Proof.
  eexists. split; [reflexivity|]. split; [reflexivity | discriminate].
Qed.

(** ** Invariants of the store *)

(** X12. In every store that calls of the [DatabaseManager] methods lead
    to, two records with the same short code are the same record, two
    records with the same id are the same record, and every access count
    is at least 0. *)
Theorem reachable_store_unique_codes (w : World) (d : Database) :
  reachable w -> db w = Some d ->
  (forall r1 r2, In r1 (rows d) -> In r2 (rows d) ->
     UrlRecord.shortCode r1 = UrlRecord.shortCode r2 -> r1 = r2)
  /\ (forall r1 r2, In r1 (rows d) -> In r2 (rows d) ->
        UrlRecord.id r1 = UrlRecord.id r2 -> r1 = r2)
  /\ (forall r, In r (rows d) -> 0 <= UrlRecord.accessCount r).
Proof.
  intros Hreach Hd.
  destruct (reachable_store_ok w Hreach d Hd) as (Hid & Hcode & Hcount & _).
  split; [|split].
  - intros r1 r2. apply NoDup_map_eq. exact Hcode.
  - intros r1 r2. apply NoDup_map_eq. exact Hid.
  - intros r Hr. rewrite List.Forall_forall in Hcount. now apply Hcount.
Qed.

Lemma reachable_store_unique_codes_witness :
  reachable (sample_world (Some empty_urls) ∅)
  /\ db (snd (run_call
                (InsertUrl (NewUrl.mk "AAAAAA" "1700000000000-AAAAAA.txt"
                              "notes.txt" "2023-11-14T22:13:20.000Z" 12
                              "text/plain"))
                (sample_world (Some empty_urls) ∅)))
     = Some one_row
  /\ forall r, In r (rows one_row) -> 0 <= UrlRecord.accessCount r.
Proof.
  assert (Hreach : reachable (sample_world (Some empty_urls) ∅))
    by (apply reachable_init; reflexivity).
  split; [exact Hreach|]. split; [reflexivity|].
  apply (reachable_store_unique_codes
           (snd (run_call
                   (InsertUrl (NewUrl.mk "AAAAAA" "1700000000000-AAAAAA.txt"
                                 "notes.txt" "2023-11-14T22:13:20.000Z" 12
                                 "text/plain"))
                   (sample_world (Some empty_urls) ∅)))
           one_row).
  - apply reachable_call. exact Hreach.
  - reflexivity.
Defined.

(** ** Repeated retrieval *)

Lemma set_db_set_db (a b : option Database) (w : World) :
  set_db a (set_db b w) = set_db a w.
Proof. reflexivity. Qed.

Lemma set_db_same (w : World) (d : Database) :
  db w = Some d -> set_db (Some d) w = w.
Proof. intros <-. destruct w; reflexivity. Qed.

Lemma same_immutable_fields_trans (a b c : UrlRecord) :
  same_immutable_fields a b -> same_immutable_fields b c ->
  same_immutable_fields a c.
Proof.
  unfold same_immutable_fields. intros H1 H2.
  decompose [and] H1. decompose [and] H2. repeat split; congruence.
Qed.

(** X13. Retrieving a record [n] times in a row through [GET /:shortCode]
    raises its access count by exactly [n]: no access is lost and none is
    counted twice. The record keeps its immutable fields, and the files are
    left as they were. *)
Theorem GET_shortCode_n_times (n : nat) (w : World) (d : Database)
    (r : UrlRecord) (bytes : list Byte.byte) :
  db w = Some d ->
  shortCode_unique d ->
  In r (rows d) ->
  shortCode_regex_test (UrlRecord.shortCode r) = true ->
  files w !! file_path_of w r = Some bytes ->
  exists d' r',
    times n (GET_shortCode (UrlRecord.shortCode r)) w
    = (Return tt, set_db (Some d') w)
    /\ Sql.select_where_shortCode (UrlRecord.shortCode r) d' = Some r'
    /\ UrlRecord.accessCount r' = UrlRecord.accessCount r + Z.of_nat n
    /\ same_immutable_fields r r'.
Proof.
  revert w d r. induction n as [|n IH]; intros w d r Hd Hu Hin Hv Hf.
  - exists d, r. split; [|split; [|split]].
    + unfold times, ret. now rewrite (set_db_same w d Hd).
    + now apply unique_select.
    + simpl. lia.
    + repeat split.
  - pose proof (unique_select d r Hu Hin) as Hs.
    set (code := UrlRecord.shortCode r) in *.
    set (d1 := Sql.update_access (now_iso w) code d).
    set (r1 := Sql.touch (now_iso w) r).
    assert (Hin1 : In r1 (rows d1)).
    { unfold d1, Sql.update_access. simpl. apply List.in_map_iff.
      exists r. split; [|exact Hin].
      unfold Sql.shortCode_is. fold code. now rewrite String.eqb_refl. }
    assert (Hu1 : shortCode_unique d1).
    { unfold shortCode_unique, d1.
      now rewrite (proj2 (update_access_fields (now_iso w) code d)). }
    destruct (IH (set_db (Some d1) w) d1 r1 eq_refl Hu1 Hin1 Hv Hf)
      as (d' & r' & Hrun & Hs' & Hc & Hsame).
    exists d', r'. split; [|split; [|split]].
    + cbn [times]. unfold bind at 1.
      rewrite (GET_shortCode_found code w d r bytes Hd Hv Hs Hf).
      fold d1. change (UrlRecord.shortCode r1) with code in Hrun.
      rewrite Hrun. reflexivity.
    + exact Hs'.
    + rewrite Hc. unfold r1. simpl. lia.
    + apply (same_immutable_fields_trans r r1 r'); [|exact Hsame].
      apply touch_same_immutable.
Qed.

Lemma GET_shortCode_n_times_witness :
  exists d' r',
    times 3 (GET_shortCode "AAAAAA") (sample_world (Some one_row) one_file)
    = (Return tt, set_db (Some d') (sample_world (Some one_row) one_file))
    /\ Sql.select_where_shortCode "AAAAAA" d' = Some r'
    /\ UrlRecord.accessCount r' = 3.
Proof.
  destruct (GET_shortCode_n_times 3 (sample_world (Some one_row) one_file) one_row
              (sample_record 1 "AAAAAA" "notes.txt" "2023-11-14T22:13:20.000Z" 0)
              sample_bytes)
    as (d' & r' & Hrun & Hs & Hc & _).
  - reflexivity.
  - repeat constructor. simpl. tauto.
  - left. reflexivity.
  - reflexivity.
  - reflexivity.
  - exists d', r'. split; [exact Hrun|]. split; [exact Hs | exact Hc].
Defined.

(** ** Uploads, continued *)

Lemma regex_alnum (code : string) :
  shortCode_regex_test code = true ->
  forallb is_alnum (list_ascii_of_string code) = true.
Proof.
  unfold shortCode_regex_test. intros H.
  apply andb_true_iff in H. tauto.
Qed.

(** The world after an upload that was answered with 201. *)
Lemma POST_upload_created (request : Request.t) (fd : FormData) (file : File.t)
    (w w' : World) (d : Database) (resp : Response) :
  Request.formData request = Some fd ->
  FormData_get fd "file" = Some (FileValue file) ->
  File.size file <= CONFIG.MAX_FILE_SIZE ->
  db w = Some d -> random_in_unit w ->
  POST_upload request w = (Return resp, w') ->
  status resp = 201 ->
  exists code n,
    shortCode_regex_test code = true
    /\ existsb (Sql.shortCode_is code) (rows d) = false
    /\ resp = mkResponse 201
                (Uploaded (upload_data w request file code) (now_iso w))
    /\ w' = set_db (Some (mkDatabase (rows d ++ [upload_row w d file code])
                            (Sql.next_rowid d) 1))
              (set_files
                 (<[upload_path w file code := File.content file]> (files w))
                 (set_drawn (drawn w + n) w)).
Proof.
  intros Hfd Hget Hsize Hd Hr Hrun Hstatus.
  destruct (generated_code w d Hd Hr) as (code & n & Hgen & Hvalid & _).
  rewrite (POST_upload_accepted request fd file w d code n Hfd Hget Hsize Hd Hgen)
    in Hrun.
  exists code, n. split; [exact Hvalid|].
  destruct (disk_full w).
  { injection Hrun as <- <-. discriminate Hstatus. }
  destruct (existsb (Sql.shortCode_is code) (rows d)).
  { injection Hrun as <- <-. discriminate Hstatus. }
  injection Hrun as <- <-. repeat split.
Qed.

(** X14. Round trip: when an upload is answered with 201, [GET /:shortCode]
    with the short code of the answer sends exactly the uploaded bytes and
    leaves the new record with an access count of 1, its original name and
    its size; [GET /file/:filename] with the stored file name sends the same
    bytes. *)
Theorem upload_then_retrieve (request : Request.t) (fd : FormData)
    (file : File.t) (w w' : World) (d : Database) (resp : Response) :
  Request.formData request = Some fd ->
  FormData_get fd "file" = Some (FileValue file) ->
  File.size file <= CONFIG.MAX_FILE_SIZE ->
  db w = Some d -> random_in_unit w ->
  POST_upload request w = (Return resp, w') ->
  status resp = 201 ->
  exists data code filePath w'' d'' r,
    body resp = Uploaded data (now_iso w)
    /\ UploadData.shortCode data = code
    /\ GET_shortCode code w' = (Return (mkResponse 200 (BunFile filePath)), w'')
    /\ served (mkResponse 200 (BunFile filePath)) w'' = Some (File.content file)
    /\ db w'' = Some d''
    /\ Sql.select_where_shortCode code d'' = Some r
    /\ UrlRecord.accessCount r = 1
    /\ UrlRecord.originalName r = File.name file
    /\ UrlRecord.size r = File.size file
    /\ GET_file (UrlRecord.filename r) w'
       = (Return (mkResponse 200 (BunFile filePath)), w')
    /\ served (mkResponse 200 (BunFile filePath)) w' = Some (File.content file).
Proof.
  intros Hfd Hget Hsize Hd Hr Hrun Hstatus.
  destruct (POST_upload_created request fd file w w' d resp
              Hfd Hget Hsize Hd Hr Hrun Hstatus)
    as (code & n & Hvalid & Hex & -> & ->).
  set (row := upload_row w d file code).
  set (d' := mkDatabase (rows d ++ [row]) (Sql.next_rowid d) 1).
  set (w1 := set_db (Some d')
               (set_files
                  (<[upload_path w file code := File.content file]> (files w))
                  (set_drawn (drawn w + n) w))).
  assert (Hd' : db w1 = Some d') by reflexivity.
  assert (Hs : Sql.select_where_shortCode code d' = Some row).
  { unfold Sql.select_where_shortCode, d'. simpl. rewrite find_snoc.
    replace (List.find (Sql.shortCode_is code) (rows d)) with (@None UrlRecord).
    - unfold Sql.shortCode_is, row. simpl. now rewrite String.eqb_refl.
    - symmetry. apply (proj2 (select_where_shortCode_None code d)).
      now apply existsb_shortCode_false. }
  assert (Hpath : file_path_of w1 row = upload_path w file code) by reflexivity.
  assert (Hf : files w1 !! file_path_of w1 row = Some (File.content file)).
  { rewrite Hpath. unfold w1. simpl. apply lookup_insert_eq. }
  exists (upload_data w request file code), code, (upload_path w file code).
  exists (set_db (Some (Sql.update_access (now_iso w1) code d')) w1),
         (Sql.update_access (now_iso w1) code d'),
         (Sql.touch (now_iso w1) row).
  split; [reflexivity|]. split; [reflexivity|]. split.
  { rewrite <- Hpath.
    exact (GET_shortCode_found code w1 d' row _ Hd' Hvalid Hs Hf). }
  split; [unfold served; simpl; rewrite <- Hpath; exact Hf|].
  split; [reflexivity|]. split.
  { rewrite select_after_update, Hs. simpl.
    unfold Sql.shortCode_is, row. simpl. now rewrite String.eqb_refl. }
  split; [reflexivity|]. split; [reflexivity|]. split; [reflexivity|].
  split.
  - rewrite GET_file_eq.
    change (path.join (CONFIG.UPLOAD_DIR w1)
              (UrlRecord.filename (Sql.touch (now_iso w1) row)))
      with (file_path_of w1 row).
    rewrite Hf, Hpath. reflexivity.
  - unfold served. simpl. rewrite <- Hpath. exact Hf.
Qed.

Lemma upload_then_retrieve_witness :
  exists w' data code filePath w'' d'' r,
    POST_upload sample_request (sample_world (Some one_row) ∅)
    = (Return (mkResponse 201 (Uploaded data "2023-11-14T22:13:20.000Z")), w')
    /\ UploadData.shortCode data = code
    /\ GET_shortCode code w' = (Return (mkResponse 200 (BunFile filePath)), w'')
    /\ served (mkResponse 200 (BunFile filePath)) w'' = Some sample_bytes
    /\ db w'' = Some d''
    /\ Sql.select_where_shortCode code d'' = Some r
    /\ UrlRecord.accessCount r = 1.
Proof.
  pose (resp := mkResponse 201
                  (Uploaded
                     (upload_data (sample_world (Some one_row) ∅)
                        sample_request sample_file "BBBBBB")
                     "2023-11-14T22:13:20.000Z")).
  assert (H1 : fst (POST_upload sample_request (sample_world (Some one_row) ∅))
               = Return resp) by (vm_compute; reflexivity).
  destruct (POST_upload sample_request (sample_world (Some one_row) ∅))
    as [out w'] eqn:Hrun.
  cbn [fst] in H1. subst out.
  assert (Hsize : File.size sample_file <= CONFIG.MAX_FILE_SIZE) by discriminate.
  assert (Hstatus : status resp = 201) by reflexivity.
  pose proof (upload_then_retrieve sample_request
                [("file", FileValue sample_file)] sample_file
                (sample_world (Some one_row) ∅) w' one_row resp
                eq_refl eq_refl Hsize eq_refl
                (sample_world_random_in_unit (Some one_row) ∅) Hrun Hstatus)
    as (data & code & filePath & w'' & d'' & r & Hbody & Hcode & Hget & Hserved
        & Hd'' & Hs & Hcount & _).
  cbn [body resp] in Hbody.
  injection Hbody as <-.
  exists w', (upload_data (sample_world (Some one_row) ∅) sample_request
                sample_file "BBBBBB"), code, filePath, w'', d'', r.
  repeat split; assumption.
Defined.

(** X15. Whatever the request, [POST /upload] returns a response, never
    throws, and is confined to the upload directory and to one new row:
    every file outside the upload directory is left as it was, every
    record of the store stays in place unchanged, and at most one record
    is appended, none unless the answer is 201. *)
Theorem POST_upload_confined (request : Request.t) (w : World) (d : Database) :
  db w = Some d -> random_in_unit w ->
  exists resp w' d' new,
    POST_upload request w = (Return resp, w')
    /\ db w' = Some d'
    /\ rows d' = rows d ++ new
    /\ (length new <= 1)%nat
    /\ (status resp <> 201 -> d' = d)
    /\ (forall p, inside (CONFIG.UPLOAD_DIR w) p = false ->
          files w' !! p = files w !! p).
Proof.
  intros Hd Hr.
  assert (Hsame : forall resp,
            POST_upload request w = (Return resp, w) ->
            exists resp w' d' new,
              POST_upload request w = (Return resp, w')
              /\ db w' = Some d'
              /\ rows d' = rows d ++ new
              /\ (length new <= 1)%nat
              /\ (status resp <> 201 -> d' = d)
              /\ (forall p, inside (CONFIG.UPLOAD_DIR w) p = false ->
                    files w' !! p = files w !! p)).
  { intros resp Hrun. exists resp, w, d, []. split; [exact Hrun|].
    split; [exact Hd|]. split; [now rewrite List.app_nil_r|].
    split; [simpl; lia|]. split; reflexivity. }
  destruct (Request.formData request) as [fd|] eqn:Hfd.
  2:{ eapply Hsame. unfold POST_upload, try_catch, bind. rewrite Hfd.
      reflexivity. }
  destruct (FormData_get fd "file") as [[s|file]|] eqn:Hget.
  - eapply Hsame. apply (POST_upload_missing request fd w Hfd). right. now exists s.
  - destruct (Z_le_gt_dec (File.size file) CONFIG.MAX_FILE_SIZE) as [Hsize|Hsize].
    2:{ eapply Hsame. exact (POST_upload_too_large request fd file w Hfd Hget Hsize). }
    destruct (generated_code w d Hd Hr) as (code & n & Hgen & Hvalid & _).
    pose proof (POST_upload_accepted request fd file w d code n
                  Hfd Hget Hsize Hd Hgen) as Hrun.
    assert (Hinside : forall p, inside (CONFIG.UPLOAD_DIR w) p = false ->
              p <> upload_path w file code).
    { intros p Hp ->.
      destruct (upload_path_inside w file code (regex_alnum code Hvalid))
        as [_ Hin].
      congruence. }
    destruct (disk_full w).
    { eexists _, _, d, []. split; [exact Hrun|]. split; [exact Hd|].
      split; [now rewrite List.app_nil_r|]. split; [simpl; lia|].
      split; reflexivity. }
    destruct (existsb (Sql.shortCode_is code) (rows d)).
    { eexists _, _, d, []. split; [exact Hrun|]. split; [exact Hd|].
      split; [now rewrite List.app_nil_r|]. split; [simpl; lia|].
      split; [reflexivity|]. intros p Hp. simpl.
      apply lookup_insert_ne. intros Heq. now apply (Hinside p Hp). }
    eexists _, _, _, [upload_row w d file code].
    split; [exact Hrun|]. split; [reflexivity|]. split; [reflexivity|].
    split; [simpl; lia|]. split; [intros H; now contradiction H|].
    intros p Hp. simpl.
    apply lookup_insert_ne. intros Heq. now apply (Hinside p Hp).
  - eapply Hsame. apply (POST_upload_missing request fd w Hfd). now left.
Qed.

Lemma POST_upload_confined_witness :
  exists resp w' d' new,
    POST_upload sample_request (sample_world (Some one_row) database_file)
    = (Return resp, w')
    /\ db w' = Some d'
    /\ rows d' = rows one_row ++ new
    /\ files w' !! "/srv/app/data/urls.db" = Some sample_bytes.
Proof.
  destruct (POST_upload_confined sample_request
              (sample_world (Some one_row) database_file) one_row eq_refl
              (sample_world_random_in_unit (Some one_row) database_file))
    as (resp & w' & d' & new & Hrun & Hd' & Hrows & _ & _ & Hfiles).
  exists resp, w', d', new. split; [exact Hrun|]. split; [exact Hd'|].
  split; [exact Hrows|].
  rewrite (Hfiles "/srv/app/data/urls.db"); reflexivity.
Defined.

(** X16. When the store refuses the insert because the generated code is
    already taken, the upload is answered with 500 and no record is added,
    but the file that was written before the insert stays on disk under the
    generated name: the handler does not remove it. *)
Theorem POST_upload_rejected_insert_keeps_file (request : Request.t)
    (fd : FormData) (file : File.t) (w : World) (d : Database)
    (code : string) (r : UrlRecord) :
  Request.formData request = Some fd ->
  FormData_get fd "file" = Some (FileValue file) ->
  File.size file <= CONFIG.MAX_FILE_SIZE ->
  db w = Some d -> random_in_unit w -> disk_full w = false ->
  fst (generateUniqueShortCode w) = Return code ->
  In r (rows d) -> UrlRecord.shortCode r = code ->
  exists w',
    POST_upload request w
    = (Return (mkResponse 500
                 (Failure "Upload failed"
                    "UNIQUE constraint failed: urls.shortCode")), w')
    /\ db w' = Some d
    /\ files w' !! upload_path w file code = Some (File.content file).
Proof.
  intros Hfd Hget Hsize Hd Hr Hdisk Hcode Hin Hc.
  destruct (generated_code w d Hd Hr) as (code' & n & Hgen & _ & _).
  rewrite Hgen in Hcode. simpl in Hcode. injection Hcode as ->.
  pose proof (POST_upload_accepted request fd file w d code n
                Hfd Hget Hsize Hd Hgen) as Hrun.
  rewrite Hdisk in Hrun.
  replace (existsb (Sql.shortCode_is code) (rows d)) with true in Hrun.
  2:{ symmetry. apply List.existsb_exists. exists r. split; [exact Hin|].
      now apply String.eqb_eq. }
  eexists. split; [exact Hrun|]. split; [exact Hd|].
  simpl. apply lookup_insert_eq.
Qed.

Lemma POST_upload_rejected_insert_keeps_file_witness :
  exists w',
    POST_upload sample_request (stuck_world (Some two_rows) ∅)
    = (Return (mkResponse 500
                 (Failure "Upload failed"
                    "UNIQUE constraint failed: urls.shortCode")), w')
    /\ db w' = Some two_rows
    /\ files w' !! upload_path (stuck_world (Some two_rows) ∅) sample_file
                     "AAAAAAAA"
       = Some (File.content sample_file).
Proof.
  apply (POST_upload_rejected_insert_keeps_file sample_request
           [("file", FileValue sample_file)] sample_file
           (stuck_world (Some two_rows) ∅) two_rows "AAAAAAAA"
           (sample_record 2 "AAAAAAAA" "more.txt" "2023-11-14T22:13:21.000Z" 0)).
  - reflexivity.
  - reflexivity.
  - discriminate.
  - reflexivity.
  - apply stuck_world_random_in_unit.
  - reflexivity.
  - vm_compute. reflexivity.
  - right. left. reflexivity.
  - reflexivity.
Defined.

(** ** Storage statistics *)

Lemma substring_all (b : string) : String.substring 0 (String.length b) b = b.
Proof. induction b as [|c b IH]; simpl; [reflexivity | now rewrite IH]. Qed.

Lemma substring_app_r (a b : string) :
  String.substring (String.length a) (String.length b) (a +:+ b) = b.
Proof.
  induction a as [|c a IH].
  - simpl. apply substring_all.
  - rewrite string_app_cons. simpl. exact IH.
Qed.

Lemma entry_of_plain (dir name : string) :
  plain_name name = true -> FileManager.entry_of dir (dir +:+ "/" +:+ name) = true.
Proof.
  intros Hname. destruct (plain_name_inv name Hname) as (H0 & _ & _ & Hns).
  unfold FileManager.entry_of.
  rewrite <- (string_app_assoc dir "/" name).
  set (d := dir +:+ "/").
  rewrite prefix_app, string_length_app.
  replace (String.length d + String.length name - String.length d)%nat
    with (String.length name) by lia.
  rewrite substring_app_r, H0. simpl. exact Hns.
Qed.

Lemma entry_of_outside (dir p : string) :
  inside dir p = false -> FileManager.entry_of dir p = false.
Proof. unfold inside, FileManager.entry_of. now intros ->. Qed.

(** X17. [getStorageStats] counts the files that lie directly in the upload
    directory and adds up their sizes. With no files it reports 0 and 0.
    Writing a new file raises the file count by 1 and the total size by
    the length of the file when the file is an entry of the upload
    directory, as is every file named by a plain name, and changes neither
    number otherwise, in particular for every file outside the upload
    directory. *)
Theorem getStorageStats_after_write (w : World) (p : string)
    (data : list Byte.byte) :
  files w !! p = None -> disk_full w = false ->
  exists fileCount totalSize,
    FileManager.getStorageStats w = (Return (fileCount, totalSize), w)
    /\ (files w = ∅ -> fileCount = 0 /\ totalSize = 0)
    /\ (fs.writeFile p data ;;; FileManager.getStorageStats) w
       = (Return (if FileManager.entry_of (CONFIG.UPLOAD_DIR w) p
                  then (fileCount + 1, totalSize + Z.of_nat (length data))
                  else (fileCount, totalSize)),
          set_files (<[p := data]> (files w)) w)
    /\ (forall name, plain_name name = true ->
          p = CONFIG.UPLOAD_DIR w +:+ "/" +:+ name ->
          FileManager.entry_of (CONFIG.UPLOAD_DIR w) p = true)
    /\ (inside (CONFIG.UPLOAD_DIR w) p = false ->
        FileManager.entry_of (CONFIG.UPLOAD_DIR w) p = false).
Proof.
  intros Hfresh Hdisk.
  set (f := fun (q : string) (bytes : list Byte.byte) (acc : Z * Z) =>
              if FileManager.entry_of (CONFIG.UPLOAD_DIR w) q
              then (fst acc + 1, snd acc + Z.of_nat (length bytes))
              else acc).
  destruct (map_fold f (0, 0) (files w)) as [c s] eqn:Hfold.
  exists c, s. split.
  { unfold FileManager.getStorageStats. fold f. now rewrite Hfold. }
  split.
  { intros Hempty. rewrite Hempty, map_fold_empty in Hfold.
    injection Hfold as <- <-. split; reflexivity. }
  split.
  { unfold bind, fs.writeFile, FileManager.getStorageStats. rewrite Hdisk.
    f_equal. f_equal.
    change (CONFIG.UPLOAD_DIR (set_files (<[p:=data]> (files w)) w))
      with (CONFIG.UPLOAD_DIR w).
    fold f. simpl files. rewrite map_fold_insert_L.
    - rewrite Hfold. unfold f. simpl.
      now destruct (FileManager.entry_of (CONFIG.UPLOAD_DIR w) p).
    - intros j1 j2 z1 z2 [a b] _ _ _. unfold f.
      destruct (FileManager.entry_of (CONFIG.UPLOAD_DIR w) j1),
               (FileManager.entry_of (CONFIG.UPLOAD_DIR w) j2);
        simpl; try reflexivity. f_equal; lia.
    - exact Hfresh. }
  split.
  - intros name Hname ->. now apply entry_of_plain.
  - apply entry_of_outside.
Qed.

Lemma getStorageStats_after_write_witness :
  exists fileCount totalSize,
    FileManager.getStorageStats (sample_world None database_file)
    = (Return (fileCount, totalSize), sample_world None database_file)
    /\ (fs.writeFile "/srv/app/public/file/a.txt" sample_bytes ;;;
        FileManager.getStorageStats) (sample_world None database_file)
       = (Return (fileCount + 1, totalSize + 2),
          set_files (<["/srv/app/public/file/a.txt" := sample_bytes]> database_file)
            (sample_world None database_file)).
Proof.
  destruct (getStorageStats_after_write (sample_world None database_file)
              "/srv/app/public/file/a.txt" sample_bytes eq_refl eq_refl)
    as (c & s & Hstats & _ & Hwrite & _).
  exists c, s. split; [exact Hstats | exact Hwrite].
Defined.

(** ** Direct access with a plain name *)

(** X18. For a file name that is a single path segment (not empty, not [.]
    or [..], no separator), [GET /file/:filename] looks at the file of that
    name in the upload directory and nowhere else: it answers 404
    FILE_NOT_FOUND when that file does not exist and otherwise sends its
    bytes, from a path inside the upload directory. The world is left as
    it was. *)
Theorem GET_file_plain_name_inside (w : World) (name : string) :
  plain_name name = true ->
  inside (CONFIG.UPLOAD_DIR w) (CONFIG.UPLOAD_DIR w +:+ "/" +:+ name) = true
  /\ (files w !! (CONFIG.UPLOAD_DIR w +:+ "/" +:+ name) = None ->
      GET_file name w
      = (Return (mkResponse 404 (Failure "File not found" "FILE_NOT_FOUND")), w))
  /\ (forall bytes,
        files w !! (CONFIG.UPLOAD_DIR w +:+ "/" +:+ name) = Some bytes ->
        GET_file name w
        = (Return (mkResponse 200
                     (BunFile (CONFIG.UPLOAD_DIR w +:+ "/" +:+ name))), w)
        /\ served (mkResponse 200
                     (BunFile (CONFIG.UPLOAD_DIR w +:+ "/" +:+ name))) w
           = Some bytes).
Proof.
  intros Hname. destruct (join_UPLOAD_DIR_plain w name Hname) as [Hjoin Hin].
  rewrite Hjoin in Hin. split; [exact Hin|]. split.
  - intros Hf. now rewrite GET_file_eq, Hjoin, Hf.
  - intros bytes Hf. split; [now rewrite GET_file_eq, Hjoin, Hf|].
    unfold served. simpl. exact Hf.
Qed.

Lemma GET_file_plain_name_inside_witness :
  GET_file "1700000000000-AAAAAA.txt" (sample_world None one_file)
  = (Return (mkResponse 200
               (BunFile (CONFIG.UPLOAD_DIR (sample_world None one_file)
                         +:+ "/" +:+ "1700000000000-AAAAAA.txt"))),
     sample_world None one_file).
Proof.
  apply (proj2 (proj2 (GET_file_plain_name_inside (sample_world None one_file)
                         "1700000000000-AAAAAA.txt" eq_refl))
           sample_bytes).
  reflexivity.
Defined.

(** ** Search with any query *)



(** [_] stands for one character, not for one byte: the two bytes of a
    character outside ASCII are matched by one [_] and not by two. *)
Example like_underscore_is_one_character :
  let e_acute := String (ascii_of_nat 195) (String (ascii_of_nat 169) "") in
  Sql.like ("a" +:+ e_acute +:+ "b") "%a_b%" = true
  /\ Sql.like e_acute "%__%" = false.
Proof. split; vm_compute; reflexivity. Qed.


